(** * SparseHDF5 benchmarks: a shallow embedding and its verified properties

  The development follows the four benchmark programs of the repository

    - [benchmarks/sparse.c]           (module [Sparse])
    - [benchmarks/vl.c]               (module [Vl])
    - [benchmarks/mm2h5.c]            (module [Mm2h5])
    - [benchmarks/frame-writer-str.c] (module [FrameWriter])

  The C integers are integers of [Z] with their wrap-around written out,
  [double] values are the binary64 numbers of [SpecFloat], the calls of
  [rand()] read a stream of outcomes, and the HDF5 calls a program makes
  are recorded as a trace of events.  The first part of the file holds the
  definitions, the second part the theorems. *)

From Stdlib Require Import ZArith List Lia Bool.
From Stdlib Require Import Floats.SpecFloat.
From stdpp Require Import gmap strings list.
From Equations Require Import Equations.

Local Open Scope Z_scope.

(* ===================================================================== *)
(** * Part I: definitions                                                 *)
(* ===================================================================== *)

(** ** C integer types and library constants *)

Module C.

Definition INT_MAX : Z := 2147483647.
Definition CHAR_MAX : Z := 127.
Definition UCHAR_MAX : Z := 255.
Definition EXIT_SUCCESS : Z := 0.
Definition EXIT_FAILURE : Z := 1.

(** Largest value of [rand()]; the value of glibc, which is also the
    largest one an [int] allows. *)
Definition RAND_MAX : Z := 2147483647.

(** [uint64_t], [hsize_t], [size_t], [unsigned long long]: arithmetic
    modulo [2^64]. *)
Definition u64 (z : Z) : Z := z mod 2 ^ 64.

(** [long long]: two's complement wrap-around on 64 bits. *)
Definition s64 (z : Z) : Z := (z + 2 ^ 63) mod 2 ^ 64 - 2 ^ 63.

(** [uint8_t]. *)
Definition u8 (z : Z) : Z := z mod 2 ^ 8.

(** What a program does when it stops early, or the value it returns. *)
Inductive outcome (A : Type) : Type :=
| Exit (status : Z) (message : string)
| Return (a : A).
Arguments Exit {A} status message.
Arguments Return {A} a.

End C.

(** ** The pseudo-random generator

  [rand()] is a function of libc.  A generator is the stream of the values
  it is going to return and the number of calls made so far; nothing is
  assumed about the stream except that its values are in
  [0 .. RAND_MAX]. *)

Module Rng.

Record rng : Type := { stream : nat -> Z; calls : nat }.

Definition rand (g : rng) : Z * rng :=
  (stream g (calls g), {| stream := stream g; calls := S (calls g) |}).
Global Arguments rand : simpl never.

Definition in_range (g : rng) : Prop :=
  forall k : nat, 0 <= stream g k <= C.RAND_MAX.

End Rng.

(** ** Binary64 arithmetic

  The [double] operations the programs use, on [spec_float] with the
  parameters of binary64.  Conversions from and to the integer types are
  the ones of C: an integer is rounded to the nearest double, a double is
  truncated towards zero and the conversion is undefined (here [None])
  when the truncated value is not a value of the target type. *)

Module Double.

Definition prec : Z := 53.
Definition emax : Z := 1024.

Definition of_Z (z : Z) : spec_float := binary_normalize prec emax z 0 false.
Definition mul : spec_float -> spec_float -> spec_float := SFmul prec emax.
Definition div : spec_float -> spec_float -> spec_float := SFdiv prec emax.
Definition sqrt : spec_float -> spec_float := SFsqrt prec emax.

(** Truncation towards zero of a finite double. *)
Definition trunc (x : spec_float) : option Z :=
  match x with
  | S754_zero _ => Some 0
  | S754_finite s m e =>
      let a := if 0 <=? e then Z.pos m * 2 ^ e else Z.pos m / 2 ^ (- e) in
      Some (if s then - a else a)
  | S754_infinity _ | S754_nan => None
  end.

(** [(hsize_t) x]. *)
Definition to_u64 (x : spec_float) : option Z :=
  match trunc x with
  | Some z => if (0 <=? z) && (z <? 2 ^ 64) then Some z else None
  | None => None
  end.

End Double.

(** ** Dataspace selections

  Modelled from the spec: [H5Sselect_hyperslab], [H5Sselect_none],
  [H5Screate_simple] and [H5Sget_select_npoints] belong to the HDF5
  library, which is not part of the repository.  The data model is the one
  of the spec: a coordinate is a tuple of non-negative integers, a
  selection block is an offset and an extent, a selection is an ordered
  sequence of pairwise non-overlapping blocks, and blocks are combined by
  set union, so that no coordinate is ever counted twice.  Every call of
  the programs passes [NULL] for the stride and for the block size: the
  [count] argument is the extent of one rectangular block. *)

Module H5S.

Definition Coordinate : Type := list Z.

Record SelectionBlock : Type :=
  { offset : Coordinate; extent : Coordinate }.

Record Selection : Type :=
  { rank : nat; blocks : list SelectionBlock }.

(** The handle of a dataspace: its dimensions and its current selection. *)
Record dataspace : Type :=
  { dims : list Z; sel : list SelectionBlock }.

Definition selection_of (ds : dataspace) : Selection :=
  {| rank := length (dims ds); blocks := sel ds |}.

(** Row-major traversal of a box: the first dimension varies slowest. *)
Fixpoint box_points (off ext : list Z) : list Coordinate :=
  match off, ext with
  | o :: off', e :: ext' =>
      flat_map (fun k => map (cons (o + Z.of_nat k)) (box_points off' ext'))
               (seq 0 (Z.to_nat e))
  | _, _ => [[]]
  end.

Definition block_points (b : SelectionBlock) : list Coordinate :=
  box_points (offset b) (extent b).

(** Enumeration order: the blocks in their order, each one row-major. *)
Definition points (bs : list SelectionBlock) : list Coordinate :=
  flat_map block_points bs.

Definition enumerate (s : Selection) : list Coordinate := points (blocks s).

Definition selected (bs : list SelectionBlock) (c : Coordinate) : bool :=
  bool_decide (c ∈ points bs).

Definition unit_block (c : Coordinate) : SelectionBlock :=
  {| offset := c; extent := map (fun _ => 1) c |}.

Inductive seloper : Type := H5S_SELECT_SET | H5S_SELECT_OR.

(** Modelled from the spec: [H5Sselect_hyperslab] on the blocks of a
    selection.  [H5S_SELECT_SET] replaces the selection by the block;
    [H5S_SELECT_OR] adds the coordinates of the block that are not selected
    yet: the block itself when none of them is, and otherwise each new
    coordinate as a block of its own. *)
Definition select_hyperslab (op : seloper) (start count : list Z)
    (bs : list SelectionBlock) : list SelectionBlock :=
  let b := {| offset := start; extent := count |} in
  let fresh := List.filter (fun c => negb (selected bs c)) (block_points b) in
  match op with
  | H5S_SELECT_SET =>
      match block_points b with [] => [] | _ :: _ => [b] end
  | H5S_SELECT_OR =>
      if (length fresh =? length (block_points b))%nat
      then match fresh with [] => bs | _ :: _ => bs ++ [b] end
      else bs ++ map unit_block fresh
  end.

(** Modelled from the spec: [H5Sselect_hyperslab] of the HDF5 library, on a
    dataspace handle; the dimensions stay and the selection changes. *)
Definition H5Sselect_hyperslab (op : seloper) (start count : list Z)
    (ds : dataspace) : dataspace :=
  {| dims := dims ds; sel := select_hyperslab op start count (sel ds) |}.

(** Modelled from the spec: [H5Sselect_none] of the HDF5 library resets
    the selection to no coordinate at all. *)
Definition H5Sselect_none (ds : dataspace) : dataspace :=
  {| dims := dims ds; sel := [] |}.

(** Modelled from the spec: [H5Screate_simple] of the HDF5 library; a new
    dataspace has its whole extent selected. *)
Definition H5Screate_simple (dims : list Z) : dataspace :=
  {| dims := dims;
     sel := select_hyperslab H5S_SELECT_SET (map (fun _ => 0) dims) dims [] |}.

(** Modelled from the spec: [H5Sget_select_npoints] of the HDF5 library
    counts the selected coordinates, each one once. *)
Definition H5Sget_select_npoints (ds : dataspace) : Z :=
  Z.of_nat (length (points (sel ds))).

End H5S.

(** ** The selection codec

  Modelled from the spec: the programs encode a selection with
  [H5Sencode], of the HDF5 library, and the repository has no decoder.
  The layout is the one the spec gives: a version, the rank, the number of
  blocks, then the offset and the extent of each block.  Every number is
  written on eight bytes, least significant byte first, as an [hsize_t]
  is. *)

Module Codec.
Import H5S.

Definition VERSION : Z := 1.

Fixpoint le_bytes (n : nat) (z : Z) : list Z :=
  match n with
  | O => []
  | S n' => z mod 256 :: le_bytes n' (z / 256)
  end.

Fixpoint le_value (bs : list Z) : Z :=
  match bs with
  | [] => 0
  | b :: bs' => b + 256 * le_value bs'
  end.

Definition put64 (z : Z) : list Z := le_bytes 8 z.

Definition get64 (bs : list Z) : option (Z * list Z) :=
  if (length bs <? 8)%nat then None
  else Some (le_value (firstn 8 bs), skipn 8 bs).

Definition put_coordinate (c : Coordinate) : list Z := flat_map put64 c.

Fixpoint get_coordinate (n : nat) (bs : list Z) : option (Coordinate * list Z) :=
  match n with
  | O => Some ([], bs)
  | S n' =>
      match get64 bs with
      | Some (z, bs1) =>
          match get_coordinate n' bs1 with
          | Some (c, bs2) => Some (z :: c, bs2)
          | None => None
          end
      | None => None
      end
  end.

Definition put_block (b : SelectionBlock) : list Z :=
  put_coordinate (offset b) ++ put_coordinate (extent b).

Fixpoint get_blocks (rank n : nat) (bs : list Z)
    : option (list SelectionBlock * list Z) :=
  match n with
  | O => Some ([], bs)
  | S n' =>
      match get_coordinate rank bs with
      | Some (off, bs1) =>
          match get_coordinate rank bs1 with
          | Some (ext, bs2) =>
              match get_blocks rank n' bs2 with
              | Some (l, bs3) =>
                  Some ({| offset := off; extent := ext |} :: l, bs3)
              | None => None
              end
          | None => None
          end
      | None => None
      end
  end.

(** Modelled from the spec: [H5Sencode] of the HDF5 library, with the
    layout the spec gives for an encoded selection. *)
Definition encode (s : Selection) : list Z :=
  VERSION :: put64 (Z.of_nat (rank s))
          ++ put64 (Z.of_nat (length (blocks s)))
          ++ flat_map put_block (blocks s).

(** Modelled from the spec: the decoder, which the repository does not
    contain; it reads the layout of [encode] back and refuses any other
    version, a truncated buffer and trailing bytes. *)
Definition decode (bs : list Z) : option Selection :=
  match bs with
  | v :: bs0 =>
      if v =? VERSION then
        match get64 bs0 with
        | Some (r, bs1) =>
            match get64 bs1 with
            | Some (n, bs2) =>
                match get_blocks (Z.to_nat r) (Z.to_nat n) bs2 with
                | Some (l, []) => Some {| rank := Z.to_nat r; blocks := l |}
                | _ => None
                end
            | None => None
            end
        | None => None
        end
      else None
  | [] => None
  end.

(** The selections the codec is specified for: every offset and extent
    has one entry per dimension, every number is an [hsize_t], and the
    blocks do not overlap. *)
Definition coordinate_ok (r : nat) (c : Coordinate) : Prop :=
  length c = r /\ Forall (fun z => 0 <= z < 2 ^ 64) c.

Definition block_ok (r : nat) (b : SelectionBlock) : Prop :=
  coordinate_ok r (offset b) /\ coordinate_ok r (extent b).

Definition canonical (s : Selection) : Prop :=
  Z.of_nat (rank s) < 2 ^ 64
  /\ Z.of_nat (length (blocks s)) < 2 ^ 64
  /\ Forall (block_ok (rank s)) (blocks s)
  /\ NoDup (enumerate s).

End Codec.

(** ** The HDF5 calls that reach a file

  Modelled from the spec: the backing store is an external collaborator;
  a program's file I/O is the sequence of these calls, with the buffers and
  selections it passes. *)

Module H5.

(** Modelled from the spec: the calls of the HDF5 library that create,
    write and read what is in a file, as the programs issue them. *)
Inductive event : Type :=
| H5Fcreate (file_name : string)
| H5Fopen (file_name : string)
| H5Gcreate (prefix : string) (number : Z)
| H5Dcreate2 (name : string) (dims : list Z) (deflate : option Z)
| H5Dwrite (name : string) (mem_space : option (list Z))
           (file_space : option (list H5S.SelectionBlock)) (buf : list Z)
| H5Dread (name : string) (file_space : list H5S.SelectionBlock)
| H5Fclose.

End H5.

(** ** [benchmarks/sparse.c] *)

Module Sparse.
Import C Rng H5.

Definition FILE_NAME : string := "sparse_file".
Definition DSET_NAME : string := "sparse".
Definition DSET_COMPRESSED_NAME : string := "sparse_comp".
Definition DATA_DSET_NAME : string := "data".
Definition DATA_DSET_COMPRESSED_NAME : string := "data_comp".
Definition SELECTION_DSET_NAME : string := "selection".
Definition SELECTION_DSET_COMPRESSED_NAME : string := "selection_comp".
Definition GROUP_NAME : string := "percent_".
Definition GROUP_NUM : Z := 10.
Definition CHUNK_DIM1 : Z := 10.
Definition CHUNK_DIM2 : Z := 100.
Definition RANK : nat := 2.
Definition MAX_PERCENT : nat := 20.

Record handler_t : Type :=
  { chunk_dim1 : Z;
    chunk_dim2 : Z;
    space_select : Z;
    max_percent : Z;
    d : Z;
    v : Z }.

Record storage_t : Type :=
  { sparse : Z;
    sparse_comp : Z;
    data : Z;
    data_comp : Z;
    sel : Z;
    sel_comp : Z }.

(** *** Command line *)

(** One option as [getopt_long] returns it, with its argument already
    converted by [atoll] or [atoi]. *)
Inductive option_t : Type :=
| opt_c (dim1 dim2 : Z)
| opt_h
| opt_m (n : Z)
| opt_s (n : Z)
| opt_d (n : Z)
| opt_v (n : Z)
| opt_unknown.

Definition default_hand : handler_t :=
  {| chunk_dim1 := CHUNK_DIM1;
     chunk_dim2 := CHUNK_DIM2;
     space_select := 1;
     max_percent := GROUP_NUM;
     d := 1;
     v := 0 |}.

Definition set_option (hand : handler_t) (o : option_t) : outcome handler_t :=
  match o with
  | opt_c dim1 dim2 =>
      Return {| chunk_dim1 := s64 (dim1 * 1024);
                chunk_dim2 := s64 (dim2 * 1024);
                space_select := space_select hand;
                max_percent := max_percent hand;
                d := d hand;
                v := v hand |}
  | opt_h => Exit 0 "Help page:"
  | opt_m n =>
      Return {| chunk_dim1 := chunk_dim1 hand;
                chunk_dim2 := chunk_dim2 hand;
                space_select := space_select hand;
                max_percent := n;
                d := d hand;
                v := v hand |}
  | opt_s n =>
      Return {| chunk_dim1 := chunk_dim1 hand;
                chunk_dim2 := chunk_dim2 hand;
                space_select := n;
                max_percent := max_percent hand;
                d := d hand;
                v := v hand |}
  | opt_d n =>
      Return {| chunk_dim1 := chunk_dim1 hand;
                chunk_dim2 := chunk_dim2 hand;
                space_select := space_select hand;
                max_percent := max_percent hand;
                d := n;
                v := v hand |}
  | opt_v n =>
      Return {| chunk_dim1 := chunk_dim1 hand;
                chunk_dim2 := chunk_dim2 hand;
                space_select := space_select hand;
                max_percent := max_percent hand;
                d := d hand;
                v := n |}
  | opt_unknown => Return hand
  end.

(** The [while ((opt = getopt_long(...)) != -1)] loop. *)
Fixpoint read_options (opts : list option_t) (hand : handler_t)
    : outcome handler_t :=
  match opts with
  | [] => Return hand
  | o :: opts' =>
      match set_option hand o with
      | Exit status message => Exit status message
      | Return hand' => read_options opts' hand'
      end
  end.

Definition invalid_density : string :=
  "The maximal percentage of the data density isn't valid".
Definition invalid_selection : string :=
  "The option of hyperslab selection can only be 1, 2, or 3".
Definition invalid_data_flag : string :=
  "Data generation flag can only be 0 (compressible data) or 1 (random)".
Definition invalid_verbose_flag : string :=
  "Verbose flag can only be 0 or 1 ".

(** "Make sure the command line options are valid". *)
Definition check_options (hand : handler_t) : outcome handler_t :=
  if (max_percent hand <? 1) || (max_percent hand >? 20)
  then Exit 1 invalid_density
  else if (space_select hand <? 1) || (space_select hand >? 3)
  then Exit 1 invalid_selection
  else if (d hand <? 0) || (d hand >? 1)
  then Exit 1 invalid_data_flag
  else if (v hand <? 0) || (v hand >? 1)
  then Exit 1 invalid_verbose_flag
  else Return hand.

Definition parse_command_line (opts : list option_t) : outcome handler_t :=
  match read_options opts default_hand with
  | Exit status message => Exit status message
  | Return hand => check_options hand
  end.

(** *** Selection generation *)

(** The state the loops of [create_hyperslab] thread: the generator, the
    dataspace and the running count [nelemts]. *)
Definition loop_state : Type := rng * H5S.dataspace * Z.

(** Inner loop of the first topology, [for (j = 0; j < num_selections; j++)],
    with [n] iterations left.  [rand() % sections] is undefined when
    [sections] is zero. *)
Fixpoint scattered_row (sections i : Z) (n : nat) (j : Z) (st : loop_state)
    : option loop_state :=
  match n with
  | O => Some st
  | S n' =>
      let '(g, dataspace, nelemts) := st in
      let (r, g1) := rand g in
      if sections =? 0 then None
      else
        let offset := [u64 i; u64 (u64 j * sections + u64 r mod sections)] in
        let op := if (i =? 0) && (j =? 0)
                  then H5S.H5S_SELECT_SET else H5S.H5S_SELECT_OR in
        let dataspace1 := H5S.H5Sselect_hyperslab op offset [1; 1] dataspace in
        scattered_row sections i n' (j + 1) (g1, dataspace1, u64 (nelemts + 1))
  end.

(** Outer loop, [for (i = 0; i < hand.chunk_dim1; i++)].  The counters are
    of type [int]: a loop whose bound is beyond [INT_MAX] overflows its
    counter, which is undefined. *)
Fixpoint scattered_rows (num_selections sections : Z) (n : nat) (i : Z)
    (st : loop_state) : option loop_state :=
  match n with
  | O => Some st
  | S n' =>
      if INT_MAX <? num_selections then None
      else
        match scattered_row sections i (Z.to_nat num_selections) 0 st with
        | Some st1 => scattered_rows num_selections sections n' (i + 1) st1
        | None => None
        end
  end.

(** [hand.chunk_dim * sqrt(select_percent) / 10], converted to [hsize_t]. *)
Definition rectangle_extent (chunk_dim select_percent : Z) : option Z :=
  Double.to_u64
    (Double.div
       (Double.mul (Double.of_Z chunk_dim)
                   (Double.sqrt (Double.of_Z select_percent)))
       (Double.of_Z 10)).

(** [hand.chunk_dim2 * select_percent / 100], the run length [block[1]] of
    the third topology: a [long long] product, divided, stored in an
    [hsize_t]. *)
Definition contiguous_extent (chunk_dim2 select_percent : Z) : Z :=
  u64 (Z.quot (s64 (chunk_dim2 * select_percent)) 100).

(** Loop of the third topology, [for (i = 0; i < hand.chunk_dim1; i++)]. *)
Fixpoint contiguous_rows (chunk_dim2 run : Z) (n : nat) (i : Z)
    (st : rng * H5S.dataspace) : option (rng * H5S.dataspace) :=
  match n with
  | O => Some st
  | S n' =>
      let (g, dataspace) := st in
      let (r, g1) := rand g in
      let room := u64 (u64 chunk_dim2 - run) in
      if room =? 0 then None
      else
        let offset := [u64 i; u64 r mod room] in
        let op := if i =? 0 then H5S.H5S_SELECT_SET else H5S.H5S_SELECT_OR in
        contiguous_rows chunk_dim2 run n' (i + 1)
          (g1, H5S.H5Sselect_hyperslab op offset [1; run] dataspace)
  end.

Definition create_hyperslab (hand : handler_t) (select_percent : Z)
    (g : rng) (dataspace : H5S.dataspace) : option (Z * rng * H5S.dataspace) :=
  if select_percent =? 0 then None
  else
    let num_selections :=
      u64 (Z.quot (s64 (chunk_dim2 hand * select_percent)) 100) in
    let sections := u64 (Z.quot 100 select_percent) in
    if space_select hand =? 1 then
      if INT_MAX <? chunk_dim1 hand then None
      else
        match scattered_rows num_selections sections
                (Z.to_nat (chunk_dim1 hand)) 0 (g, dataspace, 0) with
        | Some (g1, dataspace1, nelemts) => Some (nelemts, g1, dataspace1)
        | None => None
        end
    else if space_select hand =? 2 then
      let (r0, g1) := rand g in
      let (r1, g2) := rand g1 in
      if (Z.quot (chunk_dim1 hand) 2 =? 0) || (Z.quot (chunk_dim2 hand) 2 =? 0)
      then None
      else
        let offset := [u64 (Z.rem r0 (Z.quot (chunk_dim1 hand) 2));
                       u64 (Z.rem r1 (Z.quot (chunk_dim2 hand) 2))] in
        match rectangle_extent (chunk_dim1 hand) select_percent,
              rectangle_extent (chunk_dim2 hand) select_percent with
        | Some block0, Some block1 =>
            Some (u64 (block0 * block1), g2,
                  H5S.H5Sselect_hyperslab H5S.H5S_SELECT_SET offset
                    [block0; block1] dataspace)
        | _, _ => None
        end
    else if space_select hand =? 3 then
      let block1 := contiguous_extent (chunk_dim2 hand) select_percent in
      if INT_MAX <? chunk_dim1 hand then None
      else
        match contiguous_rows (chunk_dim2 hand) block1
                (Z.to_nat (chunk_dim1 hand)) 0 (g, dataspace) with
        | Some (g1, dataspace1) =>
            Some (u64 (u64 (chunk_dim1 hand) * block1), g1, dataspace1)
        | None => None
        end
    else Some (0, g, dataspace).

(** *** Datasets of one density level *)

(** Modelled from the spec: [H5Dget_chunk_storage_size] asks the backing
    store for the size a chunk takes in the file after a write; the answer
    is a function of that write. *)
Definition storage_query : Type := event -> Z.

Definition set_sparse (x : Z) (s : storage_t) : storage_t :=
  {| sparse := x; sparse_comp := sparse_comp s; data := data s;
     data_comp := data_comp s; sel := sel s; sel_comp := sel_comp s |}.
Definition set_sparse_comp (x : Z) (s : storage_t) : storage_t :=
  {| sparse := sparse s; sparse_comp := x; data := data s;
     data_comp := data_comp s; sel := sel s; sel_comp := sel_comp s |}.
Definition set_data (x : Z) (s : storage_t) : storage_t :=
  {| sparse := sparse s; sparse_comp := sparse_comp s; data := x;
     data_comp := data_comp s; sel := sel s; sel_comp := sel_comp s |}.
Definition set_data_comp (x : Z) (s : storage_t) : storage_t :=
  {| sparse := sparse s; sparse_comp := sparse_comp s; data := data s;
     data_comp := x; sel := sel s; sel_comp := sel_comp s |}.
Definition set_sel (x : Z) (s : storage_t) : storage_t :=
  {| sparse := sparse s; sparse_comp := sparse_comp s; data := data s;
     data_comp := data_comp s; sel := x; sel_comp := sel_comp s |}.
Definition set_sel_comp (x : Z) (s : storage_t) : storage_t :=
  {| sparse := sparse s; sparse_comp := sparse_comp s; data := data s;
     data_comp := data_comp s; sel := sel s; sel_comp := x |}.

(** [st[index].field = chunk_bytes].  The index is below [max_percent],
    hence inside the array; outside it the list is left as it is. *)
Definition store (f : storage_t -> storage_t) (index : Z)
    (st : list storage_t) : list storage_t :=
  alter f (Z.to_nat index) st.

(** The buffer [H5Sencode] fills is the encoding of the selection the
    dataspace holds; it is written to both selection datasets. *)
Definition create_encoded_dspace (size_of : storage_query)
    (dataspace : H5S.dataspace) (index : Z) (st : list storage_t)
    : list event * list storage_t :=
  let buf := Codec.encode (H5S.selection_of dataspace) in
  let nalloc := Z.of_nat (length buf) in
  let write := H5Dwrite SELECTION_DSET_NAME None None buf in
  let write_compressed :=
    H5Dwrite SELECTION_DSET_COMPRESSED_NAME None None buf in
  let st1 := store (set_sel (size_of write)) index st in
  let st2 := store (set_sel_comp (size_of write_compressed)) index st1 in
  ([H5Dcreate2 SELECTION_DSET_NAME [nalloc] None;
    H5Dcreate2 SELECTION_DSET_COMPRESSED_NAME [nalloc] (Some 9);
    write; write_compressed], st2).

Definition create_structured_dsets (size_of : storage_query)
    (nelemts : Z) (data : list Z) (index : Z) (st : list storage_t)
    : list event * list storage_t :=
  let write := H5Dwrite DATA_DSET_NAME None None data in
  let write_compressed := H5Dwrite DATA_DSET_COMPRESSED_NAME None None data in
  let st1 := store (set_data (size_of write)) index st in
  let st2 := store (set_data_comp (size_of write_compressed)) index st1 in
  ([H5Dcreate2 DATA_DSET_NAME [nelemts] None;
    H5Dcreate2 DATA_DSET_COMPRESSED_NAME [nelemts] (Some 9);
    write; write_compressed], st2).

Definition create_hdf5_dsets (size_of : storage_query)
    (dataspace : H5S.dataspace) (nelemts : Z) (data : list Z)
    (st_index : Z) (st : list storage_t) : list event * list storage_t :=
  let write :=
    H5Dwrite DSET_NAME (Some [nelemts]) (Some (H5S.sel dataspace)) data in
  let write_compressed :=
    H5Dwrite DSET_COMPRESSED_NAME (Some [nelemts])
             (Some (H5S.sel dataspace)) data in
  let st1 := store (set_sparse (size_of write)) st_index st in
  let st2 := store (set_sparse_comp (size_of write_compressed)) st_index st1 in
  ([H5Dcreate2 DSET_NAME (H5S.dims dataspace) None;
    H5Dcreate2 DSET_COMPRESSED_NAME (H5S.dims dataspace) (Some 9);
    write; write_compressed], st2).

(** "Generate random or compressible values for the defined data". *)
Fixpoint generate_data (hand : handler_t) (n : nat) (i : Z) (g : rng)
    : list Z * rng :=
  match n with
  | O => ([], g)
  | S n' =>
      if d hand =? 0 then
        let (l, g') := generate_data hand n' (i + 1) g in
        (u8 ((i + 1) mod UCHAR_MAX) :: l, g')
      else
        let (r, g1) := rand g in
        let (l, g') := generate_data hand n' (i + 1) g1 in
        (u8 (r mod UCHAR_MAX + 1) :: l, g')
  end.

Record run : Type :=
  { generator : rng;
    space : H5S.dataspace;
    st : list storage_t;
    trace : list event }.

(** The loop of [main] over the density levels,
    [for (n = 0; n < hand.max_percent; n++)], with [k] levels left. *)
Fixpoint density_levels (size_of : storage_query) (hand : handler_t)
    (k : nat) (n : Z) (s : run) : option run :=
  match k with
  | O => Some s
  | S k' =>
      match create_hyperslab hand (n + 1) (generator s) (space s) with
      | None => None
      | Some (nelemts, g1, dataspace) =>
          let (data, g2) := generate_data hand (Z.to_nat nelemts) 0 g1 in
          let (events1, st1) :=
            create_hdf5_dsets size_of dataspace nelemts data n (st s) in
          let (events2, st2) :=
            create_encoded_dspace size_of dataspace n st1 in
          let (events3, st3) :=
            create_structured_dsets size_of nelemts data n st2 in
          density_levels size_of hand k' (n + 1)
            {| generator := g2;
               space := H5S.H5Sselect_none dataspace;
               st := st3;
               trace := trace s ++ H5Gcreate GROUP_NAME (n + 1)
                                :: events1 ++ events2 ++ events3 |}
      end
  end.

Definition zero_storage : storage_t :=
  {| sparse := 0; sparse_comp := 0; data := 0; data_comp := 0;
     sel := 0; sel_comp := 0 |}.

(** [main]: the exit status, the file I/O performed and the table of
    sizes handed to [print_results]; [None] when the run reaches an
    undefined operation.  [g] is the generator that [srand(2)] leaves. *)
Definition main (size_of : storage_query) (opts : list option_t) (g : rng)
    : option (Z * list event * list storage_t) :=
  match parse_command_line opts with
  | Exit status _ => Some (status, [], replicate MAX_PERCENT zero_storage)
  | Return hand =>
      let chunk_dims := [chunk_dim1 hand; chunk_dim2 hand] in
      match density_levels size_of hand (Z.to_nat (max_percent hand)) 0
              {| generator := g;
                 space := H5S.H5Screate_simple chunk_dims;
                 st := replicate MAX_PERCENT zero_storage;
                 trace := [H5Fcreate (FILE_NAME +:+ ".h5")] |} with
      | Some s => Some (0, trace s ++ [H5Fclose], st s)
      | None => None
      end
  end.

End Sparse.

(** ** [benchmarks/vl.c] *)

Module Vl.
Import C Rng.

Definition NELEMTS : Z := 1000.
Definition MAX_VL_LEN : Z := 100.

Record handler_t : Type :=
  { nelemts : Z;
    max_len : Z;
    d : Z }.

(** [hvl_t]: the length of an element and the bytes [p] points to. *)
Record hvl_t : Type := { len : Z; p : list Z }.

(** "Make sure the command line options are valid". *)
Definition valid (hand : handler_t) : Prop :=
  1 <= nelemts hand <= INT_MAX
  /\ 1 <= max_len hand <= INT_MAX
  /\ 0 <= d hand <= 1.

(** [for (j = 0; j < vl_data[i].len; j++)]: the bytes of one element. *)
Fixpoint fill (hand : handler_t) (n : nat) (j : Z) (g : rng) : list Z * rng :=
  match n with
  | O => ([], g)
  | S n' =>
      if d hand =? 0 then
        let (l, g') := fill hand n' (j + 1) g in (u8 j :: l, g')
      else
        let (r, g1) := rand g in
        let (l, g') := fill hand n' (j + 1) g1 in
        (u8 (r mod CHAR_MAX) :: l, g')
  end.

(** The buffers [create_dsets] builds: the elements, the pairs of offset
    and length, and the running [offset] and [total_len]. *)
Record buffers : Type :=
  { vl_data : list hvl_t;
    the_pairs : list Z;
    offset : Z;
    total_len : Z }.

(** Body of the first loop: a new element, then its pair. *)
Definition add_element (hand : handler_t) (g : rng) (s : buffers)
    : option (rng * buffers) :=
  let (r, g1) := rand g in
  if max_len hand =? 0 then None
  else
    let length := u64 (Z.rem r (max_len hand) + 1) in
    let (bytes, g2) := fill hand (Z.to_nat length) 0 g1 in
    Some (g2,
          {| vl_data := vl_data s ++ [{| len := length; p := bytes |}];
             the_pairs := the_pairs s ++ [offset s; length];
             offset := u64 (offset s + length);
             total_len := u64 (total_len s + length) |}).

(** [for (i = 0; i < hand.nelemts; i++)], with [n] iterations left. *)
Fixpoint elements (hand : handler_t) (n : nat) (g : rng) (s : buffers)
    : option (rng * buffers) :=
  match n with
  | O => Some (g, s)
  | S n' =>
      match add_element hand g s with
      | Some (g1, s1) => elements hand n' g1 s1
      | None => None
      end
  end.

(** Second loop: every element copied behind the previous one. *)
Fixpoint copy_all (vl_data : list hvl_t) (all_strings : list Z) : list Z :=
  match vl_data with
  | [] => all_strings
  | e :: rest => copy_all rest (all_strings ++ p e)
  end.

(** What [create_dsets] writes: the elements to [vl_dset], the pairs to
    [offset_length_dset] and the blob, of dimension [total_len], to
    [data]. *)
Record datasets : Type :=
  { vl_dset : list hvl_t;
    offset_length_dset : list Z;
    data_dims : Z;
    data : list Z }.

Definition create_dsets (hand : handler_t) (g : rng) : option datasets :=
  if INT_MAX <? nelemts hand then None
  else
    match elements hand (Z.to_nat (nelemts hand)) g
            {| vl_data := []; the_pairs := []; offset := 0; total_len := 0 |} with
    | Some (_, s) =>
        Some {| vl_dset := vl_data s;
                offset_length_dset := the_pairs s;
                data_dims := total_len s;
                data := copy_all (vl_data s) [] |}
    | None => None
    end.

(** *** Command line *)

(** One option as [getopt_long] returns it, with its argument converted
    by [atoi]; [opt_unknown] stands for the returns [':'] and ['?'] and
    for the long option [--dimsChunk=], which the [switch] has no case
    for. *)
Inductive option_t : Type :=
| opt_h
| opt_m (n : Z)
| opt_n (n : Z)
| opt_d (n : Z)
| opt_unknown.

Definition default_hand : handler_t :=
  {| nelemts := NELEMTS; max_len := MAX_VL_LEN; d := 1 |}.

Definition set_option (hand : handler_t) (o : option_t) : outcome handler_t :=
  match o with
  | opt_h => Exit 0 "Help page:"
  | opt_m n => Return {| nelemts := nelemts hand; max_len := n; d := d hand |}
  | opt_n n => Return {| nelemts := n; max_len := max_len hand; d := d hand |}
  | opt_d n =>
      Return {| nelemts := nelemts hand; max_len := max_len hand; d := n |}
  | opt_unknown => Return hand
  end.

(** The [while ((opt = getopt_long(...)) != -1)] loop. *)
Fixpoint read_options (opts : list option_t) (hand : handler_t)
    : outcome handler_t :=
  match opts with
  | [] => Return hand
  | o :: opts' =>
      match set_option hand o with
      | Exit status message => Exit status message
      | Return hand' => read_options opts' hand'
      end
  end.

Definition invalid_elements : string := "The number of elements is invalid".
Definition invalid_length : string :=
  "The maximal length of variable-length element is invalid".
Definition invalid_data_flag : string :=
  "Data generation flag can only be 0 (compressible data) or 1 (random)".

(** "Make sure the command line options are valid". *)
Definition check_options (hand : handler_t) : outcome handler_t :=
  if (nelemts hand <? 1) || (nelemts hand >? INT_MAX)
  then Exit 1 invalid_elements
  else if (max_len hand <? 1) || (max_len hand >? INT_MAX)
  then Exit 1 invalid_length
  else if (d hand <? 0) || (d hand >? 1)
  then Exit 1 invalid_data_flag
  else Return hand.

Definition parse_command_line (opts : list option_t) : outcome handler_t :=
  match read_options opts default_hand with
  | Exit status message => Exit status message
  | Return hand => check_options hand
  end.

(** *** [main] *)

Definition FILE_NAME1 : string := "vltype.h5".
Definition FILE_NAME2 : string := "vltype_comp.h5".
Definition FILE_NAME3 : string := "vltype_struct.h5".
Definition FILE_NAME4 : string := "vltype_struct_comp.h5".

(** The exit status, the files created and what [create_dsets] wrote to
    them.  [g] is the generator that [srand(20)] leaves. *)
Record execution : Type :=
  { status : Z; files : list string; written : option datasets }.

Definition main (opts : list option_t) (g : rng) : option execution :=
  match parse_command_line opts with
  | Exit status _ =>
      Some {| status := status; files := []; written := None |}
  | Return hand =>
      match create_dsets hand g with
      | Some out =>
          Some {| status := 0;
                  files := [FILE_NAME1; FILE_NAME2; FILE_NAME3; FILE_NAME4];
                  written := Some out |}
      | None => None
      end
  end.

End Vl.

(** ** [benchmarks/frame-writer-str.c] *)

Module FrameWriter.
Import C Rng.

(** [m=FLOAT]: the fraction is the argument divided by [100.0]. *)
Definition mfrac_of (m : spec_float) : spec_float :=
  Double.div m (Double.of_Z 100).


(** [(hsize_t)(this_dim * sqrt(mfrac))], replaced by 1 when 0. *)
Definition slab_extent (this_dim : Z) (mfrac : spec_float) : option Z :=
  match Double.to_u64
          (Double.mul (Double.of_Z this_dim) (Double.sqrt mfrac)) with
  | Some n => Some (if n =? 0 then 1 else n)
  | None => None
  end.

(** The contiguous pattern of one chunk: the start and the extent of the
    hyperslab it selects, and the number of elements it writes. *)
Definition contiguous_slab (this_rows this_cols : Z) (mfrac : spec_float)
    (offset : list Z) (g : rng) : option (list Z * list Z * Z * rng) :=
  match slab_extent this_rows mfrac, slab_extent this_cols mfrac with
  | Some slab_rows, Some slab_cols =>
      let (r0, g1) := rand g in
      let (r1, g2) := rand g1 in
      let room_rows := u64 (this_rows - slab_rows + 1) in
      let room_cols := u64 (this_cols - slab_cols + 1) in
      if (room_rows =? 0) || (room_cols =? 0) then None
      else
        let start := [u64 r0 mod room_rows; u64 r1 mod room_cols] in
        Some (map u64 (zip_with Z.add offset start),
              [slab_rows; slab_cols], u64 (slab_rows * slab_cols), g2)
  | _, _ => None
  end.

End FrameWriter.

(** ** [benchmarks/mm2h5.c] *)

Module Mm2h5.
Import C Rng H5.

Definition VERIFY_POINTS : Z := 10.
Definition VERIFY_ALL_LIMIT : Z := 10000.

(** One line of the text file, as the readers see it: a comment or a
    blank line, a line on which [sscanf] converts fewer than three numbers
    (the ones it converted are kept), or a triplet. *)
Inductive line : Type :=
| blank
| malformed (converted : list Z)
| triplet (x y z : Z).

Definition point_t : Type := (Z * Z * Z)%type.
Definition a (pt : point_t) : Z := pt.1.1.
Definition b (pt : point_t) : Z := pt.1.2.
Definition c (pt : point_t) : Z := pt.2.

(** *** [read_next_group] *)

(** First loop: "Skip comments and blanks" up to the first triplet. *)
Fixpoint first_triplet (fp : list line) : option (point_t * list line) :=
  match fp with
  | [] => None
  | triplet x y z :: fp' => Some ((x, y, z), fp')
  | _ :: fp' => first_triplet fp'
  end.

(** Second loop: "Continue reading until y changes".  The line whose [y]
    differs is given back to the file ([fseek]).  The three arrays grow
    together (their capacity doubles when it is reached), so that the group
    is a list of triplets. *)
Fixpoint same_y (current_y : Z) (fp : list line) (group : list point_t)
    : list point_t * list line :=
  match fp with
  | [] => (group, [])
  | triplet x2 y2 z2 :: fp' =>
      if y2 =? current_y
      then same_y current_y fp' (group ++ [(x2, y2, z2)])
      else (group, fp)
  | _ :: fp' => same_y current_y fp' group
  end.

(** The group read, its [y_value] and the rest of the file; [None] when
    the function returns 0. *)
Definition read_next_group (fp : list line)
    : option (list point_t * Z * list line) :=
  match first_triplet fp with
  | None => None
  | Some ((x, y, z), fp1) =>
      let (group, fp2) := same_y y fp1 [(x, y, z)] in
      Some (group, y, fp2)
  end.

(** *** The write loop of [main] *)

Record ingest : Type :=
  { points : list point_t;
    cap_points : Z;
    group_count : Z;
    trace : list event }.

(** [a[i]--; b[i]--;] on [unsigned long long]. *)
Definition decrement (pt : point_t) : point_t :=
  (u64 (a pt - 1), u64 (b pt - 1), c pt).

(** [H5Sselect_none] followed by one [H5S_SELECT_OR] per coordinate. *)
Definition select_group (dataspace : H5S.dataspace) (group : list point_t)
    : H5S.dataspace :=
  fold_left
    (fun dspace pt =>
       H5S.H5Sselect_hyperslab H5S.H5S_SELECT_OR [a pt; b pt] [1; 1] dspace)
    group (H5S.H5Sselect_none dataspace).

(** Body of the loop for one group of [n] triplets.  The buffer of the
    points is enlarged once, to [n * 2] or to twice its capacity; storing
    a point beyond the capacity is outside the allocated buffer, which is
    undefined. *)
Definition write_group (dims : list Z) (group : list point_t) (s : ingest)
    : option ingest :=
  let n := Z.of_nat (length group) in
  let total_points := Z.of_nat (length (points s)) in
  let group' := map decrement group in
  let cap :=
    if u64 (total_points + n) >? cap_points s
    then (if cap_points s =? 0 then u64 (n * 2) else u64 (cap_points s * 2))
    else cap_points s in
  if total_points + n >? cap then None
  else
    let dspace := select_group (H5S.H5Screate_simple dims) group' in
    Some {| points := points s ++ group';
            cap_points := cap;
            group_count := group_count s + 1;
            trace := trace s ++ [H5Dwrite "data" (Some [n])
                                          (Some (H5S.sel dspace))
                                          (map c group')] |}.

Lemma first_triplet_shorter fp pt fp' :
  first_triplet fp = Some (pt, fp') -> (length fp' < length fp)%nat.
Proof.
  induction fp as [|l fp IH]; simpl; [discriminate|].
  destruct l; intros H; try (apply IH in H; lia).
  inversion H; subst; lia.
Qed.

Lemma same_y_shorter y fp group group' fp' :
  same_y y fp group = (group', fp') -> (length fp' <= length fp)%nat.
Proof.
  revert group; induction fp as [|l fp IH]; simpl; intros group H.
  - inversion H; subst; simpl; lia.
  - destruct l; try (apply IH in H; lia).
    destruct (_ =? _); [apply IH in H; lia|].
    inversion H; subst; simpl; lia.
Qed.

Lemma read_next_group_shorter fp group y fp' :
  read_next_group fp = Some (group, y, fp') -> (length fp' < length fp)%nat.
Proof.
  unfold read_next_group.
  destruct (first_triplet fp) as [[[[x y0] z] fp1]|] eqn:E; [|discriminate].
  destruct (same_y y0 fp1 [(x, y0, z)]) as [g fp2] eqn:E2.
  intros H; inversion H; subst.
  apply first_triplet_shorter in E. apply same_y_shorter in E2. lia.
Qed.

Definition inspect {A : Type} (x : A) : {y : A | x = y} := exist _ x eq_refl.

(** [while ((n = read_next_group(fp, ...)) > 0) { ... }] *)
Equations? write_groups (dims : list Z) (fp : list line) (s : ingest)
    : option ingest by wf (length fp) lt :=
  write_groups dims fp s with inspect (read_next_group fp) => {
    | @exist None _ := Some s
    | @exist (Some (group, _, fp')) _ with write_group dims group s => {
        | None := None
        | Some s' := write_groups dims fp' s' } }.
Proof. eapply read_next_group_shorter; eauto. Qed.

(** "Read first valid triplet (contains dataset dimensions X, Y)". *)
Fixpoint read_dimensions (fp : list line) (X Y : Z) : Z * Z * list line :=
  match fp with
  | [] => (X, Y, [])
  | blank :: fp' => read_dimensions fp' X Y
  | malformed [] :: fp' => read_dimensions fp' X Y
  | malformed [x] :: fp' => read_dimensions fp' x Y
  | malformed (x :: y :: _) :: fp' => read_dimensions fp' x y
  | triplet x y _ :: fp' => (x, y, fp')
  end.

(** *** Verification *)

(** Modelled from the spec: [H5Dread] of one element is the backing
    store's [read_section]; [reader a b] is what it leaves in [value] for
    the element at [(a, b)]. *)
Definition reader : Type := Z -> Z -> Z.

(** A line of the sampled verification:
    [(a+1, b+1): expected=c, read=value OK|MISMATCH]. *)
Record sample : Type :=
  { shown_a : Z; shown_b : Z; expected : Z; read : Z; ok : bool }.

Record verification : Type :=
  { checked : list Z;
    mismatches : Z;
    printed : list sample }.

(** [for (size_t i = 0; i < total_points; i++)] over [points]. *)
Fixpoint verify_all (get : reader) (pts : list point_t) (i : Z)
    (v : verification) : verification :=
  match pts with
  | [] => v
  | pt :: pts' =>
      let value := get (a pt) (b pt) in
      verify_all get pts' (i + 1)
        {| checked := checked v ++ [i];
           mismatches := if value =? c pt then mismatches v
                         else mismatches v + 1;
           printed := printed v |}
  end.

(** [for (int i = 0; i < VERIFY_POINTS; i++)], with [n] iterations left. *)
Fixpoint verify_samples (get : reader) (pts : list point_t) (n : nat)
    (g : rng) (v : verification) : option (rng * verification) :=
  match n with
  | O => Some (g, v)
  | S n' =>
      let (r, g1) := rand g in
      let total_points := Z.of_nat (length pts) in
      if total_points =? 0 then None
      else
        let idx := u64 r mod total_points in
        match pts !! Z.to_nat idx with
        | None => None
        | Some pt =>
            let value := get (a pt) (b pt) in
            verify_samples get pts n' g1
              {| checked := checked v ++ [idx];
                 mismatches := if value =? c pt then mismatches v
                               else mismatches v + 1;
                 printed := printed v ++
                   [{| shown_a := u64 (a pt + 1);
                       shown_b := u64 (b pt + 1);
                       expected := c pt;
                       read := value;
                       ok := value =? c pt |}] |}
        end
  end.

(** The "Verification summary". *)
Record summary : Type :=
  { check_count : Z;
    reported_mismatches : Z;
    pct : spec_float }.

Definition match_rate (check_count mismatches : Z) : spec_float :=
  if check_count =? 0 then S754_zero false
  else Double.div
         (Double.mul (Double.of_Z 100)
                     (Double.of_Z (u64 (check_count - mismatches))))
         (Double.of_Z check_count).

Definition verify (get : reader) (pts : list point_t) (g : rng)
    : option (verification * summary * Z) :=
  let total_points := Z.of_nat (length pts) in
  let check_count :=
    if total_points <=? VERIFY_ALL_LIMIT then total_points else VERIFY_POINTS in
  let start := {| checked := []; mismatches := 0; printed := [] |} in
  let result :=
    if total_points <=? VERIFY_ALL_LIMIT
    then Some (verify_all get pts 0 start)
    else match verify_samples get pts (Z.to_nat VERIFY_POINTS) g start with
         | Some (_, v) => Some v
         | None => None
         end in
  match result with
  | Some v =>
      Some (v,
            {| check_count := check_count;
               reported_mismatches := mismatches v;
               pct := match_rate check_count (mismatches v) |},
            EXIT_SUCCESS)
  | None => None
  end.

(** *** [main] *)

Record arguments : Type :=
  { argc : Z; XC : Z; YC : Z; gzip_level : Z }.

Record execution : Type :=
  { status : Z;
    written : list event;
    stored : list point_t;
    report : option (verification * summary) }.

Definition failure : execution :=
  {| status := EXIT_FAILURE; written := []; stored := []; report := None |}.

(** The state in which the write loop starts: the HDF5 file and the
    dataset "data" of dimensions [X] by [Y] are created, no point is
    stored.  The name of the file is [h5_file], derived from the name of
    the text file and from the level. *)
Definition created (args : arguments) (h5_file : string) (X Y : Z) : ingest :=
  {| points := [];
     cap_points := 0;
     group_count := 0;
     trace := [H5Fcreate h5_file;
               H5Dcreate2 "data" [X; Y]
                 (if gzip_level args >? 0
                  then Some (gzip_level args) else None)] |}.

(** "Failed to create HDF5 file.": the call was made and gave no file. *)
Definition not_created (h5_file : string) : execution :=
  {| status := EXIT_FAILURE; written := [H5Fcreate h5_file];
     stored := []; report := None |}.

(** [file] is the content of the text file, [None] when it cannot be
    opened; [file_id] is the identifier [H5Fcreate] returns, negative when
    the file cannot be created; [g] is the generator [srand(time(NULL))]
    leaves before the verification. *)
Definition main (args : arguments) (h5_file : string) (file_id : Z)
    (file : option (list line)) (get : reader) (g : rng)
    : option execution :=
  if argc args <? 5 then Some failure
  else if (gzip_level args <? 0) || (gzip_level args >? 9) then Some failure
  else
    match file with
    | None => Some failure
    | Some fp =>
        let '(X, Y, fp1) := read_dimensions fp 0 0 in
        if (X =? 0) || (Y =? 0) then Some failure
        else if file_id <? 0 then Some (not_created h5_file)
        else
          match write_groups [X; Y] fp1 (created args h5_file X Y) with
          | None => None
          | Some s =>
              match verify get (points s) g with
              | None => None
              | Some (v, sm, st) =>
                  Some {| status := st;
                          written := trace s ++ [H5Fclose];
                          stored := points s;
                          report := Some (v, sm) |}
              end
          end
    end.

(** *** The name of the HDF5 file *)

(** The character ['.']. *)
Definition dot : Ascii.ascii := Ascii.ascii_of_nat 46.

Fixpoint has_dot (s : string) : bool :=
  match s with
  | EmptyString => false
  | String c s' => Ascii.eqb c dot || has_dot s'
  end.

(** [dot = strrchr(base_name, '.'); if (dot) *dot = '\0';]: the name up to
    its last dot, the whole name when it has none. *)
Fixpoint cut_last_dot (s : string) : string :=
  match s with
  | EmptyString => EmptyString
  | String c s' =>
      if Ascii.eqb c dot && negb (has_dot s') then EmptyString
      else String c (cut_last_dot s')
  end.

(** [%d] of a level that has passed the test [0 <= gzip_level <= 9]. *)
Definition level_digit (gzip_level : Z) : string :=
  String (Ascii.ascii_of_nat (48 + Z.to_nat gzip_level)) EmptyString.

(** "Derive HDF5 filename".  [strncpy] fills the 128 bytes of [base_name]
    and leaves no terminator when the name has 128 characters or more, so
    that [strrchr] reads past the buffer: this is undefined, [None]. *)
Definition h5_file_name (txt_file : string) (gzip_level : Z) : option string :=
  if (128 <=? String.length txt_file)%nat then None
  else Some (cut_last_dot txt_file +:+ "_gzip" +:+ level_digit gzip_level
             +:+ ".h5").

End Mm2h5.

(* ===================================================================== *)
(** * Part II: properties                                                 *)
(* ===================================================================== *)

(** ** Command line of [sparse.c] *)

Section SparseCommandLine.
Import C Sparse.








End SparseCommandLine.

(** ** The index of the variable-length elements ([vl.c]) *)

Section VlIndex.
Import C Rng Vl.

(** Sum of the lengths of a sequence of elements. *)
Definition lengths (l : list hvl_t) : Z := fold_right Z.add 0 (map len l).

(** The pairs of a sequence whose first element starts at [off]. *)
Fixpoint pairs_from (off : Z) (l : list hvl_t) : list Z :=
  match l with
  | [] => []
  | e :: l' => off :: len e :: pairs_from (off + len e) l'
  end.

Definition element_ok (e : hvl_t) : Prop :=
  1 <= len e <= INT_MAX /\ len e = Z.of_nat (length (p e)).

Lemma lengths_app l1 l2 : lengths (l1 ++ l2) = lengths l1 + lengths l2.
Proof.
  unfold lengths. induction l1 as [|e l1 IH]; simpl; [reflexivity|].
  rewrite IH. lia.
Qed.

Lemma lengths_bound l :
  Forall element_ok l ->
  0 <= lengths l <= Z.of_nat (length l) * INT_MAX.
Proof.
  induction 1 as [|e l [He _] _ IH]; unfold lengths in *;
    cbn [map fold_right length]; [lia|].
  rewrite Nat2Z.inj_succ. unfold INT_MAX in *. lia.
Qed.

Lemma pairs_from_app off l1 l2 :
  pairs_from off (l1 ++ l2)
  = pairs_from off l1 ++ pairs_from (off + lengths l1) l2.
Proof.
  revert off; induction l1 as [|e l1 IH]; intros off; simpl.
  - unfold lengths; simpl. f_equal. lia.
  - rewrite IH. change (lengths (e :: l1)) with (len e + lengths l1).
    rewrite Z.add_assoc. reflexivity.
Qed.

Lemma pairs_from_length off l :
  length (pairs_from off l) = (2 * length l)%nat.
Proof. revert off; induction l as [|e l IH]; intros off; simpl; [|rewrite IH]; lia. Qed.

Lemma pairs_from_lookup off l i e :
  l !! i = Some e ->
  pairs_from off l !! (2 * i)%nat = Some (off + lengths (take i l))
  /\ pairs_from off l !! (2 * i + 1)%nat = Some (len e).
Proof.
  revert off i; induction l as [|x l IH]; intros off i H; [discriminate|].
  destruct i as [|i]; simpl in H.
  - inversion H; subst. unfold lengths; simpl. split; [f_equal; lia | reflexivity].
  - destruct (IH (off + len x) i H) as [H1 H2].
    replace (2 * S i)%nat with (S (S (2 * i))) by lia.
    replace (S (S (2 * i)) + 1)%nat with (S (S (2 * i + 1))) by lia.
    split.
    + transitivity (pairs_from (off + len x) l !! (2 * i)%nat); [reflexivity|].
      rewrite H1. change (lengths (take (S i) (x :: l)))
        with (len x + lengths (take i l)).
      f_equal. lia.
    + transitivity (pairs_from (off + len x) l !! (2 * i + 1)%nat);
        [reflexivity | exact H2].
Qed.

Lemma fill_length hand n j g : length (fill hand n j g).1 = n.
Proof.
  revert j g; induction n as [|n IH]; intros j g; cbn [fill]; [reflexivity|].
  destruct (d hand =? 0).
  - specialize (IH (j + 1) g). destruct (fill hand n (j + 1) g); simpl in *; lia.
  - destruct (rand g) as [r g1]. specialize (IH (j + 1) g1).
    destruct (fill hand n (j + 1) g1); simpl in *; lia.
Qed.

Lemma fill_stream hand n j g : stream (fill hand n j g).2 = stream g.
Proof.
  revert j g; induction n as [|n IH]; intros j g; cbn [fill]; [reflexivity|].
  destruct (d hand =? 0).
  - specialize (IH (j + 1) g). destruct (fill hand n (j + 1) g); exact IH.
  - destruct (rand g) as [r g1] eqn:Er. specialize (IH (j + 1) g1).
    destruct (fill hand n (j + 1) g1); simpl in *.
    rewrite IH. unfold rand in Er. inversion Er; reflexivity.
Qed.

Lemma copy_all_concat l acc : copy_all l acc = acc ++ concat (map p l).
Proof.
  revert acc; induction l as [|e l IH]; intros acc; simpl.
  - rewrite app_nil_r; reflexivity.
  - rewrite IH, <- app_assoc; reflexivity.
Qed.

Lemma concat_length_lengths l :
  Forall element_ok l -> Z.of_nat (length (concat (map p l))) = lengths l.
Proof.
  induction 1 as [|e l [_ He] _ IH]; unfold lengths in *; simpl; [reflexivity|].
  rewrite length_app. lia.
Qed.

(** What the first loop keeps true. *)
Definition indexed (s : buffers) : Prop :=
  Forall element_ok (vl_data s)
  /\ the_pairs s = pairs_from 0 (vl_data s)
  /\ offset s = lengths (vl_data s)
  /\ total_len s = lengths (vl_data s).

Lemma add_element_indexed hand g s :
  valid hand -> in_range g -> indexed s ->
  Z.of_nat (length (vl_data s)) < INT_MAX ->
  exists g1 s1,
    add_element hand g s = Some (g1, s1)
    /\ stream g1 = stream g
    /\ indexed s1
    /\ length (vl_data s1) = S (length (vl_data s)).
Proof.
  intros (Hn & Hm & Hd) Hg (Hok & Hp & Ho & Ht) Hlen.
  unfold add_element, rand.
  replace (max_len hand =? 0) with false by lia.
  pose proof (Hg (calls g)) as Hr.
  set (r := stream g (calls g)) in *.
  assert (Hrem : 0 <= Z.rem r (max_len hand) < max_len hand).
  { rewrite Z.rem_mod_nonneg by lia. apply Z.mod_pos_bound; lia. }
  assert (Hu : u64 (Z.rem r (max_len hand) + 1) = Z.rem r (max_len hand) + 1).
  { unfold u64. apply Z.mod_small. unfold INT_MAX in *. lia. }
  rewrite Hu. set (n := Z.rem r (max_len hand) + 1) in *.
  pose proof (fill_length hand (Z.to_nat n) 0
                {| stream := stream g; calls := S (calls g) |}) as Hfill.
  pose proof (fill_stream hand) as Hstream.
  specialize (Hstream (Z.to_nat n) 0 {| stream := stream g; calls := S (calls g) |}).
  destruct (fill hand (Z.to_nat n) 0 _) as [bytes g2]; simpl in Hfill, Hstream.
  pose proof (lengths_bound _ Hok) as Hb.
  assert (He : element_ok {| len := n; p := bytes |}).
  { split; simpl; unfold INT_MAX in *; lia. }
  assert (Hsmall : u64 (lengths (vl_data s) + n) = lengths (vl_data s) + n).
  { unfold u64. apply Z.mod_small. unfold INT_MAX in *. nia. }
  exists g2, {| vl_data := vl_data s ++ [{| len := n; p := bytes |}];
                the_pairs := the_pairs s ++ [offset s; n];
                offset := u64 (offset s + n);
                total_len := u64 (total_len s + n) |}.
  split; [reflexivity|]. split; [exact Hstream|]. split.
  - unfold indexed; simpl. split; [|split; [|split]].
    + apply Forall_app; split; [exact Hok | constructor; [exact He | constructor]].
    + rewrite pairs_from_app, Hp, Ho. simpl. do 2 f_equal.
    + rewrite Ho, Hsmall, lengths_app. unfold lengths at 3; simpl. lia.
    + rewrite Ht, Hsmall, lengths_app. unfold lengths at 3; simpl. lia.
  - simpl. rewrite length_app. simpl. lia.
Qed.

Lemma elements_indexed hand n g s :
  valid hand -> in_range g -> indexed s ->
  Z.of_nat (length (vl_data s)) + Z.of_nat n <= INT_MAX ->
  exists g1 s1,
    elements hand n g s = Some (g1, s1)
    /\ indexed s1
    /\ length (vl_data s1) = (length (vl_data s) + n)%nat.
Proof.
  intros Hv. revert g s; induction n as [|n IH]; intros g s Hg Hs Hlen.
  - exists g, s. simpl. split; [reflexivity|]. split; [exact Hs | lia].
  - destruct (add_element_indexed hand g s Hv Hg Hs) as (g1 & s1 & E & Hst & Hs1 & Hl1);
      [lia|].
    assert (Hg1 : in_range g1) by (intros k; rewrite Hst; apply Hg).
    destruct (IH g1 s1 Hg1 Hs1) as (g2 & s2 & E2 & Hs2 & Hl2); [lia|].
    exists g2, s2. simpl. rewrite E. split; [exact E2|]. split; [exact Hs2 | lia].
Qed.

(** C3: for every valid configuration and every outcome of [rand()],
    [create_dsets] builds [nelemts] elements [e_0 .. e_(n-1)]; the pair
    array holds, for each [i], the sum of the lengths of [e_0 .. e_(i-1)]
    at position [2i] (so 0 for the first element) and the length of [e_i]
    at position [2i+1]; the offset plus the length of the last pair is the
    total length, which is the length of the blob; and the blob is the
    concatenation of the bytes of the elements in their order. *)
Theorem offset_length_index (hand : handler_t) (g : rng) :
  valid hand -> in_range g ->
  exists out,
    create_dsets hand g = Some out
    /\ Z.of_nat (length (vl_dset out)) = nelemts hand
    /\ length (offset_length_dset out) = (2 * length (vl_dset out))%nat
    /\ offset_length_dset out !! 0%nat = Some 0
    /\ (forall i e,
          vl_dset out !! i = Some e ->
          offset_length_dset out !! (2 * i)%nat
            = Some (lengths (take i (vl_dset out)))
          /\ offset_length_dset out !! (2 * i + 1)%nat = Some (len e)
          /\ len e = Z.of_nat (length (p e)))
    /\ (exists off e,
          last (vl_dset out) = Some e
          /\ offset_length_dset out !! (2 * (length (vl_dset out) - 1))%nat
             = Some off
          /\ off + len e = data_dims out)
    /\ data_dims out = Z.of_nat (length (data out))
    /\ data out = concat (map p (vl_dset out)).
Proof.
  intros Hv Hg. pose proof Hv as (Hn & Hm & Hd).
  destruct (elements_indexed hand (Z.to_nat (nelemts hand)) g
              {| vl_data := []; the_pairs := []; offset := 0; total_len := 0 |}
              Hv Hg) as (g1 & s & E & (Hok & Hp & Ho & Ht) & Hl).
  { repeat split; constructor. }
  { simpl; lia. }
  simpl in Hl.
  unfold create_dsets. replace (INT_MAX <? nelemts hand) with false by lia.
  rewrite E. eexists; split; [reflexivity|]. simpl.
  assert (Hlookup : forall i e, vl_data s !! i = Some e ->
            the_pairs s !! (2 * i)%nat = Some (lengths (take i (vl_data s)))
            /\ the_pairs s !! (2 * i + 1)%nat = Some (len e)).
  { intros i e Hi. rewrite Hp.
    destruct (pairs_from_lookup 0 _ _ _ Hi) as [H1 H2].
    rewrite H1, H2. split; [f_equal; lia | reflexivity]. }
  split; [lia|]. split; [rewrite Hp; apply pairs_from_length|].
  destruct (vl_data s) as [|e0 l0] eqn:Evl; [simpl in Hl; lia|].
  rewrite <- Evl in *.
  split.
  { destruct (Hlookup 0%nat e0) as [H0 _]; [rewrite Evl; reflexivity|].
    exact H0. }
  split.
  { intros i e Hi. destruct (Hlookup i e Hi) as [H1 H2].
    split; [exact H1|]. split; [exact H2|].
    rewrite Forall_forall in Hok. apply Hok.
    eapply list_elem_of_lookup_2; eauto. }
  split.
  { assert (Hne : vl_data s <> []) by (rewrite Evl; discriminate).
    destruct (last (vl_data s)) as [e|] eqn:El;
      [|apply last_None in El; contradiction].
    pose proof El as El'. rewrite last_lookup in El'.
    replace (Init.Nat.pred (length (vl_data s)))
      with (length (vl_data s) - 1)%nat in El' by lia.
    destruct (Hlookup _ _ El') as [H1 _].
    exists (lengths (take (length (vl_data s) - 1) (vl_data s))), e.
    split; [reflexivity|]. split; [exact H1|].
    rewrite Ht.
    rewrite <- (take_drop (length (vl_data s) - 1) (vl_data s)) at 3.
    rewrite lengths_app. f_equal.
    rewrite (drop_S _ e) by exact El'.
    rewrite drop_ge by lia. unfold lengths; simpl. lia. }
  split.
  { rewrite copy_all_concat. simpl. rewrite Ht.
    symmetry. apply concat_length_lengths. exact Hok. }
  apply copy_all_concat.
Qed.

Definition sample_generator : rng :=
  {| stream := fun k => (Z.of_nat k * 7919 + 13) mod 32768; calls := 0 |}.

Lemma sample_generator_in_range : in_range sample_generator.
Proof.
  intros k. simpl. unfold RAND_MAX.
  pose proof (Z.mod_pos_bound (Z.of_nat k * 7919 + 13) 32768). lia.
Qed.

Lemma offset_length_index_witness :
  exists out,
    create_dsets {| nelemts := 3; max_len := 4; d := 0 |} sample_generator
      = Some out
    /\ offset_length_dset out = [0; 2; 2; 1; 3; 4].
Proof.
  destruct (offset_length_index {| nelemts := 3; max_len := 4; d := 0 |}
              sample_generator) as (out & E & _).
  - unfold valid, INT_MAX; simpl; lia.
  - exact sample_generator_in_range.
  - exists out. split; [exact E|].
    vm_compute in E. inversion E. reflexivity.
Defined.

End VlIndex.

(** ** Selections built from single coordinates *)

Section SelectionFacts.
Import H5S.

Lemma points_app (bs1 bs2 : list SelectionBlock) :
  points (bs1 ++ bs2) = points bs1 ++ points bs2.
Proof. unfold points. apply flat_map_app. Qed.

Lemma block_points_unit (x y : Z) :
  block_points {| offset := [x; y]; extent := [1; 1] |} = [[x; y]].
Proof.
  unfold block_points; simpl. rewrite !Z.add_0_r. reflexivity.
Qed.

Lemma selected_true bs c : selected bs c = true <-> c ∈ points bs.
Proof. unfold selected. apply bool_decide_eq_true. Qed.

Lemma selected_false bs c : selected bs c = false <-> c ∉ points bs.
Proof. unfold selected. apply bool_decide_eq_false. Qed.

(** Adding a coordinate that is selected leaves the selection as it is. *)
Lemma select_or_selected bs x y :
  selected bs [x; y] = true ->
  select_hyperslab H5S_SELECT_OR [x; y] [1; 1] bs = bs.
Proof.
  intros H. unfold select_hyperslab. rewrite block_points_unit.
  simpl. rewrite H. simpl. apply app_nil_r.
Qed.

(** Adding a new coordinate appends it. *)
Lemma select_or_fresh bs x y :
  selected bs [x; y] = false ->
  select_hyperslab H5S_SELECT_OR [x; y] [1; 1] bs
  = bs ++ [{| offset := [x; y]; extent := [1; 1] |}].
Proof.
  intros H. unfold select_hyperslab. rewrite block_points_unit.
  simpl. rewrite H. reflexivity.
Qed.

Lemma select_set_unit bs x y :
  select_hyperslab H5S_SELECT_SET [x; y] [1; 1] bs
  = [{| offset := [x; y]; extent := [1; 1] |}].
Proof.
  unfold select_hyperslab. rewrite block_points_unit. reflexivity.
Qed.

Lemma points_unit x y :
  points [{| offset := [x; y]; extent := [1; 1] |}] = [[x; y]].
Proof.
  unfold points. cbn [flat_map]. rewrite block_points_unit. reflexivity.
Qed.

Lemma select_or_points bs x y :
  NoDup (points bs) ->
  let bs' := select_hyperslab H5S_SELECT_OR [x; y] [1; 1] bs in
  NoDup (points bs')
  /\ forall c, c ∈ points bs' <-> c ∈ points bs \/ c = [x; y].
Proof.
  intros Hnd bs'; subst bs'. destruct (selected bs [x; y]) eqn:E.
  - rewrite select_or_selected by exact E. split; [exact Hnd|].
    apply selected_true in E. intros c. split; [auto|].
    intros [H | ->]; assumption.
  - rewrite select_or_fresh by exact E.
    apply selected_false in E.
    rewrite points_app, points_unit. split.
    + apply NoDup_app. split; [exact Hnd|]. split.
      * intros c Hc Hc'. apply list_elem_of_singleton in Hc'. subst. auto.
      * apply NoDup_singleton.
    + intros c. rewrite elem_of_app, list_elem_of_singleton. reflexivity.
Qed.

End SelectionFacts.

(** ** Ingestion of a triplet stream ([mm2h5.c]) *)

Section Ingestion.
Import C Rng H5 Mm2h5.

(** The triplets of a file, in their order. *)
Fixpoint triplets (fp : list line) : list point_t :=
  match fp with
  | [] => []
  | triplet x y z :: fp' => (x, y, z) :: triplets fp'
  | _ :: fp' => triplets fp'
  end.

(** The coordinates a group selects. *)
Definition coordinates (group : list point_t) : list H5S.Coordinate :=
  map (fun pt => [a pt; b pt]) group.

Lemma write_groups_step dims fp s :
  write_groups dims fp s
  = match read_next_group fp with
    | None => Some s
    | Some (group, _, fp') =>
        match write_group dims group s with
        | None => None
        | Some s' => write_groups dims fp' s'
        end
    end.
Proof.
  funelim (write_groups dims fp s);
    match goal with E : read_next_group _ = _ |- _ => rewrite E end;
    try reflexivity;
    match goal with E : write_group _ _ _ = _ |- _ => rewrite E end;
    reflexivity.
Qed.

Lemma first_triplet_triplets fp t fp1 :
  first_triplet fp = Some (t, fp1) -> triplets fp = t :: triplets fp1.
Proof.
  induction fp as [|l fp IH]; simpl; [discriminate|].
  destruct l; intros H; try (apply IH; exact H).
  inversion H; subst; reflexivity.
Qed.

Lemma same_y_triplets y fp acc group fp2 :
  same_y y fp acc = (group, fp2) ->
  acc ++ triplets fp = group ++ triplets fp2.
Proof.
  revert acc; induction fp as [|l fp IH]; simpl; intros acc H.
  - inversion H; subst; reflexivity.
  - destruct l; try (apply IH; exact H).
    destruct (_ =? _).
    + apply IH in H. rewrite <- H, <- app_assoc. reflexivity.
    + inversion H; subst. reflexivity.
Qed.

Lemma read_next_group_triplets fp group y fp' :
  read_next_group fp = Some (group, y, fp') ->
  triplets fp = group ++ triplets fp'.
Proof.
  unfold read_next_group.
  destruct (first_triplet fp) as [[[[x y0] z] fp1]|] eqn:E; [|discriminate].
  destruct (same_y y0 fp1 [(x, y0, z)]) as [g fp2] eqn:E2.
  intros H; inversion H; subst.
  apply first_triplet_triplets in E. apply same_y_triplets in E2.
  rewrite E, <- E2. reflexivity.
Qed.

Lemma fold_select_points group bs :
  NoDup (H5S.points bs) ->
  let bs' := fold_left
               (fun bs pt =>
                  H5S.select_hyperslab H5S.H5S_SELECT_OR [a pt; b pt] [1; 1] bs)
               group bs in
  NoDup (H5S.points bs')
  /\ forall co, co ∈ H5S.points bs'
                <-> co ∈ H5S.points bs \/ co ∈ coordinates group.
Proof.
  revert bs; induction group as [|pt group IH]; intros bs Hnd; simpl.
  - split; [exact Hnd|]. intros co. split; [auto|].
    intros [H|H]; [exact H | inversion H].
  - destruct (select_or_points bs (a pt) (b pt) Hnd) as [Hnd1 Hin1].
    destruct (IH _ Hnd1) as [Hnd2 Hin2].
    split; [exact Hnd2|]. intros co. rewrite Hin2, Hin1.
    rewrite elem_of_cons. tauto.
Qed.

Lemma select_group_fold (d0 : H5S.dataspace) group :
  H5S.sel (fold_left
             (fun dspace pt =>
                H5S.H5Sselect_hyperslab H5S.H5S_SELECT_OR [a pt; b pt] [1; 1]
                  dspace) group d0)
  = fold_left
      (fun bs pt =>
         H5S.select_hyperslab H5S.H5S_SELECT_OR [a pt; b pt] [1; 1] bs)
      group (H5S.sel d0).
Proof.
  revert d0; induction group as [|pt group IH]; intros d0; simpl;
    [reflexivity|].
  rewrite IH. reflexivity.
Qed.

Lemma select_group_points (dataspace : H5S.dataspace) group :
  NoDup (H5S.points (H5S.sel (select_group dataspace group)))
  /\ forall co, co ∈ H5S.points (H5S.sel (select_group dataspace group))
                <-> co ∈ coordinates group.
Proof.
  unfold select_group. rewrite select_group_fold. simpl.
  destruct (fold_select_points group []) as [Hnd Hin]; [constructor|].
  split; [exact Hnd|]. intros co. rewrite Hin. simpl.
  split; [intros [H|H]; [inversion H | exact H] | auto].
Qed.

(** C4: [H5S_SELECT_OR] of a coordinate that is selected leaves the
    dataspace as it is; the selection built for a group has as many points
    as the group has distinct coordinates; and the triplets (0,5,9),
    (0,5,9), (1,5,3), read as one group of key 5 and written, give a
    selection of exactly 2 points. *)
Theorem union_dedup :
  (forall (dspace : H5S.dataspace) (x y : Z),
      H5S.selected (H5S.sel dspace) [x; y] = true ->
      H5S.H5Sselect_hyperslab H5S.H5S_SELECT_OR [x; y] [1; 1] dspace = dspace)
  /\ (forall (dataspace : H5S.dataspace) (group : list point_t),
        H5S.H5Sget_select_npoints (select_group dataspace group)
        = Z.of_nat (size (list_to_set (C := gset (list Z))
                                      (coordinates group))))
  /\ (forall dims : list Z,
        read_next_group [triplet 0 5 9; triplet 0 5 9; triplet 1 5 3]
          = Some ([(0, 5, 9); (0, 5, 9); (1, 5, 3)], 5, [])
        /\ exists s selection,
             write_groups dims [triplet 0 5 9; triplet 0 5 9; triplet 1 5 3]
               {| points := []; cap_points := 0; group_count := 0;
                  trace := [] |} = Some s
             /\ trace s = [H5Dwrite "data" (Some [3]) (Some selection)
                                    [9; 9; 3]]
             /\ length (H5S.points selection) = 2%nat).
Proof.
  split; [|split].
  - intros [dims bs] x y H. unfold H5S.H5Sselect_hyperslab.
    cbn [H5S.sel H5S.dims] in *.
    rewrite select_or_selected by exact H. reflexivity.
  - intros dataspace group.
    destruct (select_group_points dataspace group) as [Hnd Hin].
    unfold H5S.H5Sget_select_npoints. f_equal.
    rewrite <- (size_list_to_set (C := gset (list Z))) by exact Hnd.
    f_equal. apply set_eq. intros co.
    rewrite !elem_of_list_to_set. apply Hin.
  - intros dims. split; [reflexivity|].
    eexists _, _. split; [vm_compute; reflexivity|].
    split; reflexivity.
Qed.

End Ingestion.

(** ** Coordinates of the stored points ([mm2h5.c]) *)

Section OneBased.
Import C Rng H5 Mm2h5.

(** The write of one group: the selection holds exactly the decremented
    coordinates of the group, the buffer its values. *)
Definition written (group : list point_t) (ev : event) : Prop :=
  exists selection,
    ev = H5Dwrite "data" (Some [Z.of_nat (length group)]) (Some selection)
                  (map c group)
    /\ forall co, co ∈ H5S.points selection
                  <-> exists t, t ∈ group
                                /\ co = [u64 (a t - 1); u64 (b t - 1)].

Lemma write_group_spec dims group s s' :
  write_group dims group s = Some s' ->
  points s' = points s ++ map decrement group
  /\ exists ev, trace s' = trace s ++ [ev] /\ written group ev.
Proof.
  unfold write_group. destruct (_ >? _); [discriminate|].
  intros H; inversion H; subst; clear H. simpl.
  split; [reflexivity|]. eexists. split; [reflexivity|].
  eexists. split.
  - f_equal. rewrite map_map. apply map_ext. intros [[x y] z]. reflexivity.
  - intros co.
    destruct (select_group_points (H5S.H5Screate_simple dims)
                (map decrement group)) as [_ Hin].
    rewrite Hin. unfold coordinates. rewrite map_map.
    rewrite list_elem_of_fmap. split.
    + intros (t & -> & Ht). exists t. split; [exact Ht | reflexivity].
    + intros (t & Ht & ->). exists t. split; [reflexivity | exact Ht].
Qed.

Lemma write_groups_spec dims k :
  forall fp s0 s,
    (length fp <= k)%nat ->
    write_groups dims fp s0 = Some s ->
    points s = points s0 ++ map decrement (triplets fp)
    /\ exists groups writes,
         concat groups = triplets fp
         /\ trace s = trace s0 ++ writes
         /\ Forall2 written groups writes.
Proof.
  induction k as [|k IH]; intros fp s0 s Hk; rewrite write_groups_step.
  - destruct fp; [|simpl in Hk; lia]. simpl.
    intros H; inversion H; subst. rewrite app_nil_r. split; [reflexivity|].
    exists [], []. rewrite app_nil_r. repeat split. constructor.
  - destruct (read_next_group fp) as [[[group y] fp']|] eqn:E.
    + pose proof (read_next_group_shorter _ _ _ _ E) as Hlt.
      pose proof (read_next_group_triplets _ _ _ _ E) as Ht.
      destruct (write_group dims group s0) as [s1|] eqn:Ew; [|discriminate].
      intros H. apply IH in H; [|lia].
      destruct H as (Hp & groups & writes & Hc & Htr & Hf).
      destruct (write_group_spec _ _ _ _ Ew) as (Hp1 & ev & Htr1 & Hw).
      split.
      * rewrite Hp, Hp1, Ht, map_app, app_assoc. reflexivity.
      * exists (group :: groups), (ev :: writes). split; [|split].
        -- simpl. rewrite Hc, Ht. reflexivity.
        -- rewrite Htr, Htr1, <- app_assoc. reflexivity.
        -- constructor; assumption.
    + intros H; inversion H; subst.
      assert (Ht : triplets fp = []).
      { unfold read_next_group in E.
        destruct (first_triplet fp) as [[[[x y] z] fp1]|] eqn:E1.
        - destruct (same_y y fp1 [(x, y, z)]); discriminate.
        - clear -E1. induction fp as [|l fp IHfp]; [reflexivity|].
          simpl in *. destruct l; try (apply IHfp; exact E1). discriminate. }
      rewrite Ht. simpl. rewrite app_nil_r. split; [reflexivity|].
      exists [], []. rewrite app_nil_r. repeat split. constructor.
Qed.

(** A line of the sampled verification shows the stored coordinates of the
    point it checks, each plus one. *)
Definition shows (pts : list point_t) (idx : Z) (l : sample) : Prop :=
  exists pt,
    pts !! Z.to_nat idx = Some pt
    /\ shown_a l = u64 (a pt + 1)
    /\ shown_b l = u64 (b pt + 1)
    /\ expected l = c pt.

Lemma verify_samples_printed get pts n :
  forall g v g' v',
    verify_samples get pts n g v = Some (g', v') ->
    exists idxs lines,
      checked v' = checked v ++ idxs
      /\ printed v' = printed v ++ lines
      /\ Forall2 (shows pts) idxs lines.
Proof.
  induction n as [|n IH]; intros g v g' v'; cbn [verify_samples].
  - intros H; inversion H; subst. exists [], [].
    rewrite !app_nil_r. repeat split. constructor.
  - destruct (rand g) as [r g1]. destruct (_ =? 0); [discriminate|].
    destruct (pts !! _) as [pt|] eqn:Ept; [|discriminate].
    intros H. apply IH in H. destruct H as (idxs & lines & Hc & Hp & Hf).
    simpl in Hc, Hp.
    eexists (_ :: idxs), (_ :: lines). split; [|split].
    + rewrite Hc, <- app_assoc. reflexivity.
    + rewrite Hp, <- app_assoc. reflexivity.
    + constructor; [|exact Hf]. exists pt. repeat split. exact Ept.
Qed.

Lemma decrement_one_based (t : point_t) :
  1 <= a t < 2 ^ 64 -> 1 <= b t < 2 ^ 64 ->
  decrement t = (a t - 1, b t - 1, c t)
  /\ u64 (a (decrement t) + 1) = a t
  /\ u64 (b (decrement t) + 1) = b t.
Proof.
  intros Ha Hb. destruct t as [[x y] z]. unfold decrement, a, b, c in *.
  simpl in *. unfold u64.
  rewrite (Z.mod_small (x - 1)), (Z.mod_small (y - 1)) by lia.
  replace (x - 1 + 1) with x by lia. replace (y - 1 + 1) with y by lia.
  rewrite !Z.mod_small by lia. repeat split.
Qed.

(** C10: when the write loop has stored the file [fp] and the sampled
    verification has run on the stored points, (1) the stored points are
    the triplets of the file in their order, with [a] and [b] decremented;
    (2) for a triplet with [a >= 1] and [b >= 1] the stored coordinates
    are [a - 1] and [b - 1], and adding one gives [a] and [b] back; (3)
    the triplets are written group by group, each write selecting exactly
    the decremented coordinates of its group; (4) every line the sampled
    verification prints shows the stored coordinates of the checked
    point, each plus one. *)
Theorem one_based_coordinates
    (dims : list Z) (fp : list line) (s0 s : ingest)
    (get : reader) (n : nat) (g g' : rng) (v0 v : verification) :
  write_groups dims fp s0 = Some s ->
  verify_samples get (points s) n g v0 = Some (g', v) ->
  points s = points s0 ++ map decrement (triplets fp)
  /\ (forall t, t ∈ triplets fp ->
        1 <= a t < 2 ^ 64 -> 1 <= b t < 2 ^ 64 ->
        decrement t = (a t - 1, b t - 1, c t)
        /\ u64 (a (decrement t) + 1) = a t
        /\ u64 (b (decrement t) + 1) = b t)
  /\ (exists groups writes,
        concat groups = triplets fp
        /\ trace s = trace s0 ++ writes
        /\ Forall2 written groups writes)
  /\ (exists idxs lines,
        checked v = checked v0 ++ idxs
        /\ printed v = printed v0 ++ lines
        /\ Forall2 (shows (points s)) idxs lines).
Proof.
  intros Hw Hv.
  destruct (write_groups_spec dims (length fp) fp s0 s (le_n _) Hw) as [Hp Hg].
  split; [exact Hp|]. split; [|split; [exact Hg|]].
  - intros t _. apply decrement_one_based.
  - eapply verify_samples_printed; eauto.
Qed.

End OneBased.

Lemma one_based_coordinates_witness :
let fp := [Mm2h5.triplet 1 2 7; Mm2h5.blank; Mm2h5.triplet 3 2 8] in
let s0 := {| Mm2h5.points := []; Mm2h5.cap_points := 0;
             Mm2h5.group_count := 0; Mm2h5.trace := [] |} in
let s := {| Mm2h5.points := [(0, 1, 7); (2, 1, 8)];
            Mm2h5.cap_points := 4;
            Mm2h5.group_count := 1;
            Mm2h5.trace :=
              [H5.H5Dwrite "data" (Some [2])
                 (Some [{| H5S.offset := [0; 1]; H5S.extent := [1; 1] |};
                        {| H5S.offset := [2; 1]; H5S.extent := [1; 1] |}])
                 [7; 8]] |} in
let v0 := {| Mm2h5.checked := []; Mm2h5.mismatches := 0;
             Mm2h5.printed := [] |} in
let v := {| Mm2h5.checked := [1; 0];
            Mm2h5.mismatches := 1;
            Mm2h5.printed :=
              [{| Mm2h5.shown_a := 3; Mm2h5.shown_b := 2;
                  Mm2h5.expected := 8; Mm2h5.read := 7; Mm2h5.ok := false |};
               {| Mm2h5.shown_a := 1; Mm2h5.shown_b := 2;
                  Mm2h5.expected := 7; Mm2h5.read := 7; Mm2h5.ok := true |}] |} in
let g' := {| Rng.stream := Rng.stream sample_generator; Rng.calls := 2 |} in
Mm2h5.write_groups [4; 4] fp s0 = Some s
/\ Mm2h5.verify_samples (fun _ _ => 7) (Mm2h5.points s) 2 sample_generator v0
   = Some (g', v)
/\ Mm2h5.points s = Mm2h5.points s0 ++ map Mm2h5.decrement (triplets fp).
Proof.
intros fp s0 s v0 v g'.
assert (H1 : Mm2h5.write_groups [4; 4] fp s0 = Some s)
  by (vm_compute; reflexivity).
assert (H2 : Mm2h5.verify_samples (fun _ _ => 7) (Mm2h5.points s) 2
               sample_generator v0 = Some (g', v))
  by (vm_compute; reflexivity).
split; [exact H1|]. split; [exact H2|].
exact (proj1 (one_based_coordinates [4; 4] fp s0 s (fun _ _ => 7) 2
                sample_generator g' v0 v H1 H2)).
Defined.

(** ** The verification of [mm2h5.c] *)

Section Verification.
Import C Rng H5 Mm2h5.












End Verification.

Section VerificationReport.
Import C Rng H5 Mm2h5.











End VerificationReport.

(** ** The selection codec *)

Section CodecRoundTrip.
Import H5S Codec.

Lemma le_bytes_length n z : length (le_bytes n z) = n.
Proof. revert z; induction n as [|n IH]; intros z; simpl; [|rewrite IH]; reflexivity. Qed.

Lemma le_value_bytes n z :
  0 <= z -> le_value (le_bytes n z) = z mod 256 ^ Z.of_nat n.
Proof.
  revert z; induction n as [|n IH]; intros z Hz.
  - simpl. rewrite Z.mod_1_r. reflexivity.
  - cbn [le_bytes le_value]. rewrite IH by (apply Z.div_pos; lia).
    rewrite Nat2Z.inj_succ, Z.pow_succ_r by lia.
    rewrite (Z.mul_comm 256), Z.rem_mul_r by lia. lia.
Qed.

Lemma get64_put64 z rest :
  0 <= z < 2 ^ 64 -> get64 (put64 z ++ rest) = Some (z, rest).
Proof.
  intros Hz. unfold get64, put64.
  rewrite length_app, le_bytes_length.
  replace (8 + length rest <? 8)%nat with false
    by (symmetry; apply Nat.ltb_ge; lia).
  rewrite take_app_length' by (symmetry; apply le_bytes_length).
  rewrite drop_app_length' by (symmetry; apply le_bytes_length).
  rewrite le_value_bytes by lia.
  change (256 ^ Z.of_nat 8) with (2 ^ 64). rewrite Z.mod_small by lia.
  reflexivity.
Qed.

Lemma get_put_coordinate c rest :
  Forall (fun z => 0 <= z < 2 ^ 64) c ->
  get_coordinate (length c) (put_coordinate c ++ rest) = Some (c, rest).
Proof.
  induction 1 as [|z c Hz _ IH]; [reflexivity|].
  unfold put_coordinate in *. cbn [length flat_map get_coordinate].
  rewrite <- app_assoc, get64_put64 by exact Hz. rewrite IH. reflexivity.
Qed.

Lemma get_put_blocks r bs rest :
  Forall (block_ok r) bs ->
  get_blocks r (length bs) (flat_map put_block bs ++ rest) = Some (bs, rest).
Proof.
  induction 1 as [|b bs [[Hlo Ho] [Hle He]] _ IH]; [reflexivity|].
  cbn [length flat_map get_blocks]. unfold put_block at 1.
  rewrite <- !app_assoc.
  rewrite <- Hlo at 1. rewrite get_put_coordinate by exact Ho.
  rewrite <- Hle at 1. rewrite get_put_coordinate by exact He.
  rewrite IH. destruct b; reflexivity.
Qed.

Lemma decode_encode (s : Selection) :
  canonical s -> decode (encode s) = Some s.
Proof.
  intros (Hr & Hn & Hb & _). unfold decode, encode.
  change (VERSION =? VERSION) with true. cbv iota.
  rewrite get64_put64 by lia. rewrite get64_put64 by lia.
  rewrite !Nat2Z.id.
  rewrite <- (app_nil_r (flat_map put_block (blocks s))).
  rewrite get_put_blocks by exact Hb. destruct s; reflexivity.
Qed.

(** C1: for a canonical selection [s], decoding its encoding gives [s]
    back, hence the same points in the same enumeration order, and encoding
    the decoded selection gives the same bytes again; and for a dataspace
    whose selection is [s], the buffer [create_encoded_dspace] writes to the
    dataset "selection" (and to "selection_comp") is the encoding of [s] and
    decodes to [s]. *)
Theorem selection_round_trip (s : Selection) :
  canonical s ->
  decode (encode s) = Some s
  /\ (forall s', decode (encode s) = Some s' ->
        enumerate s' = enumerate s
        /\ (forall co, co ∈ enumerate s' <-> co ∈ enumerate s)
        /\ encode s' = encode s)
  /\ (forall size_of dataspace index st,
        selection_of dataspace = s ->
        exists buf dims,
          (Sparse.create_encoded_dspace size_of dataspace index st).1
          = [H5.H5Dcreate2 Sparse.SELECTION_DSET_NAME dims None;
             H5.H5Dcreate2 Sparse.SELECTION_DSET_COMPRESSED_NAME dims (Some 9);
             H5.H5Dwrite Sparse.SELECTION_DSET_NAME None None buf;
             H5.H5Dwrite Sparse.SELECTION_DSET_COMPRESSED_NAME None None buf]
          /\ buf = encode s
          /\ decode buf = Some s).
Proof.
  intros Hs. pose proof (decode_encode s Hs) as Hd.
  split; [exact Hd|]. split.
  - intros s' Hs'. rewrite Hd in Hs'. inversion Hs'; subst. repeat split; auto.
  - intros size_of dataspace index st <-.
    eexists _, _. split; [reflexivity|]. split; [reflexivity | exact Hd].
Qed.

Lemma selection_round_trip_witness :
  let s := {| rank := 2;
              blocks := [{| offset := [1; 2]; extent := [2; 3] |};
                         {| offset := [7; 7]; extent := [1; 1] |}] |} in
  decode (encode s) = Some s
  /\ enumerate s = [[1; 2]; [1; 3]; [1; 4]; [2; 2]; [2; 3]; [2; 4]; [7; 7]].
Proof.
  intros s. split; [|reflexivity].
  apply (selection_round_trip s).
  unfold canonical. split; [simpl; lia|]. split; [simpl; lia|]. split.
  - repeat constructor; simpl; lia.
  - apply (bool_decide_unpack _). vm_compute. reflexivity.
Defined.

End CodecRoundTrip.

(** ** The scattered topology of [sparse.c] *)

Section Scattered.
Import C Rng Sparse H5S.

(** The coordinates one row contributes: for the [k]-th of [n] iterations
    that start at bucket [j] and at call [c0] of the generator, the column
    [rand() % sections] of bucket [j + k]. *)
Definition row_points (sections i : Z) (n : nat) (j : Z)
    (s : nat -> Z) (c0 : nat) : list Coordinate :=
  map (fun k => [i; (j + Z.of_nat k) * sections + s (c0 + k)%nat mod sections])
      (seq 0 n).

(** The coordinates of [rows] rows of [ns] buckets each. *)
Definition grid (sections : Z) (ns rows : nat) (i : Z)
    (s : nat -> Z) (c0 : nat) : list Coordinate :=
  flat_map (fun r => row_points sections (i + Z.of_nat r) ns 0 s (c0 + r * ns))
           (seq 0 rows).

(** A coordinate that lies before column [bound] of row [i], in row-major
    order. *)
Definition before (i bound : Z) (co : Coordinate) : Prop :=
  exists r col, co = [r; col] /\ (r < i \/ (r = i /\ col < bound)).

Lemma row_points_S sections i n j s c0 :
  row_points sections i (S n) j s c0
  = [i; j * sections + s c0 mod sections]
      :: row_points sections i n (j + 1) s (S c0).
Proof.
  unfold row_points. cbn [seq map]. f_equal.
  - rewrite Z.add_0_r, Nat.add_0_r. reflexivity.
  - rewrite <- seq_shift, map_map. apply map_ext. intros k.
    rewrite Nat2Z.inj_succ.
    replace (c0 + S k)%nat with (S c0 + k)%nat by lia.
    replace (j + Z.succ (Z.of_nat k)) with (j + 1 + Z.of_nat k) by lia.
    reflexivity.
Qed.

Lemma scattered_row_or sections i :
  0 < sections -> 0 <= i <= INT_MAX ->
  forall n j g ds nel,
    0 < i \/ 0 < j -> 0 <= j ->
    (j + Z.of_nat n) * sections < 2 ^ 63 ->
    in_range g -> 0 <= nel -> nel + Z.of_nat n < 2 ^ 64 ->
    NoDup (points (sel ds)) ->
    (forall co, co ∈ points (sel ds) -> before i (j * sections) co) ->
    exists g' ds',
      scattered_row sections i n j (g, ds, nel)
      = Some (g', ds', nel + Z.of_nat n)
      /\ stream g' = stream g /\ calls g' = (calls g + n)%nat
      /\ points (sel ds')
         = points (sel ds) ++ row_points sections i n j (stream g) (calls g)
      /\ NoDup (points (sel ds'))
      /\ (forall co, co ∈ points (sel ds') ->
            before i ((j + Z.of_nat n) * sections) co).
Proof.
  intros Hsec Hi.
  induction n as [|n IH]; intros j g ds nel Hij Hj Hbound Hg Hnel Hsum Hnd Hbefore.
  - exists g, ds. cbn [scattered_row]. unfold row_points; simpl.
    rewrite Z.add_0_r, app_nil_r, Nat.add_0_r.
    repeat split; try assumption.
    intros co Hco. rewrite Z.add_0_r. auto.
  - cbn [scattered_row]. unfold rand.
    replace (sections =? 0) with false by lia.
    pose proof (Hg (calls g)) as Hr. set (r := stream g (calls g)) in *.
    assert (Hmod : 0 <= r mod sections < sections) by (apply Z.mod_pos_bound; lia).
    unfold INT_MAX, RAND_MAX in *.
    assert (Hu1 : u64 i = i) by (unfold u64; apply Z.mod_small; lia).
    assert (Hu2 : u64 j = j) by (unfold u64; apply Z.mod_small; nia).
    assert (Hu3 : u64 r = r) by (unfold u64; apply Z.mod_small; lia).
    rewrite Hu1, Hu2, Hu3.
    set (col := j * sections + r mod sections).
    assert (Hcol : j * sections <= col < (j + 1) * sections) by (unfold col; lia).
    assert (Hu4 : u64 col = col) by (unfold u64; apply Z.mod_small; nia).
    rewrite Hu4.
    replace ((i =? 0) && (j =? 0)) with false
      by (symmetry; apply andb_false_iff; lia).
    assert (Hfresh : selected (sel ds) [i; col] = false).
    { apply selected_false. intros Hin. apply Hbefore in Hin.
      destruct Hin as (r0 & c0 & Heq & Hlt). inversion Heq; subst r0 c0. lia. }
    set (ds1 := H5Sselect_hyperslab H5S_SELECT_OR [i; col] [1; 1] ds).
    assert (Hsel1 : points (sel ds1) = points (sel ds) ++ [[i; col]]).
    { unfold ds1, H5Sselect_hyperslab. cbn [sel].
      rewrite select_or_fresh by exact Hfresh.
      rewrite points_app, points_unit. reflexivity. }
    assert (Hu5 : u64 (nel + 1) = nel + 1) by (unfold u64; apply Z.mod_small; lia).
    rewrite Hu5.
    set (g1 := {| stream := stream g; calls := S (calls g) |}).
    destruct (IH (j + 1) g1 ds1 (nel + 1)) as (g' & ds' & E & Hs & Hc & Hp & Hnd' & Hb');
      try lia.
    + exact Hg.
    + rewrite Hsel1. apply NoDup_app. split; [exact Hnd|]. split.
      * intros co Hco Hco'. apply list_elem_of_singleton in Hco'. subst co.
        apply selected_false in Hfresh. contradiction.
      * apply NoDup_singleton.
    + intros co. rewrite Hsel1, elem_of_app, list_elem_of_singleton.
      intros [Hco | ->].
      * apply Hbefore in Hco. destruct Hco as (r0 & c0 & Heq & Hlt).
        exists r0, c0. split; [exact Heq|]. nia.
      * exists i, col. split; [reflexivity|]. lia.
    + exists g', ds'. rewrite E. split; [f_equal; f_equal; lia|].
      split; [exact Hs|]. split; [rewrite Hc; simpl; lia|].
      split; [|split; [exact Hnd'|]].
      * rewrite Hp, Hsel1, row_points_S, <- app_assoc. reflexivity.
      * intros co Hco. apply Hb' in Hco.
        replace (j + Z.of_nat (S n)) with (j + 1 + Z.of_nat n) by lia. exact Hco.
Qed.

Lemma grid_S sections ns rows i s c0 :
  grid sections ns (S rows) i s c0
  = row_points sections i ns 0 s c0
      ++ grid sections ns rows (i + 1) s (c0 + ns).
Proof.
  unfold grid. cbn [seq flat_map]. f_equal.
  - rewrite Z.add_0_r. f_equal. lia.
  - rewrite <- seq_shift, flat_map_concat_map, map_map,
      <- flat_map_concat_map.
    apply flat_map_ext. intros r.
    replace (i + Z.of_nat (S r)) with (i + 1 + Z.of_nat r) by lia.
    replace (c0 + S r * ns)%nat with (c0 + ns + r * ns)%nat by lia.
    reflexivity.
Qed.

Lemma scattered_rows_or sections ns :
  0 < sections -> 0 <= ns <= INT_MAX -> ns * sections < 2 ^ 63 ->
  forall n i g ds nel,
    0 < i -> i + Z.of_nat n <= INT_MAX + 1 ->
    in_range g -> 0 <= nel -> nel + Z.of_nat n * ns < 2 ^ 64 ->
    NoDup (points (sel ds)) ->
    (forall co, co ∈ points (sel ds) -> before i 0 co) ->
    exists g' ds',
      scattered_rows ns sections n i (g, ds, nel)
      = Some (g', ds', nel + Z.of_nat n * ns)
      /\ stream g' = stream g
      /\ points (sel ds')
         = points (sel ds)
             ++ grid sections (Z.to_nat ns) n i (stream g) (calls g)
      /\ NoDup (points (sel ds')).
Proof.
  intros Hsec Hns Hbound.
  induction n as [|n IH]; intros i g ds nel Hi Hrows Hg Hnel Hsum Hnd Hbefore.
  - exists g, ds. cbn [scattered_rows]. unfold grid; simpl.
    rewrite app_nil_r, Z.add_0_r. repeat split; assumption.
  - cbn [scattered_rows].
    replace (INT_MAX <? ns) with false by lia.
    destruct (scattered_row_or sections i Hsec ltac:(lia)
                (Z.to_nat ns) 0 g ds nel)
      as (g1 & ds1 & E & Hs1 & Hc1 & Hp1 & Hnd1 & Hb1);
      try assumption; try lia; try (rewrite Z2Nat.id by lia; nia).
    rewrite E. rewrite Z2Nat.id in * by lia.
    assert (Hg1 : in_range g1) by (intros k; rewrite Hs1; apply Hg).
    destruct (IH (i + 1) g1 ds1 (nel + ns))
      as (g' & ds' & E' & Hs' & Hp' & Hnd'); try assumption; try lia.
    { intros co Hco. apply Hb1 in Hco. destruct Hco as (r & col & Heq & Hlt).
      exists r, col. split; [exact Heq | lia]. }
    exists g', ds'. rewrite E'.
    split; [f_equal; f_equal; lia|]. split; [congruence|].
    split; [|exact Hnd'].
    rewrite Hp', Hp1, Hs1, Hc1, grid_S, <- app_assoc. reflexivity.
Qed.

(** Without a bucket the loops select nothing. *)
Lemma scattered_rows_none sections n i st :
  scattered_rows 0 sections n i st = Some st.
Proof.
  revert i st; induction n as [|n IH]; intros i st; cbn [scattered_rows];
    [reflexivity|].
  change (INT_MAX <? 0) with false. cbv iota.
  change (Z.to_nat 0) with 0%nat. cbn [scattered_row]. apply IH.
Qed.

Lemma row_points_elem sections i n j s c0 co :
  co ∈ row_points sections i n j s c0
  <-> exists k, (k < n)%nat
        /\ co = [i; (j + Z.of_nat k) * sections + s (c0 + k)%nat mod sections].
Proof.
  unfold row_points. rewrite list_elem_of_fmap. split.
  - intros (k & -> & Hk). apply list_elem_of_In, in_seq in Hk.
    exists k. split; [lia | reflexivity].
  - intros (k & Hk & ->). exists k. split; [reflexivity|].
    apply list_elem_of_In, in_seq. lia.
Qed.

Lemma grid_elem sections ns rows i s c0 co :
  co ∈ grid sections ns rows i s c0
  <-> exists r k, (r < rows)%nat /\ (k < ns)%nat
        /\ co = [i + Z.of_nat r;
                 Z.of_nat k * sections
                 + s (c0 + r * ns + k)%nat mod sections].
Proof.
  unfold grid. rewrite list_elem_of_In, in_flat_map. split.
  - intros (r & Hr & Hco). apply in_seq in Hr.
    apply list_elem_of_In, row_points_elem in Hco.
    destruct Hco as (k & Hk & ->). exists r, k.
    split; [lia|]. split; [exact Hk|]. simpl. reflexivity.
  - intros (r & k & Hr & Hk & ->). exists r. split; [apply in_seq; lia|].
    apply list_elem_of_In, row_points_elem. exists k.
    split; [exact Hk | reflexivity].
Qed.

Lemma grid_length sections ns rows i s c0 :
  length (grid sections ns rows i s c0) = (rows * ns)%nat.
Proof.
  revert i c0; induction rows as [|rows IH]; intros i c0; [reflexivity|].
  rewrite grid_S, length_app, IH. unfold row_points.
  rewrite length_map, length_seq. lia.
Qed.

Lemma buckets_fit (cols p : Z) :
  0 <= cols -> 1 <= p ->
  (cols * p / 100) * (100 / p) <= cols.
Proof.
  intros Hc Hp.
  pose proof (Z.mul_div_le (cols * p) 100 ltac:(lia)) as H1.
  pose proof (Z.mul_div_le 100 p ltac:(lia)) as H2.
  assert (H3 : 0 <= cols * p / 100) by (apply Z.div_pos; nia).
  assert (H4 : 0 <= 100 / p) by (apply Z.div_pos; lia).
  assert (H5 : p * ((cols * p / 100) * (100 / p)) <= p * cols) by nia.
  nia.
Qed.

(** C2, as the spec states it, fails.  On a chunk of 20 by 20 at 1% no
    bucket fits ([20 * 1 / 100] is 0): [create_hyperslab] makes no call and
    returns 0, and the new dataspace it was handed still has its 400 points
    selected.  With [-c 2097152x1] the chunk has [2^31] rows, one more than
    the [int] counter of the row loop can count; with [-c 1x209715200] a
    row has [2^31] buckets at 1%, one more than the [int] counter of the
    bucket loop can count: in both runs the counter overflows, and the
    behaviour of the program is undefined. *)
Lemma scattered_count_fails :
  create_hyperslab
    {| chunk_dim1 := 20; chunk_dim2 := 20; space_select := 1;
       max_percent := 10; d := 1; v := 0 |} 1 sample_generator
    (H5Screate_simple [20; 20])
  = Some (0, sample_generator, H5Screate_simple [20; 20])
  /\ H5Sget_select_npoints (H5Screate_simple [20; 20]) = 400
  /\ parse_command_line [opt_c 2097152 1]
     = Return {| chunk_dim1 := INT_MAX + 1; chunk_dim2 := 1024;
                 space_select := 1; max_percent := 10; d := 1; v := 0 |}
  /\ (forall size_of g, main size_of [opt_c 2097152 1] g = None)
  /\ parse_command_line [opt_c 1 209715200]
     = Return {| chunk_dim1 := 1024; chunk_dim2 := 100 * (INT_MAX + 1);
                 space_select := 1; max_percent := 10; d := 1; v := 0 |}
  /\ (forall size_of g, main size_of [opt_c 1 209715200] g = None).
Proof.
  split; [reflexivity|]. split; [reflexivity|].
  split; [reflexivity|]. split; [intros size_of g; reflexivity|].
  split; [reflexivity|]. intros size_of g. reflexivity.
Qed.

(** C2 (amended): in the first topology, for a chunk of [rows >= 1] by
    [cols >= 1] whose number of rows and whose number of buckets per row,
    [cols * p / 100], are within the range of the [int] loop counters, and
    a density [p] in [1,20], [create_hyperslab] returns
    [rows * (cols * p / 100)]; the dataspace then holds exactly this number
    of points, pairwise distinct: for every row [r] and every bucket
    [k < cols * p / 100] the point of column
    [k * sections + rand() % sections], which lies in the bucket
    [k * sections .. (k + 1) * sections - 1] of width [sections = 100 / p]
    and inside the chunk.  This is so when at least one bucket fits
    ([cols * p >= 100]); when none fits the function returns 0, makes no
    call and leaves the dataspace as it was, with whatever it had
    selected. *)
Theorem scattered_point_count
    (hand : handler_t) (p : Z) (g : rng) (ds : dataspace) :
  space_select hand = 1 ->
  1 <= chunk_dim1 hand <= INT_MAX ->
  1 <= chunk_dim2 hand ->
  chunk_dim2 hand * p / 100 <= INT_MAX ->
  1 <= p <= 20 ->
  in_range g ->
  let rows := chunk_dim1 hand in
  let ns := chunk_dim2 hand * p / 100 in
  let sections := 100 / p in
  let column := fun r k : nat =>
    Z.of_nat k * sections
    + stream g (calls g + r * Z.to_nat ns + k)%nat mod sections in
  exists g' ds',
    create_hyperslab hand p g ds = Some (rows * ns, g', ds')
    /\ (1 <= ns <-> 100 <= chunk_dim2 hand * p)
    /\ (ns = 0 -> g' = g /\ ds' = ds)
    /\ (1 <= ns ->
        H5Sget_select_npoints ds' = rows * ns
        /\ NoDup (points (sel ds'))
        /\ (forall co,
              co ∈ points (sel ds')
              <-> exists r k : nat,
                    Z.of_nat r < rows /\ Z.of_nat k < ns
                    /\ co = [Z.of_nat r; column r k]))
    /\ (forall r k : nat,
          Z.of_nat k < ns ->
          Z.of_nat k * sections <= column r k < (Z.of_nat k + 1) * sections
          /\ column r k < chunk_dim2 hand).
Proof.
  intros Hsel Hrows Hcols Hns31 Hp Hg rows ns sections column.
  fold ns in Hns31. unfold INT_MAX in *.
  assert (Hprod : 0 <= chunk_dim2 hand * p < 100 * 2 ^ 31).
  { split; [nia|].
    pose proof (Z.mul_succ_div_gt (chunk_dim2 hand * p) 100 ltac:(lia)) as H.
    fold ns in H. lia. }
  assert (Hsec : 5 <= sections <= 100).
  { unfold sections. split.
    - apply Z.div_le_lower_bound; lia.
    - apply Z.div_le_upper_bound; lia. }
  assert (Hns : 0 <= ns) by (unfold ns; apply Z.div_pos; nia).
  assert (Hfit : ns * sections <= chunk_dim2 hand)
    by (apply buckets_fit; lia).
  assert (Hnsle : ns <= chunk_dim2 hand) by nia.
  assert (Hbuckets : forall r k : nat,
            Z.of_nat k < ns ->
            Z.of_nat k * sections <= column r k < (Z.of_nat k + 1) * sections
            /\ column r k < chunk_dim2 hand).
  { intros r k Hk. unfold column.
    pose proof (Z.mod_pos_bound
                  (stream g (calls g + r * Z.to_nat ns + k)%nat) sections
                  ltac:(lia)).
    split; [lia | nia]. }
  assert (Hgrid : forall co,
            co ∈ grid sections (Z.to_nat ns) (Z.to_nat rows) 0
                      (stream g) (calls g)
            <-> exists r k : nat,
                  Z.of_nat r < rows /\ Z.of_nat k < ns
                  /\ co = [Z.of_nat r; column r k]).
  { intros co. rewrite grid_elem. unfold column.
    split; intros (r & k & Hr & Hk & ->); exists r, k;
      (split; [lia|]); (split; [lia|]); rewrite ?Z.add_0_l; reflexivity. }
  assert (Hone : 1 <= ns <-> 100 <= chunk_dim2 hand * p).
  { unfold ns. split; intros H.
    - destruct (Z.lt_ge_cases (chunk_dim2 hand * p) 100) as [Hlt | Hge];
        [|exact Hge].
      rewrite Z.div_small in H by lia. lia.
    - apply Z.div_le_lower_bound; lia. }
  unfold create_hyperslab.
  replace (p =? 0) with false by lia.
  rewrite Hsel. change (1 =? 1) with true. cbv iota.
  replace (INT_MAX <? chunk_dim1 hand) with false by (unfold INT_MAX; lia).
  assert (Hnum : u64 (Z.quot (s64 (chunk_dim2 hand * p)) 100) = ns).
  { unfold s64. rewrite (Z.mod_small (_ + _)) by lia.
    replace (chunk_dim2 hand * p + 2 ^ 63 - 2 ^ 63)
      with (chunk_dim2 hand * p) by lia.
    rewrite Z.quot_div_nonneg by lia.
    unfold u64. apply Z.mod_small. fold ns. lia. }
  assert (Hsections : u64 (Z.quot 100 p) = sections).
  { rewrite Z.quot_div_nonneg by lia. unfold u64. apply Z.mod_small.
    fold sections. lia. }
  rewrite Hnum, Hsections.
  destruct (Z.eq_dec ns 0) as [Hzero | Hpos].
  - (* no bucket *)
    assert (Hrun : scattered_rows ns sections (Z.to_nat (chunk_dim1 hand)) 0
                     (g, ds, 0) = Some (g, ds, 0))
      by (rewrite Hzero; apply scattered_rows_none).
    rewrite Hrun.
    exists g, ds. split; [f_equal; f_equal; f_equal; lia|].
    split; [exact Hone|]. split; [intros _; split; reflexivity|].
    split; [intros H; lia | exact Hbuckets].
  - (* at least one bucket: the first point sets the selection *)
    change (chunk_dim1 hand) with rows.
    destruct (Z.to_nat rows) as [|n] eqn:En; [lia|].
    cbn [scattered_rows].
    replace (INT_MAX <? ns) with false by (unfold INT_MAX; lia).
    destruct (Z.to_nat ns) as [|m] eqn:Em; [lia|].
    cbn [scattered_row]. unfold rand.
    replace (sections =? 0) with false by lia.
    change ((0 =? 0) && (0 =? 0)) with true. cbv iota.
    pose proof (Hg (calls g)) as Hr. unfold RAND_MAX in Hr.
    set (r0 := stream g (calls g)) in *.
    assert (Hmod : 0 <= r0 mod sections < sections)
      by (apply Z.mod_pos_bound; lia).
    assert (Hcol0 : u64 (u64 0 * sections + u64 r0 mod sections)
                    = r0 mod sections).
    { change (u64 0) with 0. rewrite Z.mul_0_l, Z.add_0_l.
      unfold u64. rewrite (Z.mod_small r0) by lia.
      apply Z.mod_small. lia. }
    rewrite Hcol0. change (u64 0) with 0. change (u64 (0 + 1)) with 1.
    change (0 + 1) with 1.
    set (ds1 := H5Sselect_hyperslab H5S_SELECT_SET [0; r0 mod sections]
                  [1; 1] ds).
    assert (Hp1 : points (sel ds1) = [[0; r0 mod sections]]).
    { unfold ds1, H5Sselect_hyperslab. cbn [sel].
      rewrite select_set_unit, points_unit. reflexivity. }
    set (g1 := {| stream := stream g; calls := S (calls g) |}).
    destruct (scattered_row_or sections 0 ltac:(lia) ltac:(unfold INT_MAX; lia)
                m 1 g1 ds1 1)
      as (g2 & ds2 & E2 & Hs2 & Hc2 & Hp2 & Hnd2 & Hb2);
      try lia; try exact Hg.
    { unfold INT_MAX. nia. }
    { rewrite Hp1. apply NoDup_singleton. }
    { intros co. rewrite Hp1, list_elem_of_singleton. intros ->.
      exists 0, (r0 mod sections). split; [reflexivity | lia]. }
    rewrite E2.
    assert (Hg2 : in_range g2) by (intros k; rewrite Hs2; apply Hg).
    destruct (scattered_rows_or sections ns ltac:(lia)
                ltac:(unfold INT_MAX; lia) ltac:(nia)
                n 1 g2 ds2 (1 + Z.of_nat m))
      as (g3 & ds3 & E3 & Hs3 & Hp3 & Hnd3);
      try lia; try assumption.
    { unfold INT_MAX. lia. }
    { nia. }
    { intros co Hco. apply Hb2 in Hco. destruct Hco as (r & col & Heq & Hlt).
      exists r, col. split; [exact Heq | lia]. }
    rewrite E3. exists g3, ds3.
    assert (Hpoints : points (sel ds3)
                      = grid sections (Z.to_nat ns) (Z.to_nat rows) 0
                             (stream g) (calls g)).
    { rewrite Hp3, Hp2, Hp1, Hs2, Hc2, En, Em, grid_S, row_points_S.
      cbn [stream calls g1]. rewrite Z.mul_0_l, Z.add_0_l.
      change (0 + 1) with 1. fold r0.
      replace (S (calls g) + m)%nat with (calls g + S m)%nat by lia.
      reflexivity. }
    split; [f_equal; f_equal; f_equal; nia|].
    split; [exact Hone|]. split; [intros H; lia|].
    split; [|exact Hbuckets]. intros _.
    split.
    { unfold H5Sget_select_npoints. rewrite Hpoints, grid_length. nia. }
    split; [exact Hnd3|].
    intros co. rewrite Hpoints, En, Em. apply Hgrid.
Qed.

Lemma scattered_point_count_witness :
  exists g' ds',
    create_hyperslab
      {| chunk_dim1 := 20; chunk_dim2 := 20; space_select := 1;
         max_percent := 10; d := 1; v := 0 |} 10 sample_generator
      (H5Screate_simple [20; 20]) = Some (40, g', ds')
    /\ H5Sget_select_npoints ds' = 40.
Proof.
  destruct (scattered_point_count
              {| chunk_dim1 := 20; chunk_dim2 := 20; space_select := 1;
                 max_percent := 10; d := 1; v := 0 |} 10 sample_generator
              (H5Screate_simple [20; 20]))
    as (g' & ds' & E & _ & _ & Hn & _);
    [reflexivity | unfold INT_MAX; simpl; lia | simpl; lia
    | unfold INT_MAX; cbn [chunk_dim2]; change (20 * 10 / 100) with 2; lia
    | lia | exact sample_generator_in_range |].
  exists g', ds'. split; [exact E|].
  apply Hn. cbn [chunk_dim2]. change (20 * 10 / 100) with 2. lia.
Defined.

End Scattered.

(** ** Rounding of binary64 operations

    Bounds on what [binary_round_aux] returns, in integers: the result
    [m * 2^e] of rounding [mx * 2^ex] is within one unit in the last place
    of it. *)

Section DoubleRounding.
Import Double.

Ltac hide_pow :=
  repeat match goal with
         | |- context [2 ^ ?e] =>
             let x := fresh "pw" in
             pose proof (Z.pow_nonneg 2 e ltac:(lia));
             set (x := 2 ^ e) in *; clearbody x
         | H : context [2 ^ ?e] |- _ =>
             let x := fresh "pw" in
             pose proof (Z.pow_nonneg 2 e ltac:(lia));
             set (x := 2 ^ e) in *; clearbody x
         end.

Lemma fexp_double e : fexp prec emax e = Z.max (e - 53) (-1074).
Proof. reflexivity. Qed.

Lemma digits2_pos_bounds p :
  2 ^ (Z.pos (digits2_pos p) - 1) <= Z.pos p < 2 ^ Z.pos (digits2_pos p).
Proof.
  induction p as [p IH | p IH |]; cbn [digits2_pos].
  - rewrite Pos2Z.inj_succ. change (Z.pos p~1) with (2 * Z.pos p + 1).
    replace (Z.succ (Z.pos (digits2_pos p)) - 1)
      with (Z.succ (Z.pos (digits2_pos p) - 1)) by lia.
    rewrite !Z.pow_succ_r by lia. hide_pow. lia.
  - rewrite Pos2Z.inj_succ. change (Z.pos p~0) with (2 * Z.pos p).
    replace (Z.succ (Z.pos (digits2_pos p)) - 1)
      with (Z.succ (Z.pos (digits2_pos p) - 1)) by lia.
    rewrite !Z.pow_succ_r by lia. hide_pow. lia.
  - simpl. lia.
Qed.

Lemma Zdigits2_bounds m :
  0 < m -> 1 <= Zdigits2 m /\ 2 ^ (Zdigits2 m - 1) <= m < 2 ^ Zdigits2 m.
Proof.
  destruct m as [|p|p]; try lia. intros _. cbn [Zdigits2].
  split; [lia | apply digits2_pos_bounds].
Qed.

Lemma Zdigits2_nonneg m : 0 <= Zdigits2 m.
Proof. destruct m; simpl; lia. Qed.

Lemma Zdigits2_le m k : 0 <= m -> 0 <= k -> m < 2 ^ k -> Zdigits2 m <= k.
Proof.
  intros Hm0 Hk Hm. destruct (Z.eq_dec m 0) as [-> | Hne]; [simpl; lia|].
  destruct (Zdigits2_bounds m ltac:(lia)) as [_ [Hlo _]].
  destruct (Z_le_gt_dec (Zdigits2 m) k) as [H | H]; [exact H|].
  pose proof (Z.pow_le_mono_r 2 k (Zdigits2 m - 1) ltac:(lia) ltac:(lia)).
  hide_pow. lia.
Qed.

Lemma Zdigits2_gt m k : 0 <= k -> 2 ^ k <= m -> k < Zdigits2 m.
Proof.
  intros Hk Hm.
  assert (Hpos : 0 < m) by (pose proof (Z.pow_pos_nonneg 2 k); lia).
  destruct (Zdigits2_bounds m Hpos) as [_ [_ Hhi]].
  destruct (Z_lt_le_dec k (Zdigits2 m)) as [H | H]; [exact H|].
  pose proof (Z.pow_le_mono_r 2 (Zdigits2 m) k ltac:(lia) H).
  hide_pow. lia.
Qed.

Lemma shr_1_m mrs : 0 <= shr_m mrs -> shr_m (shr_1 mrs) = shr_m mrs / 2.
Proof.
  destruct mrs as [m r s]. cbn [shr_m]. intros Hm.
  rewrite <- Z.div2_div.
  destruct m as [|[p|p|]|p]; try lia; reflexivity.
Qed.

Lemma iter_shr_1_m p :
  forall mrs,
    0 <= shr_m mrs ->
    shr_m (SpecFloat.iter_pos shr_1 p mrs) = shr_m mrs / 2 ^ Z.pos p.
Proof.
  assert (Hnn : forall a k, 0 <= a -> 0 <= a / 2 ^ Z.pos k).
  { intros a k Ha. apply Z.div_pos; [exact Ha | apply Z.pow_pos_nonneg; lia]. }
  assert (Hpp : forall k, 0 < 2 ^ Z.pos k)
    by (intros k; apply Z.pow_pos_nonneg; lia).
  induction p as [p IH | p IH |]; intros mrs Hm; cbn [SpecFloat.iter_pos].
  - rewrite IH; rewrite IH; rewrite ?shr_1_m; try assumption;
      try (apply Z.div_pos; lia);
      try (apply Hnn; rewrite ?shr_1_m by exact Hm; apply Z.div_pos; lia).
    rewrite !Z.div_div by (pose proof (Hpp p); lia).
    f_equal. replace (Z.pos p~1) with (1 + Z.pos p + Z.pos p) by lia.
    rewrite !Z.pow_add_r by lia. change (2 ^ 1) with 2. ring.
  - rewrite IH; rewrite IH; try assumption; try (apply Hnn; exact Hm).
    rewrite !Z.div_div by (pose proof (Hpp p); lia).
    f_equal. replace (Z.pos p~0) with (Z.pos p + Z.pos p) by lia.
    rewrite !Z.pow_add_r by lia. ring.
  - apply shr_1_m. exact Hm.
Qed.

Lemma shr_record_of_loc_m m l : shr_m (shr_record_of_loc m l) = m.
Proof. destruct l as [|[]]; reflexivity. Qed.

(** A shift: the exponent becomes [max e (fexp (digits m + e))] and the
    mantissa is divided accordingly. *)
Lemma shr_fexp_spec m e l :
  0 <= m ->
  let e' := Z.max e (fexp prec emax (Zdigits2 m + e)) in
  snd (shr_fexp prec emax m e l) = e'
  /\ shr_m (fst (shr_fexp prec emax m e l)) = m / 2 ^ (e' - e).
Proof.
  intros Hm e'. unfold shr_fexp, shr. subst e'.
  destruct (fexp prec emax (Zdigits2 m + e) - e) as [|p|p] eqn:E; cbn [fst snd].
  - rewrite shr_record_of_loc_m.
    replace (Z.max e (fexp prec emax (Zdigits2 m + e))) with e by lia.
    rewrite Z.sub_diag, Z.pow_0_r, Z.div_1_r. split; reflexivity.
  - rewrite iter_shr_1_m by (rewrite shr_record_of_loc_m; exact Hm).
    rewrite shr_record_of_loc_m.
    replace (Z.max e (fexp prec emax (Zdigits2 m + e))) with (e + Z.pos p) by lia.
    replace (e + Z.pos p - e) with (Z.pos p) by lia. split; reflexivity.
  - rewrite shr_record_of_loc_m.
    replace (Z.max e (fexp prec emax (Zdigits2 m + e))) with e by lia.
    rewrite Z.sub_diag, Z.pow_0_r, Z.div_1_r. split; reflexivity.
Qed.

Lemma round_nearest_even_bounds m l :
  m <= round_nearest_even m l <= m + 1.
Proof.
  unfold round_nearest_even. destruct l as [|[]]; try lia.
  destruct (Z.even m); lia.
Qed.


Lemma div_pow2_bounds m n :
  0 <= m -> 0 <= n ->
  m / 2 ^ n * 2 ^ n <= m < (m / 2 ^ n + 1) * 2 ^ n.
Proof.
  intros Hm Hn. pose proof (Z.pow_pos_nonneg 2 n ltac:(lia) Hn) as Hp.
  pose proof (Z.div_mod m (2 ^ n) ltac:(lia)) as Hdm.
  pose proof (Z.mod_pos_bound m (2 ^ n) Hp) as Hmod.
  hide_pow. nia.
Qed.

Lemma div_pow2_pos m n :
  0 < m -> 0 <= n -> n <= Zdigits2 m - 1 -> 1 <= m / 2 ^ n.
Proof.
  intros Hm Hn Hd. destruct (Zdigits2_bounds m Hm) as [_ [Hlo _]].
  pose proof (Z.pow_le_mono_r 2 n (Zdigits2 m - 1) ltac:(lia) Hd) as Hle.
  pose proof (Z.pow_pos_nonneg 2 n ltac:(lia) Hn) as Hp.
  apply Z.div_le_lower_bound; [exact Hp|]. hide_pow. lia.
Qed.

(** Rounding of [mx * 2^ex] in the normal range: the result is finite, its
    exponent lies between [ex] and [max ex (digits mx + ex - 52)], and its
    value is within one unit in the last place of [mx * 2^ex]. *)
Lemma binary_round_aux_spec sx mx ex lx :
  0 < mx ->
  -1074 <= Zdigits2 mx + ex - 53 ->
  Z.max ex (Zdigits2 mx + ex - 52) <= 971 ->
  exists m e,
    binary_round_aux prec emax sx mx ex lx = S754_finite sx m e
    /\ ex <= e <= Z.max ex (Zdigits2 mx + ex - 52)
    /\ Zdigits2 (Z.pos m) + e <= Zdigits2 mx + ex + 1
    /\ (Z.pos m - 1) * 2 ^ (e - ex) <= mx < (Z.pos m + 1) * 2 ^ (e - ex).
Proof.
  intros Hmx Hnormal Hmax.
  destruct (Zdigits2_bounds mx Hmx) as [Hd1 [Hdlo Hdhi]].
  set (d := Zdigits2 mx) in *.
  unfold binary_round_aux.
  pose proof (shr_fexp_spec mx ex lx ltac:(lia)) as [He1 Hm1].
  destruct (shr_fexp prec emax mx ex lx) as [mrs1 e1]. cbn [fst snd] in He1, Hm1.
  rewrite <- He1 in Hm1. symmetry in He1.
  rewrite fexp_double in He1. fold d in He1.
  set (m1 := shr_m mrs1) in *.
  set (m2 := round_nearest_even m1 (loc_of_shr_record mrs1)).
  pose proof (round_nearest_even_bounds m1 (loc_of_shr_record mrs1)) as Hm2.
  fold m2 in Hm2.
  assert (Hn1 : 0 <= e1 - ex <= d - 1) by lia.
  pose proof (div_pow2_bounds mx (e1 - ex) ltac:(lia) ltac:(lia)) as Hb1.
  pose proof (div_pow2_pos mx (e1 - ex) Hmx ltac:(lia) ltac:(fold d; lia)) as Hp1.
  rewrite <- Hm1 in Hb1, Hp1.
  (* digits of the rounded mantissa *)
  assert (Hsplit : 2 ^ d = 2 ^ (d - (e1 - ex)) * 2 ^ (e1 - ex)).
  { rewrite <- Z.pow_add_r by lia. f_equal. lia. }
  assert (Hm1hi : m1 < 2 ^ (d - (e1 - ex))).
  { pose proof (Z.pow_pos_nonneg 2 (e1 - ex) ltac:(lia) ltac:(lia)).
    pose proof (Z.pow_pos_nonneg 2 (d - (e1 - ex)) ltac:(lia) ltac:(lia)).
    hide_pow. nia. }
  assert (Hd2 : Zdigits2 m2 <= d - (e1 - ex) + 1).
  { apply Zdigits2_le; [lia | lia |].
    rewrite Z.pow_add_r by lia. change (2 ^ 1) with 2. hide_pow. lia. }
  pose proof (shr_fexp_spec m2 e1 loc_Exact ltac:(lia)) as [He2 Hm3].
  destruct (shr_fexp prec emax m2 e1 loc_Exact) as [mrs2 e2].
  cbn [fst snd] in He2, Hm3. rewrite <- He2 in Hm3. symmetry in He2.
  rewrite fexp_double in He2.
  destruct (Zdigits2_bounds m2 ltac:(lia)) as [Hd2' [Hd2lo Hd2hi]].
  set (d2 := Zdigits2 m2) in *.
  assert (Hn2 : 0 <= e2 - e1 <= d2 - 1) by lia.
  pose proof (div_pow2_bounds m2 (e2 - e1) ltac:(lia) ltac:(lia)) as Hb2.
  pose proof (div_pow2_pos m2 (e2 - e1) ltac:(lia) ltac:(lia)
                ltac:(fold d2; lia)) as Hp3.
  rewrite <- Hm3 in Hb2, Hp3.
  destruct (shr_m mrs2) as [|m|m] eqn:Em3; try lia.
  replace (e2 <=? emax - prec) with true
    by (symmetry; apply Z.leb_le; unfold emax, prec; lia).
  exists m, e2. split; [reflexivity|]. split; [lia|].
  assert (Hpow : 2 ^ (e2 - ex) = 2 ^ (e2 - e1) * 2 ^ (e1 - ex)).
  { rewrite <- Z.pow_add_r by lia. f_equal. lia. }
  pose proof (Z.pow_pos_nonneg 2 (e1 - ex) ltac:(lia) ltac:(lia)) as HA.
  pose proof (Z.pow_pos_nonneg 2 (e2 - e1) ltac:(lia) ltac:(lia)) as HB.
  split.
  - (* digits of the result *)
    assert (Hm3hi : Z.pos m <= 2 ^ (d - (e2 - ex))).
    { assert (Hs2 : 2 ^ (d - (e1 - ex))
                    = 2 ^ (d - (e2 - ex)) * 2 ^ (e2 - e1)).
      { rewrite <- Z.pow_add_r by lia. f_equal. lia. }
      pose proof (Z.pow_pos_nonneg 2 (d - (e2 - ex)) ltac:(lia) ltac:(lia)).
      hide_pow. nia. }
    assert (Zdigits2 (Z.pos m) <= d - (e2 - ex) + 1); [|lia].
    apply Zdigits2_le; [lia | lia |].
    rewrite Z.pow_add_r by lia. change (2 ^ 1) with 2.
    pose proof (Z.pow_pos_nonneg 2 (d - (e2 - ex)) ltac:(lia) ltac:(lia)).
    hide_pow. lia.
  - rewrite Hpow. hide_pow. nia.
Qed.


Lemma scale_bounds m e ex mx k :
  0 <= e - ex -> 0 <= ex + k ->
  (m - 1) * 2 ^ (e - ex) <= mx < (m + 1) * 2 ^ (e - ex) ->
  (m - 1) * 2 ^ (e + k) <= mx * 2 ^ (ex + k) < (m + 1) * 2 ^ (e + k).
Proof.
  intros He Hk H.
  replace (e + k) with (e - ex + (ex + k)) by lia.
  rewrite Z.pow_add_r by lia.
  pose proof (Z.pow_pos_nonneg 2 (ex + k) ltac:(lia) Hk).
  hide_pow. nia.
Qed.

Lemma shl_align_spec mx ex ex' :
  snd (shl_align mx ex ex') = Z.min ex ex'
  /\ Z.pos (fst (shl_align mx ex ex'))
     = Z.pos mx * 2 ^ (ex - snd (shl_align mx ex ex')).
Proof.
  unfold shl_align. destruct (ex' - ex) as [|d|d] eqn:E; cbn [fst snd].
  - rewrite Z.sub_diag. split; lia.
  - rewrite Z.sub_diag. split; lia.
  - split; [lia|].
    change (Pos.iter xO mx d) with (shift_pos d mx).
    rewrite shift_pos_correct. change (Z.pow_pos 2 d) with (2 ^ Z.pos d).
    replace (ex - ex') with (Z.pos d) by lia. ring.
Qed.

(** Conversion of an integer below [2^53]. *)
Lemma of_Z_spec z :
  0 < z < 2 ^ 53 ->
  exists m e,
    of_Z z = S754_finite false m e
    /\ Zdigits2 z - 53 <= e <= Zdigits2 z - 52
    /\ Zdigits2 (Z.pos m) + e <= Zdigits2 z + 1
    /\ forall k, 53 <= k ->
         (Z.pos m - 1) * 2 ^ (e + k) <= z * 2 ^ k < (Z.pos m + 1) * 2 ^ (e + k).
Proof.
  intros Hz. destruct z as [|p|p]; try lia.
  destruct (Zdigits2_bounds (Z.pos p) ltac:(lia)) as [Hd1 [Hlo Hhi]].
  assert (Hd53 : Zdigits2 (Z.pos p) <= 53) by (apply Zdigits2_le; lia).
  set (d := Zdigits2 (Z.pos p)) in *.
  unfold of_Z, binary_normalize, binary_round.
  change (Z.pos (digits2_pos p)) with d. rewrite Z.add_0_r, fexp_double.
  replace (Z.max (d - 53) (-1074)) with (d - 53) by lia.
  pose proof (shl_align_spec p 0 (d - 53)) as [Hez Hmz].
  destruct (shl_align p 0 (d - 53)) as [mz ez]. cbn [fst snd] in Hez, Hmz.
  assert (Eez : ez = d - 53) by lia. clear Hez. subst ez.
  replace (0 - (d - 53)) with (53 - d) in Hmz by lia.
  assert (Hdz : Zdigits2 (Z.pos mz) = 53).
  { assert (Hs1 : 2 ^ 53 = 2 ^ d * 2 ^ (53 - d))
      by (rewrite <- Z.pow_add_r by lia; f_equal; lia).
    assert (Hs2 : 2 ^ 52 = 2 ^ (d - 1) * 2 ^ (53 - d))
      by (rewrite <- Z.pow_add_r by lia; f_equal; lia).
    pose proof (Z.pow_pos_nonneg 2 (53 - d) ltac:(lia) ltac:(lia)).
    assert (Z.pos mz < 2 ^ 53) by (rewrite Hmz, Hs1; hide_pow; nia).
    assert (2 ^ 52 <= Z.pos mz) by (rewrite Hmz, Hs2; hide_pow; nia).
    pose proof (Zdigits2_le (Z.pos mz) 53 ltac:(lia) ltac:(lia) ltac:(lia)).
    pose proof (Zdigits2_gt (Z.pos mz) 52 ltac:(lia) ltac:(lia)). lia. }
  destruct (binary_round_aux_spec false (Z.pos mz) (d - 53) loc_Exact)
    as (m & e & E & He & Hdm & Hb); try (rewrite ?Hdz; lia).
  rewrite Hdz in He, Hdm.
  exists m, e. split; [exact E|]. split; [lia|]. split; [lia|].
  intros k Hk.
  pose proof (scale_bounds (Z.pos m) e (d - 53) (Z.pos mz) k
                ltac:(lia) ltac:(lia) Hb) as Hs.
  replace (Z.pos mz * 2 ^ (d - 53 + k)) with (Z.pos p * 2 ^ k) in Hs;
    [exact Hs|].
  rewrite Hmz, <- Z.mul_assoc, <- Z.pow_add_r by lia. do 2 f_equal. lia.
Qed.

Lemma Zdigits2_mul a b :
  0 < a -> 0 < b ->
  Zdigits2 a + Zdigits2 b - 1 <= Zdigits2 (a * b) <= Zdigits2 a + Zdigits2 b.
Proof.
  intros Ha Hb.
  destruct (Zdigits2_bounds a Ha) as [Hda [Halo Hahi]].
  destruct (Zdigits2_bounds b Hb) as [Hdb [Hblo Hbhi]].
  split.
  - assert (2 ^ (Zdigits2 a + Zdigits2 b - 2) <= a * b).
    { replace (Zdigits2 a + Zdigits2 b - 2)
        with (Zdigits2 a - 1 + (Zdigits2 b - 1)) by lia.
      rewrite Z.pow_add_r by lia. hide_pow. nia. }
    pose proof (Zdigits2_gt (a * b) (Zdigits2 a + Zdigits2 b - 2)
                  ltac:(lia) ltac:(lia)). lia.
  - apply Zdigits2_le; [nia | lia |].
    rewrite Z.pow_add_r by lia. hide_pow. nia.
Qed.

(** Product of two positive finite numbers, in the normal range. *)
Lemma mul_spec mx ex my ey :
  let X := Zdigits2 (Z.pos mx) + ex in
  let Y := Zdigits2 (Z.pos my) + ey in
  -1020 <= X + Y -> X + Y <= 1020 -> ex + ey <= 971 ->
  exists m e,
    mul (S754_finite false mx ex) (S754_finite false my ey)
    = S754_finite false m e
    /\ ex + ey <= e <= Z.max (ex + ey) (X + Y - 52)
    /\ Zdigits2 (Z.pos m) + e <= X + Y + 1
    /\ forall k, 0 <= ex + ey + k ->
         (Z.pos m - 1) * 2 ^ (e + k)
         <= Z.pos mx * Z.pos my * 2 ^ (ex + ey + k)
         < (Z.pos m + 1) * 2 ^ (e + k).
Proof.
  intros X Y Hlo Hhi Hexp. unfold mul, SFmul. cbn [xorb].
  pose proof (Zdigits2_mul (Z.pos mx) (Z.pos my) ltac:(lia) ltac:(lia)) as Hd.
  change (Z.pos mx * Z.pos my) with (Z.pos (mx * my)) in Hd.
  destruct (binary_round_aux_spec false (Z.pos (mx * my)) (ex + ey) loc_Exact)
    as (m & e & E & He & Hdm & Hb); try lia.
  exists m, e. split; [exact E|]. split; [lia|]. split; [lia|].
  intros k Hk.
  change (Z.pos mx * Z.pos my) with (Z.pos (mx * my)).
  apply scale_bounds; [lia | lia | exact Hb].
Qed.


(** Quotient of two positive finite numbers, in the normal range. *)
Lemma div_spec mx ex my ey :
  let X := Zdigits2 (Z.pos mx) + ex in
  let Y := Zdigits2 (Z.pos my) + ey in
  -1020 <= X - Y -> X - Y <= 1020 ->
  exists m e,
    div (S754_finite false mx ex) (S754_finite false my ey)
    = S754_finite false m e
    /\ Z.min (X - Y - 53) (ex - ey) <= e <= X - Y - 51
    /\ forall k, 0 <= Z.min (X - Y - 53) (ex - ey) + k ->
         (Z.pos m - 1) * 2 ^ (e + k) * Z.pos my
         <= Z.pos mx * 2 ^ (ex - ey + k)
         < (Z.pos m + 1) * 2 ^ (e + k) * Z.pos my.
Proof.
  intros X Y Hlo Hhi. unfold div, SFdiv. cbn [xorb].
  unfold SFdiv_core_binary.
  destruct (Zdigits2_bounds (Z.pos mx) ltac:(lia)) as [Hdx [Hxlo Hxhi]].
  destruct (Zdigits2_bounds (Z.pos my) ltac:(lia)) as [Hdy [Hylo Hyhi]].
  set (dx := Zdigits2 (Z.pos mx)) in *. set (dy := Zdigits2 (Z.pos my)) in *.
  rewrite fexp_double.
  replace (dx + ex - (dy + ey)) with (X - Y) by (unfold X, Y; lia).
  replace (Z.max (X - Y - 53) (-1074)) with (X - Y - 53) by lia.
  set (e' := Z.min (X - Y - 53) (ex - ey)).
  set (s := ex - ey - e').
  assert (Hs : 53 - dx + dy <= s) by (unfold s, e', X, Y; lia).
  assert (Hs0 : 0 <= s) by (unfold s, e'; lia).
  assert (Hshift : forall s0,
            0 <= s0 ->
            match s0 with
            | 0 => Z.pos mx
            | Z.pos _ => Z.shiftl (Z.pos mx) s0
            | Z.neg _ => 0
            end = Z.pos mx * 2 ^ s0).
  { intros [|ps|ps] H0; try lia. apply Z.shiftl_mul_pow2. lia. }
  rewrite (Hshift s Hs0). clear Hshift.
  set (m' := Z.pos mx * 2 ^ s).
  assert (Hm' : m' = Z.pos mx * 2 ^ s) by reflexivity.
  clearbody m'.
  pose proof (Z_div_mod m' (Z.pos my) ltac:(lia)) as Hdm.
  destruct (Z.div_eucl m' (Z.pos my)) as [q r]. destruct Hdm as [Hq Hr].
  (* size of the quotient *)
  assert (Hp1 : 2 ^ (dx - 1) * 2 ^ s = 2 ^ (dx - 1 + s - dy) * 2 ^ dy)
    by (rewrite <- !Z.pow_add_r by lia; f_equal; lia).
  assert (Hp2 : 2 ^ dx * 2 ^ s = 2 ^ (dx + s - dy + 1) * 2 ^ (dy - 1))
    by (rewrite <- !Z.pow_add_r by lia; f_equal; lia).
  pose proof (Z.pow_le_mono_r 2 52 (dx - 1 + s - dy) ltac:(lia) ltac:(lia))
    as Hp3.
  pose proof (Z.pow_pos_nonneg 2 s ltac:(lia) Hs0) as Hps.
  pose proof (Z.pow_pos_nonneg 2 (dy - 1) ltac:(lia) ltac:(lia)) as Hpy.
  pose proof (Z.pow_pos_nonneg 2 dy ltac:(lia) ltac:(lia)) as Hpy'.
  pose proof (Z.pow_pos_nonneg 2 (dx - 1 + s - dy) ltac:(lia) ltac:(lia))
    as Hpq.
  assert (Hqlo : 2 ^ (dx - 1 + s - dy) <= q).
  { assert (2 ^ (dx - 1 + s - dy) * 2 ^ dy < (q + 1) * 2 ^ dy);
      [|hide_pow; nia].
    rewrite <- Hp1.
    assert (Z.pos mx * 2 ^ s < (q + 1) * Z.pos my) by lia.
    assert (0 <= q) by (hide_pow; nia).
    hide_pow. nia. }
  assert (Hqhi : q < 2 ^ (dx + s - dy + 1)).
  { assert (q * 2 ^ (dy - 1) < 2 ^ (dx + s - dy + 1) * 2 ^ (dy - 1));
      [|hide_pow; nia].
    rewrite <- Hp2. hide_pow. nia. }
  assert (Hq52 : 2 ^ 52 <= q) by lia.
  pose proof (Zdigits2_gt q (dx - 1 + s - dy) ltac:(lia) Hqlo) as Hdq1.
  pose proof (Zdigits2_le q (dx + s - dy + 1) ltac:(lia) ltac:(lia) Hqhi)
    as Hdq2.
  assert (Hq0 : 0 < q) by lia.
  destruct (binary_round_aux_spec false q e' (new_location (Z.pos my) r))
    as (m & e & E & He & _ & Hb);
    try (unfold s, e', X, Y in *; lia).
  exists m, e. split; [exact E|].
  split; [unfold s, e', X, Y in *; lia|].
  intros k Hk.
  assert (HA : 0 < 2 ^ (e' + k)) by (apply Z.pow_pos_nonneg; lia).
  assert (Hsplit : 2 ^ (e + k) = 2 ^ (e - e') * 2 ^ (e' + k))
    by (rewrite <- Z.pow_add_r by lia; f_equal; lia).
  assert (Hsplit' : 2 ^ (ex - ey + k) = 2 ^ s * 2 ^ (e' + k))
    by (rewrite <- Z.pow_add_r by (unfold s; lia); f_equal; unfold s; lia).
  rewrite Hsplit, Hsplit'.
  assert (Hm'' : Z.pos mx * 2 ^ s = Z.pos my * q + r) by lia.
  pose proof (Z.pow_pos_nonneg 2 (e - e') ltac:(lia) ltac:(lia)) as HB.
  clear Hp1 Hp2 Hp3 Hqlo Hqhi Hq52 Hxlo Hxhi Hylo Hyhi Hpy Hpy' Hpq Hsplit Hsplit'.
  set (A := 2 ^ (e' + k)) in *. set (B := 2 ^ (e - e')) in *.
  set (S := 2 ^ s) in *. clearbody A B S.
  assert (Hl : (Z.pos m - 1) * B * Z.pos my <= Z.pos mx * S) by nia.
  assert (Hu : Z.pos mx * S < (Z.pos m + 1) * B * Z.pos my) by nia.
  replace ((Z.pos m - 1) * (B * A) * Z.pos my)
    with ((Z.pos m - 1) * B * Z.pos my * A) by ring.
  replace ((Z.pos m + 1) * (B * A) * Z.pos my)
    with ((Z.pos m + 1) * B * Z.pos my * A) by ring.
  replace (Z.pos mx * (S * A)) with (Z.pos mx * S * A) by ring.
  split.
  - apply Z.mul_le_mono_nonneg_r; lia.
  - apply Z.mul_lt_mono_pos_r; lia.
Qed.

Lemma to_u64_spec m e :
  e < 0 -> Z.pos m / 2 ^ (- e) < 2 ^ 64 ->
  to_u64 (S754_finite false m e) = Some (Z.pos m / 2 ^ (- e)).
Proof.
  intros He Hb. unfold to_u64, trunc.
  replace (0 <=? e) with false by lia.
  assert (0 <= Z.pos m / 2 ^ (- e)).
  { apply Z.div_pos; [lia | apply Z.pow_pos_nonneg; lia]. }
  replace (0 <=? Z.pos m / 2 ^ (- e)) with true by lia.
  replace (Z.pos m / 2 ^ (- e) <? 2 ^ 64) with true by lia.
  reflexivity.
Qed.


Lemma of_Z_10 : of_Z 10 = S754_finite false 5629499534213120 (-49).
Proof. vm_compute. reflexivity. Qed.

(** The extent of the rectangle, [dim * s / 10] truncated, for a double
    [s = ms * 2^es] between 1 and 4.4722.  With [S] for [s * 2^52]: the
    three roundings move the quotient by less than [2^-45] of itself, and
    never below an integer that the exact quotient reaches. *)
Lemma scaled_extent_bounds dim ms es :
  1 <= dim < 2 ^ 31 ->
  Zdigits2 (Z.pos ms) = 53 -> -52 <= es <= -50 ->
  2 ^ 52 <= Z.pos ms * 2 ^ (es + 52) ->
  Z.pos ms * 2 ^ (es + 52) * 10000 <= 44722 * 2 ^ 52 ->
  exists b,
    to_u64 (div (mul (of_Z dim) (S754_finite false ms es)) (of_Z 10)) = Some b
    /\ 0 <= b
    /\ 10 * b * 2 ^ 52 <= dim * (Z.pos ms * 2 ^ (es + 52) + 128)
    /\ dim * (Z.pos ms * 2 ^ (es + 52) - 128) < 10 * (b + 1) * 2 ^ 52
    /\ forall n, 10 * n * 2 ^ 52 <= dim * (Z.pos ms * 2 ^ (es + 52)) -> n <= b.
Proof.
  intros Hdim Hds Hes Hslo Hshi.
  destruct (of_Z_spec dim ltac:(lia)) as (ma & ea & Ea & Hea & Hda & Ha).
  destruct (Zdigits2_bounds dim ltac:(lia)) as [Hd1 [Hdd _]].
  pose proof (Zdigits2_le dim 31 ltac:(lia) ltac:(lia) ltac:(lia)) as Hd31.
  destruct (Zdigits2_bounds (Z.pos ma) ltac:(lia)) as [Hdma _].
  rewrite Ea.
  destruct (mul_spec ma ea ms es) as (m2 & e2 & E2 & He2 & Hd2 & H2);
    try (rewrite ?Hds; lia).
  rewrite Hds in He2, Hd2.
  destruct (Zdigits2_bounds (Z.pos m2) ltac:(lia)) as [Hdm2 _].
  rewrite E2, of_Z_10.
  destruct (div_spec m2 e2 5629499534213120 (-49)) as (m5 & e5 & E5 & He5 & H5);
    try (change (Zdigits2 (Z.pos 5629499534213120)) with 53; lia).
  change (Zdigits2 (Z.pos 5629499534213120)) with 53 in He5, H5.
  rewrite E5.
  specialize (Ha 64 ltac:(lia)).
  specialize (H2 256 ltac:(lia)).
  specialize (H5 256 ltac:(lia)).
  pose proof (div_pow2_bounds (Z.pos m5) (- e5) ltac:(lia) ltac:(lia)) as Hb.
  assert (Hto : Z.pos m5 / 2 ^ (- e5) < 2 ^ 64 ->
                to_u64 (S754_finite false m5 e5) = Some (Z.pos m5 / 2 ^ (- e5)))
    by (apply to_u64_spec; lia).
  assert (Hb0 : 0 <= Z.pos m5 / 2 ^ (- e5))
    by (apply Z.div_pos; [lia | apply Z.pow_pos_nonneg; lia]).
  set (b := Z.pos m5 / 2 ^ (- e5)) in *.
  set (d := Zdigits2 dim) in *.
  (* the powers of two, as atoms with their bounds *)
  assert (E64 : 2 ^ 64 = 2 ^ (- ea) * 2 ^ (ea + 64))
    by (rewrite <- Z.pow_add_r by lia; f_equal; lia).
  assert (E256 : 2 ^ 256 = 2 ^ (- e5) * 2 ^ (e5 + 256))
    by (rewrite <- Z.pow_add_r by lia; f_equal; lia).
  assert (E256' : 2 ^ 256 = 2 ^ (- e2) * 2 ^ (e2 + 256))
    by (rewrite <- Z.pow_add_r by lia; f_equal; lia).
  assert (EP2 : 2 ^ (e2 - -49 + 256) = 2 ^ (e2 + 256) * 2 ^ 49)
    by (rewrite <- Z.pow_add_r by lia; f_equal; lia).
  assert (ET : 2 ^ (ea + es + 256)
               = 2 ^ (ea + 64) * 2 ^ (es + 52) * 2 ^ 140)
    by (rewrite <- !Z.pow_add_r by lia; f_equal; lia).
  pose proof (Z.pow_le_mono_r 2 (ea + 64) (d - 1 + 13) ltac:(lia) ltac:(lia))
    as BPa.
  pose proof (Z.pow_le_mono_r 2 (e2 + 256) (d - 1 + 209) ltac:(lia) ltac:(lia))
    as BP2.
  pose proof (Z.pow_le_mono_r 2 (e5 + 256) (d - 1 + 207) ltac:(lia) ltac:(lia))
    as BP5.
  rewrite (Z.pow_add_r 2 (d - 1) 13) in BPa by lia.
  rewrite (Z.pow_add_r 2 (d - 1) 209) in BP2 by lia.
  rewrite (Z.pow_add_r 2 (d - 1) 207) in BP5 by lia.
  pose proof (Z.pow_pos_nonneg 2 (ea + 64) ltac:(lia) ltac:(lia)) as PPa.
  pose proof (Z.pow_pos_nonneg 2 (e2 + 256) ltac:(lia) ltac:(lia)) as PP2.
  pose proof (Z.pow_pos_nonneg 2 (e5 + 256) ltac:(lia) ltac:(lia)) as PP5.
  pose proof (Z.pow_pos_nonneg 2 (- e5) ltac:(lia) ltac:(lia)) as PN5.
  pose proof (Z.pow_pos_nonneg 2 (- e2) ltac:(lia) ltac:(lia)) as PN2.
  pose proof (Z.pow_pos_nonneg 2 (- ea) ltac:(lia) ltac:(lia)) as PNa.
  pose proof (Z.pow_pos_nonneg 2 (es + 52) ltac:(lia) ltac:(lia)) as PPs.
  pose proof (Z.pow_pos_nonneg 2 (d - 1) ltac:(lia) ltac:(lia)) as PD.
  rewrite EP2 in H5. rewrite ET in H2.
  set (Pa := 2 ^ (ea + 64)) in *. set (Ps := 2 ^ (es + 52)) in *.
  set (P2 := 2 ^ (e2 + 256)) in *. set (P5 := 2 ^ (e5 + 256)) in *.
  set (N5 := 2 ^ (- e5)) in *. set (N2 := 2 ^ (- e2)) in *.
  set (Na := 2 ^ (- ea)) in *. set (D := 2 ^ (d - 1)) in *.
  clearbody Pa Ps P2 P5 N5 N2 Na D.
  set (Va := Z.pos ma * Pa). set (Vs := Z.pos ms * Ps).
  set (V2 := Z.pos m2 * P2). set (V5 := Z.pos m5 * P5).
  assert (HVa : dim * 2 ^ 64 <= Va <= dim * 2 ^ 64 + Pa).
  { unfold Va. split; [|lia].
    assert (Hgrid : dim * Na * Pa < (Z.pos ma + 1) * Pa)
      by (rewrite E64 in Ha; lia).
    apply Z.mul_lt_mono_pos_r in Hgrid; [|lia].
    assert (dim * Na * Pa <= Z.pos ma * Pa)
      by (apply Z.mul_le_mono_nonneg_r; lia).
    rewrite E64. lia. }
  assert (HVs : 2 ^ 52 <= Vs /\ Vs * 10000 <= 44722 * 2 ^ 52)
    by (unfold Vs; lia).
  assert (HT : dim * Vs * 2 ^ 64 <= Va * Vs
               <= dim * Vs * 2 ^ 64 + dim * 2 ^ 68).
  { assert (Hs55 : Vs <= 2 ^ 55) by lia.
    assert (Hps : Pa * Vs <= (dim * 2 ^ 13) * 2 ^ 55)
      by (apply Z.mul_le_mono_nonneg; lia).
    assert (Hlo : (dim * 2 ^ 64) * Vs <= Va * Vs)
      by (apply Z.mul_le_mono_nonneg_r; lia).
    assert (Hhi : Va * Vs <= (dim * 2 ^ 64 + Pa) * Vs)
      by (apply Z.mul_le_mono_nonneg_r; lia).
    lia. }
  assert (HV2 : V2 - P2 <= Va * Vs * 2 ^ 140 < V2 + P2).
  { unfold V2, Va, Vs.
    replace (Z.pos ma * Pa * (Z.pos ms * Ps) * 2 ^ 140)
      with (Z.pos ma * Z.pos ms * (Pa * Ps * 2 ^ 140)) by ring. lia. }
  assert (HV5 : (V5 - P5) * 10 <= V2 < (V5 + P5) * 10).
  { unfold V5, V2.
    assert (Hl : ((Z.pos m5 - 1) * P5 * 10) * 2 ^ 49
                 <= (Z.pos m2 * P2) * 2 ^ 49) by lia.
    assert (Hu : (Z.pos m2 * P2) * 2 ^ 49
                 < ((Z.pos m5 + 1) * P5 * 10) * 2 ^ 49) by lia.
    apply Z.mul_le_mono_pos_r in Hl; [|lia].
    apply Z.mul_lt_mono_pos_r in Hu; [|lia]. lia. }
  assert (HbV : b * 2 ^ 256 <= V5 < (b + 1) * 2 ^ 256).
  { unfold V5. rewrite E256.
    replace (b * (N5 * P5)) with (b * N5 * P5) by ring.
    replace ((b + 1) * (N5 * P5)) with ((b + 1) * N5 * P5) by ring.
    split.
    - apply Z.mul_le_mono_nonneg_r; lia.
    - apply Z.mul_lt_mono_pos_r; lia. }
  (* an integer below the exact quotient stays below each rounded value *)
  assert (Hgrid2 : forall n, 10 * n * 2 ^ 256 < V2 + P2 -> 10 * n * 2 ^ 256 <= V2).
  { intros n Hn. unfold V2 in *. rewrite E256' in *.
    assert (Hlt : 10 * n * N2 * P2 < (Z.pos m2 + 1) * P2) by lia.
    apply Z.mul_lt_mono_pos_r in Hlt; [|lia].
    assert (10 * n * N2 * P2 <= Z.pos m2 * P2)
      by (apply Z.mul_le_mono_nonneg_r; lia).
    lia. }
  assert (Hgrid5 : forall n, n * 2 ^ 256 < V5 + P5 -> n * 2 ^ 256 <= V5).
  { intros n Hn. unfold V5 in *. rewrite E256 in *.
    assert (Hlt : n * N5 * P5 < (Z.pos m5 + 1) * P5) by lia.
    apply Z.mul_lt_mono_pos_r in Hlt; [|lia].
    assert (n * N5 * P5 <= Z.pos m5 * P5)
      by (apply Z.mul_le_mono_nonneg_r; lia).
    lia. }
  clearbody Va Vs V2 V5.
  assert (Hupper : 10 * b * 2 ^ 52 <= dim * (Vs + 128)).
  { assert (10 * b * 2 ^ 52 * 2 ^ 204 <= dim * (Vs + 128) * 2 ^ 204);
      [|apply Z.mul_le_mono_pos_r in H; lia].
    lia. }
  assert (Hlower : dim * (Vs - 128) < 10 * (b + 1) * 2 ^ 52).
  { assert (dim * (Vs - 128) * 2 ^ 204 < 10 * (b + 1) * 2 ^ 52 * 2 ^ 204);
      [|apply Z.mul_lt_mono_pos_r in H; lia].
    lia. }
  exists b. split.
  { apply Hto.
    assert (dim * (Vs + 128) <= 2 ^ 31 * (2 ^ 55 + 128))
      by (apply Z.mul_le_mono_nonneg; lia).
    lia. }
  split; [exact Hb0|]. split; [exact Hupper|]. split; [exact Hlower|].
  intros n Hn.
  assert (H10 : 10 * n * 2 ^ 256 <= V2) by (apply Hgrid2; lia).
  assert (H1 : n * 2 ^ 256 <= V5) by (apply Hgrid5; lia).
  assert (Hlt : n * 2 ^ 256 < (b + 1) * 2 ^ 256) by lia.
  apply Z.mul_lt_mono_pos_r in Hlt; lia.
Qed.

(** Conversion of a positive [long long]: exact below [2^53], rounded to
    53 bits from there on. *)
Lemma of_Z_wide z :
  0 < z < 2 ^ 63 ->
  exists m e,
    of_Z z = S754_finite false m e
    /\ -52 <= e <= Zdigits2 z - 52
    /\ Zdigits2 (Z.pos m) + e <= Zdigits2 z + 1
    /\ forall k, 53 <= k ->
         (Z.pos m - 1) * 2 ^ (e + k) <= z * 2 ^ k < (Z.pos m + 1) * 2 ^ (e + k).
Proof.
  intros Hz.
  destruct (Zdigits2_bounds z ltac:(lia)) as [Hd1 [Hlo Hhi]].
  destruct (Z_lt_le_dec z (2 ^ 53)) as [Hsmall | Hlarge].
  - destruct (of_Z_spec z ltac:(lia)) as (m & e & E & He & Hdm & Hb).
    exists m, e. split; [exact E|]. split; [lia|]. split; [exact Hdm | exact Hb].
  - pose proof (Zdigits2_gt z 53 ltac:(lia) Hlarge) as Hd54.
    pose proof (Zdigits2_le z 63 ltac:(lia) ltac:(lia) ltac:(lia)) as Hd63.
    destruct z as [|p|p]; try lia.
    set (d := Zdigits2 (Z.pos p)) in *.
    unfold of_Z, binary_normalize, binary_round.
    change (Z.pos (digits2_pos p)) with d. rewrite Z.add_0_r, fexp_double.
    replace (Z.max (d - 53) (-1074)) with (d - 53) by lia.
    pose proof (shl_align_spec p 0 (d - 53)) as [Hez Hmz].
    destruct (shl_align p 0 (d - 53)) as [mz ez]. cbn [fst snd] in Hez, Hmz.
    assert (Eez : ez = 0) by lia. subst ez.
    replace (Z.min 0 (d - 53)) with 0 in * by lia.
    assert (Emz : mz = p) by (cbn in Hmz; lia). subst mz. clear Hmz.
    destruct (binary_round_aux_spec false (Z.pos p) 0 loc_Exact)
      as (m & e & E & He & Hdm & Hb); try (fold d; lia).
    fold d in He, Hdm.
    exists m, e. split; [exact E|]. split; [lia|]. split; [lia|].
    intros k Hk.
    pose proof (scale_bounds (Z.pos m) e 0 (Z.pos p) k
                  ltac:(lia) ltac:(lia) Hb) as Hs.
    rewrite Z.add_0_l in Hs. exact Hs.
Qed.

(** The integer part of a positive finite double. *)
Lemma trunc_spec m e :
  exists b,
    trunc (S754_finite false m e) = Some b
    /\ 0 <= b
    /\ forall k, 0 <= k -> 0 <= e + k ->
         b * 2 ^ k <= Z.pos m * 2 ^ (e + k) < (b + 1) * 2 ^ k.
Proof.
  unfold trunc. destruct (0 <=? e) eqn:E.
  - apply Z.leb_le in E. exists (Z.pos m * 2 ^ e).
    split; [reflexivity|].
    pose proof (Z.pow_pos_nonneg 2 e ltac:(lia) E) as Hp.
    split; [nia|]. intros k Hk _.
    rewrite Z.pow_add_r by lia.
    pose proof (Z.pow_pos_nonneg 2 k ltac:(lia) Hk) as Hpk.
    hide_pow. nia.
  - apply Z.leb_gt in E. exists (Z.pos m / 2 ^ (- e)).
    split; [reflexivity|].
    pose proof (Z.pow_pos_nonneg 2 (- e) ltac:(lia) ltac:(lia)) as Hp.
    split; [apply Z.div_pos; lia|]. intros k Hk Hek.
    pose proof (div_pow2_bounds (Z.pos m) (- e) ltac:(lia) ltac:(lia)) as Hb.
    assert (Hsplit : 2 ^ k = 2 ^ (- e) * 2 ^ (e + k))
      by (rewrite <- Z.pow_add_r by lia; f_equal; lia).
    pose proof (Z.pow_pos_nonneg 2 (e + k) ltac:(lia) Hek) as Hpk.
    rewrite Hsplit.
    set (b := Z.pos m / 2 ^ (- e)) in *. clearbody b.
    set (N := 2 ^ (- e)) in *. set (P := 2 ^ (e + k)) in *. clearbody N P.
    split.
    + replace (b * (N * P)) with (b * N * P) by ring.
      apply Z.mul_le_mono_nonneg_r; lia.
    + replace ((b + 1) * (N * P)) with ((b + 1) * N * P) by ring.
      apply Z.mul_lt_mono_pos_r; lia.
Qed.

(** The extent of the rectangle for every positive [long long] dimension:
    [dim * s / 10] truncated, for a double [s = ms * 2^es] between 1 and
    4.4722.  With [S] for [s * 2^52]: the four roundings move the quotient
    by less than [2^-45] of itself. *)
Lemma scaled_extent_wide dim ms es :
  1 <= dim < 2 ^ 63 ->
  Zdigits2 (Z.pos ms) = 53 -> -52 <= es <= -50 ->
  2 ^ 52 <= Z.pos ms * 2 ^ (es + 52) ->
  Z.pos ms * 2 ^ (es + 52) * 10000 <= 44722 * 2 ^ 52 ->
  exists b,
    to_u64 (div (mul (of_Z dim) (S754_finite false ms es)) (of_Z 10)) = Some b
    /\ 0 <= b
    /\ 10 * b * 2 ^ 52 <= dim * (Z.pos ms * 2 ^ (es + 52) + 128)
    /\ dim * (Z.pos ms * 2 ^ (es + 52) - 128) < 10 * (b + 1) * 2 ^ 52.
Proof.
  intros Hdim Hds Hes Hslo Hshi.
  destruct (of_Z_wide dim ltac:(lia)) as (ma & ea & Ea & Hea & Hda & Ha).
  destruct (Zdigits2_bounds dim ltac:(lia)) as [Hd1 [Hdd _]].
  pose proof (Zdigits2_le dim 63 ltac:(lia) ltac:(lia) ltac:(lia)) as Hd63.
  destruct (Zdigits2_bounds (Z.pos ma) ltac:(lia)) as [Hdma _].
  rewrite Ea.
  destruct (mul_spec ma ea ms es) as (m2 & e2 & E2 & He2 & Hd2 & H2);
    try (rewrite ?Hds; lia).
  rewrite Hds in He2, Hd2.
  destruct (Zdigits2_bounds (Z.pos m2) ltac:(lia)) as [Hdm2 _].
  rewrite E2, of_Z_10.
  destruct (div_spec m2 e2 5629499534213120 (-49)) as (m5 & e5 & E5 & He5 & H5);
    try (change (Zdigits2 (Z.pos 5629499534213120)) with 53; lia).
  change (Zdigits2 (Z.pos 5629499534213120)) with 53 in He5, H5.
  rewrite E5.
  specialize (Ha 64 ltac:(lia)).
  specialize (H2 256 ltac:(lia)).
  specialize (H5 256 ltac:(lia)).
  destruct (trunc_spec m5 e5) as (b & Eb & Hb0 & Hb).
  specialize (Hb 256 ltac:(lia) ltac:(lia)).
  set (d := Zdigits2 dim) in *.
  assert (EP2 : 2 ^ (e2 - -49 + 256) = 2 ^ (e2 + 256) * 2 ^ 49)
    by (rewrite <- Z.pow_add_r by lia; f_equal; lia).
  assert (ET : 2 ^ (ea + es + 256)
               = 2 ^ (ea + 64) * 2 ^ (es + 52) * 2 ^ 140)
    by (rewrite <- !Z.pow_add_r by lia; f_equal; lia).
  pose proof (Z.pow_le_mono_r 2 (ea + 64) (d - 1 + 13) ltac:(lia) ltac:(lia))
    as BPa.
  pose proof (Z.pow_le_mono_r 2 (e2 + 256) (d - 1 + 209) ltac:(lia) ltac:(lia))
    as BP2.
  pose proof (Z.pow_le_mono_r 2 (e5 + 256) (d - 1 + 207) ltac:(lia) ltac:(lia))
    as BP5.
  rewrite (Z.pow_add_r 2 (d - 1) 13) in BPa by lia.
  rewrite (Z.pow_add_r 2 (d - 1) 209) in BP2 by lia.
  rewrite (Z.pow_add_r 2 (d - 1) 207) in BP5 by lia.
  pose proof (Z.pow_pos_nonneg 2 (ea + 64) ltac:(lia) ltac:(lia)) as PPa.
  pose proof (Z.pow_pos_nonneg 2 (e2 + 256) ltac:(lia) ltac:(lia)) as PP2.
  pose proof (Z.pow_pos_nonneg 2 (e5 + 256) ltac:(lia) ltac:(lia)) as PP5.
  pose proof (Z.pow_pos_nonneg 2 (es + 52) ltac:(lia) ltac:(lia)) as PPs.
  pose proof (Z.pow_pos_nonneg 2 (d - 1) ltac:(lia) ltac:(lia)) as PD.
  rewrite EP2 in H5. rewrite ET in H2.
  set (Pa := 2 ^ (ea + 64)) in *. set (Ps := 2 ^ (es + 52)) in *.
  set (P2 := 2 ^ (e2 + 256)) in *. set (P5 := 2 ^ (e5 + 256)) in *.
  set (D := 2 ^ (d - 1)) in *.
  clearbody Pa Ps P2 P5 D.
  set (Va := Z.pos ma * Pa). set (Vs := Z.pos ms * Ps).
  set (V2 := Z.pos m2 * P2). set (V5 := Z.pos m5 * P5).
  assert (HVa : Va - Pa <= dim * 2 ^ 64 < Va + Pa) by (unfold Va; lia).
  assert (HVs : 2 ^ 52 <= Vs /\ Vs * 10000 <= 44722 * 2 ^ 52)
    by (unfold Vs; lia).
  assert (HT : dim * Vs * 2 ^ 64 - dim * 2 ^ 68 <= Va * Vs
               <= dim * Vs * 2 ^ 64 + dim * 2 ^ 68).
  { assert (Hs55 : Vs <= 2 ^ 55) by lia.
    assert (Hps : Pa * Vs <= (dim * 2 ^ 13) * 2 ^ 55)
      by (apply Z.mul_le_mono_nonneg; lia).
    assert (Hlo : (Va - Pa) * Vs <= (dim * 2 ^ 64) * Vs)
      by (apply Z.mul_le_mono_nonneg_r; lia).
    assert (Hhi : (dim * 2 ^ 64) * Vs <= (Va + Pa) * Vs)
      by (apply Z.mul_le_mono_nonneg_r; lia).
    lia. }
  assert (HV2 : V2 - P2 <= Va * Vs * 2 ^ 140 < V2 + P2).
  { unfold V2, Va, Vs.
    replace (Z.pos ma * Pa * (Z.pos ms * Ps) * 2 ^ 140)
      with (Z.pos ma * Z.pos ms * (Pa * Ps * 2 ^ 140)) by ring. lia. }
  assert (HV5 : (V5 - P5) * 10 <= V2 < (V5 + P5) * 10).
  { unfold V5, V2.
    assert (Hl : ((Z.pos m5 - 1) * P5 * 10) * 2 ^ 49
                 <= (Z.pos m2 * P2) * 2 ^ 49) by lia.
    assert (Hu : (Z.pos m2 * P2) * 2 ^ 49
                 < ((Z.pos m5 + 1) * P5 * 10) * 2 ^ 49) by lia.
    apply Z.mul_le_mono_pos_r in Hl; [|lia].
    apply Z.mul_lt_mono_pos_r in Hu; [|lia]. lia. }
  assert (HbV : b * 2 ^ 256 <= V5 < (b + 1) * 2 ^ 256) by (unfold V5; lia).
  assert (HUs : 0 <= dim * Vs) by (apply Z.mul_nonneg_nonneg; lia).
  clearbody Va Vs V2 V5.
  assert (Hupper : 10 * b * 2 ^ 52 <= dim * (Vs + 128)).
  { assert (10 * b * 2 ^ 52 * 2 ^ 204 <= dim * (Vs + 128) * 2 ^ 204);
      [|apply Z.mul_le_mono_pos_r in H; lia].
    lia. }
  assert (Hlower : dim * (Vs - 128) < 10 * (b + 1) * 2 ^ 52).
  { assert (dim * (Vs - 128) * 2 ^ 204 < 10 * (b + 1) * 2 ^ 52 * 2 ^ 204);
      [|apply Z.mul_lt_mono_pos_r in H; lia].
    lia. }
  exists b. split.
  { unfold to_u64. rewrite Eb.
    replace (0 <=? b) with true by lia.
    assert (dim * (Vs + 128) <= 2 ^ 63 * (2 ^ 55 + 128))
      by (apply Z.mul_le_mono_nonneg; lia).
    replace (b <? 2 ^ 64) with true by lia. reflexivity. }
  split; [exact Hb0|]. split; [exact Hupper | exact Hlower].
Qed.

End DoubleRounding.

(** ** The rectangle of the second topology *)

Section Rectangle.
Import C Rng Sparse H5S.

(** The square roots the accepted densities need, as doubles: normal
    mantissas, values from 1 to less than 4.4722, each within one unit in
    the last place of the square root, and the root itself when the density
    is a square. *)
Lemma sqrt_density p :
  1 <= p <= 20 ->
  exists ms es,
    Double.sqrt (Double.of_Z p) = S754_finite false ms es
    /\ Zdigits2 (Z.pos ms) = 53
    /\ -52 <= es <= -50
    /\ 2 ^ 52 <= Z.pos ms * 2 ^ (es + 52)
    /\ Z.pos ms * 2 ^ (es + 52) * 10000 <= 44722 * 2 ^ 52
    /\ ((Z.pos ms - 1) * 2 ^ (es + 52)) ^ 2 <= p * 2 ^ 104
    /\ p * 2 ^ 104 <= ((Z.pos ms + 1) * 2 ^ (es + 52)) ^ 2
    /\ ((Z.sqrt p * Z.sqrt p = p
         /\ Z.pos ms * 2 ^ (es + 52) = Z.sqrt p * 2 ^ 52)
        \/ Z.sqrt p * Z.sqrt p < p).
Proof.
  intros Hp.
  assert (Hcases : p = 1 \/ p = 2 \/ p = 3 \/ p = 4 \/ p = 5 \/ p = 6 \/ p = 7
                   \/ p = 8 \/ p = 9 \/ p = 10 \/ p = 11 \/ p = 12 \/ p = 13
                   \/ p = 14 \/ p = 15 \/ p = 16 \/ p = 17 \/ p = 18 \/ p = 19
                   \/ p = 20) by lia.
  repeat (destruct Hcases as [-> | Hcases]); try subst p;
    (eexists _, _; split; [vm_compute; reflexivity |];
     repeat (match goal with |- _ /\ _ => split end);
     first [ vm_compute; congruence
           | left; split; vm_compute; reflexivity
           | right; vm_compute; reflexivity ]).
Qed.

(** Squares compare as their non-negative roots do. *)
Lemma square_lt a b : 0 <= a -> a < b -> a ^ 2 < b ^ 2.
Proof. intros Ha Hab. apply Z.pow_lt_mono_l; lia. Qed.

Lemma square_le a b : 0 <= a -> a <= b -> a ^ 2 <= b ^ 2.
Proof. intros Ha Hab. apply Z.pow_le_mono_l; lia. Qed.

(** No multiple of a square by a number strictly between two consecutive
    squares is a square: the descent from [(x, y)] to
    [(y - r * x, p * x - r * y)]. *)
Lemma no_square_multiple r p :
  0 <= r -> r * r < p < (r + 1) * (r + 1) ->
  forall x y, 0 < x -> 0 <= y -> y * y = p * (x * x) -> False.
Proof.
  intros Hr Hp.
  assert (Hdescent : forall n : nat, forall x y,
             0 < x <= Z.of_nat n -> 0 <= y -> y * y = p * (x * x) -> False).
  { induction n as [|n IH]; intros x y Hx Hy Heq; [lia|].
    assert (Hlow : r * x < y).
    { destruct (Z.lt_ge_cases (r * x) y) as [H | H]; [exact H|].
      assert (y * y <= (r * x) * (r * x))
        by (apply Z.mul_le_mono_nonneg; lia).
      assert ((r * r) * (x * x) < p * (x * x))
        by (apply Z.mul_lt_mono_pos_r; nia).
      lia. }
    assert (Hhigh : y < (r + 1) * x).
    { destruct (Z.lt_ge_cases y ((r + 1) * x)) as [H | H]; [exact H|].
      assert (((r + 1) * x) * ((r + 1) * x) <= y * y)
        by (apply Z.mul_le_mono_nonneg; nia).
      assert (p * (x * x) < ((r + 1) * (r + 1)) * (x * x))
        by (apply Z.mul_lt_mono_pos_r; nia).
      lia. }
    assert (Hy' : 0 <= p * x - r * y).
    { assert (Hxy : (r * y) * x <= (p * x) * x).
      { assert ((r * x) * y <= y * y)
          by (apply Z.mul_le_mono_nonneg_r; lia).
        lia. }
      apply Z.mul_le_mono_pos_r in Hxy; lia. }
    apply (IH (y - r * x) (p * x - r * y)); [lia | exact Hy' |].
    replace ((p * x - r * y) * (p * x - r * y))
      with (p * p * (x * x) - 2 * p * r * (x * y) + r * r * (y * y)) by ring.
    replace (p * ((y - r * x) * (y - r * x)))
      with (p * (y * y) - 2 * p * r * (x * y) + p * r * r * (x * x)) by ring.
    rewrite Heq. ring. }
  intros x y Hx Hy Heq.
  apply (Hdescent (Z.to_nat x) x y); [lia | exact Hy | exact Heq].
Qed.

(** What [rectangle_extent] is for a dimension within [INT_MAX] and a
    density from 1 to 20.  It is at most [0.44722 * dim], and it is the
    integer part of [dim * sqrt p / 10] up to the rounding of the double
    operations: with [x] for [dim * sqrt p], the extent [b] has
    [10 * b - 2^-13 < x < 10 * (b + 1) + 2^-13], which is stated on the
    squares; below [2^20] the rounding is too small to cross an integer,
    and the extent is the integer part. *)
Lemma rectangle_extent_bounds dim p :
  1 <= dim <= INT_MAX -> 1 <= p <= 20 ->
  exists b,
    rectangle_extent dim p = Some b
    /\ 0 <= b
    /\ 100000 * b <= 44722 * dim
    /\ dim <= 10 * b + 10
    /\ (1 <= b -> (81920 * b - 1) ^ 2 < 8192 ^ 2 * (dim ^ 2 * p))
    /\ 8192 ^ 2 * (dim ^ 2 * p) < (81920 * (b + 1) + 1) ^ 2
    /\ (dim < 2 ^ 20 -> 100 * b ^ 2 <= dim ^ 2 * p < 100 * (b + 1) ^ 2).
Proof.
  intros Hdim Hp. unfold rectangle_extent. unfold INT_MAX in Hdim.
  destruct (sqrt_density p Hp)
    as (ms & es & -> & Hd & Hes & Hlo & Hhi & Hbelow & Habove & Hroot).
  destruct (scaled_extent_bounds dim ms es)
    as (b & E & Hb0 & Hu & Hl & Hgrid); try assumption; [lia|].
  exists b. split; [exact E|]. split; [exact Hb0|].
  pose proof (Z.pow_pos_nonneg 2 (es + 52) ltac:(lia) ltac:(lia)) as PPs.
  pose proof (Z.pow_le_mono_r 2 (es + 52) 2 ltac:(lia) ltac:(lia)) as BPs.
  set (Ps := 2 ^ (es + 52)) in *. clearbody Ps.
  assert (Hdp : 0 <= dim * Ps <= dim * 4)
    by (split; [apply Z.mul_nonneg_nonneg | apply Z.mul_le_mono_nonneg_l]; lia).
  set (Vs := Z.pos ms * Ps) in *.
  replace ((Z.pos ms - 1) * Ps) with (Vs - Ps) in Hbelow by (unfold Vs; ring).
  replace ((Z.pos ms + 1) * Ps) with (Vs + Ps) in Habove by (unfold Vs; ring).
  clearbody Vs.
  assert (Hdv : dim * 2 ^ 52 <= dim * Vs /\ dim * Vs * 10000 <= dim * (44722 * 2 ^ 52)).
  { split; [apply Z.mul_le_mono_nonneg_l; lia|].
    rewrite <- Z.mul_assoc. apply Z.mul_le_mono_nonneg_l; lia. }
  assert (Hcoarse : 100000 * b <= 44722 * dim).
  { assert (100000 * b * 2 ^ 52 < (44722 * dim + 1) * 2 ^ 52) by lia.
    apply Z.mul_lt_mono_pos_r in H; lia. }
  split; [exact Hcoarse|]. split; [lia|].
  (* the sides of the square root, as atoms *)
  assert (HW : 0 <= Vs - Ps <= 2 ^ 55) by lia.
  assert (HW' : 0 <= Vs + Ps <= 2 ^ 55) by lia.
  assert (Hlw : 10 * b * 2 ^ 52 <= dim * (Vs - Ps) + 132 * dim) by lia.
  assert (Huw : dim * (Vs + Ps) < 10 * (b + 1) * 2 ^ 52 + 132 * dim) by lia.
  set (W := Vs - Ps) in *. set (W' := Vs + Ps) in *.
  assert (HUW : 0 <= dim * W) by (apply Z.mul_nonneg_nonneg; lia).
  assert (HUW' : 0 <= dim * W') by (apply Z.mul_nonneg_nonneg; lia).
  assert (HsqW : (dim * W) ^ 2 <= dim ^ 2 * (p * 2 ^ 104)).
  { rewrite Z.pow_mul_l. apply Z.mul_le_mono_nonneg_l; [|exact Hbelow].
    apply Z.pow_nonneg. lia. }
  assert (HsqW' : dim ^ 2 * (p * 2 ^ 104) <= (dim * W') ^ 2).
  { rewrite Z.pow_mul_l. apply Z.mul_le_mono_nonneg_l; [|exact Habove].
    apply Z.pow_nonneg. lia. }
  clearbody W W'.
  split; [|split].
  - intros Hb.
    assert (Hlin : (81920 * b - 1) * 2 ^ 52 < 8192 * (dim * W))
      by (clear - Hlw Hdim; lia).
    apply square_lt in Hlin; [|clear - Hb; lia].
    apply (Z.mul_lt_mono_pos_r ((2 ^ 52) ^ 2)); [lia|].
    clear - Hlin HsqW. lia.
  - assert (Hlin : 8192 * (dim * W') < (81920 * (b + 1) + 1) * 2 ^ 52)
      by (clear - Huw Hdim; lia).
    apply square_lt in Hlin; [|clear - HUW'; lia].
    apply (Z.mul_lt_mono_pos_r ((2 ^ 52) ^ 2)); [lia|].
    clear - Hlin HsqW'. lia.
  - intros Hsmall.
    assert (Heta : (132 * dim) ^ 2 <= (132 * 2 ^ 20) ^ 2)
      by (apply square_le; clear - Hdim Hsmall; lia).
    split.
    + destruct (Z.le_gt_cases (100 * b ^ 2) (dim ^ 2 * p)) as [H | H];
        [exact H | exfalso].
      assert (HL : (10 * b * 2 ^ 52) ^ 2 <= (dim * W + 132 * dim) ^ 2)
        by (apply square_le; [clear - Hb0; lia | exact Hlw]).
      assert (HX : (dim * W) * (132 * dim) <= (2 ^ 20 * 2 ^ 55) * (132 * 2 ^ 20)).
      { apply Z.mul_le_mono_nonneg; [exact HUW | | clear - Hdim; lia
                                   | clear - Hsmall; lia].
        apply Z.mul_le_mono_nonneg; clear - Hdim Hsmall HW; lia. }
      clear - H HL HX Heta HsqW. lia.
    + destruct (Z.lt_ge_cases (dim ^ 2 * p) (100 * (b + 1) ^ 2)) as [H | H];
        [exact H | exfalso].
      destruct Hroot as [[Hk HVs] | Hk].
      * (* a square density: its root is exact *)
        pose proof (Z.sqrt_nonneg p) as Hk0. set (k := Z.sqrt p) in *.
        assert (Hle : 10 * (b + 1) <= dim * k).
        { destruct (Z.le_gt_cases (10 * (b + 1)) (dim * k)) as [Hc | Hc];
            [exact Hc | exfalso].
          apply square_lt in Hc;
            [|apply Z.mul_nonneg_nonneg; clear - Hdim Hk0; lia].
          rewrite <- Hk in H. clear - H Hc. lia. }
        specialize (Hgrid (b + 1)). rewrite HVs in Hgrid.
        clear - Hgrid Hle. lia.
      * (* another density: no square is [p] times a square *)
        assert (Hne : 100 * (b + 1) ^ 2 <> dim ^ 2 * p).
        { intros Heq.
          apply (no_square_multiple (Z.sqrt p) p (Z.sqrt_nonneg p)
                   ltac:(pose proof (Z.sqrt_spec p ltac:(clear - Hp; lia))
                           as Hspec;
                         unfold Z.succ in Hspec; clear - Hk Hspec; lia)
                   dim (10 * (b + 1)));
            [clear - Hdim; lia | clear - Hb0; lia | clear - Heq; lia]. }
        assert (HL : (dim * W') ^ 2 < (10 * (b + 1) * 2 ^ 52 + 132 * dim) ^ 2)
          by (apply square_lt; [exact HUW' | exact Huw]).
        assert (HX : (10 * (b + 1) * 2 ^ 52) * (132 * dim)
                     <= (2 ^ 75 + 2 ^ 57) * (132 * 2 ^ 20)).
        { assert (Hdw : dim * W <= 2 ^ 20 * 2 ^ 55)
            by (apply Z.mul_le_mono_nonneg; clear - Hdim Hsmall HW; lia).
          apply Z.mul_le_mono_nonneg;
            clear - Hb0 Hdim Hsmall Hlw Hdw; lia. }
        clear - H Hne HL HX Heta HsqW'. lia.
Qed.

Lemma flat_map_length_const {A B} (f : A -> list B) n l :
  (forall a, length (f a) = n) ->
  length (flat_map f l) = (length l * n)%nat.
Proof.
  intros Hf. induction l as [|a l IH]; [reflexivity|].
  cbn [flat_map]. rewrite length_app, IH, Hf. reflexivity.
Qed.

Lemma box_points_length2 o0 o1 b0 b1 :
  0 <= b0 -> 0 <= b1 ->
  Z.of_nat (length (box_points [o0; o1] [b0; b1])) = b0 * b1.
Proof.
  intros H0 H1. cbn [box_points].
  rewrite (flat_map_length_const _ (Z.to_nat b1)).
  - rewrite length_seq. lia.
  - intros k. rewrite length_map, (flat_map_length_const _ 1%nat).
    + rewrite length_seq. lia.
    + reflexivity.
Qed.

Lemma box_points_elem2 o0 o1 b0 b1 co :
  co ∈ box_points [o0; o1] [b0; b1] ->
  exists r c, co = [r; c] /\ o0 <= r < o0 + b0 /\ o1 <= c < o1 + b1.
Proof.
  cbn [box_points]. intros H.
  apply list_elem_of_In, in_flat_map in H. destruct H as (k & Hk & H).
  apply in_map_iff in H. destruct H as (t & <- & H).
  apply in_flat_map in H. destruct H as (k' & Hk' & H).
  cbn [map] in H. destruct H as [<- | []].
  apply in_seq in Hk. apply in_seq in Hk'.
  exists (o0 + Z.of_nat k), (o1 + Z.of_nat k'). split; [reflexivity | lia].
Qed.

Lemma select_set_points start count bs :
  points (select_hyperslab H5S_SELECT_SET start count bs)
  = box_points start count.
Proof.
  unfold select_hyperslab, block_points. cbn [offset extent].
  destruct (box_points start count) eqn:E; [reflexivity|].
  unfold points. cbn [flat_map]. unfold block_points. cbn [offset extent].
  rewrite E. apply app_nil_r.
Qed.

(** [b] is the integer part of [dim * sqrt p / 10]. *)
Definition integer_part (dim p b : Z) : Prop :=
  100 * b ^ 2 <= dim ^ 2 * p < 100 * (b + 1) ^ 2.

(** [b] is the integer part of a number within a factor [1 - 2^-44] to
    [1 + 2^-44] of [dim * sqrt p / 10]:
    [10 * b <= dim * sqrt p * (1 + 2^-44)] and
    [dim * sqrt p * (1 - 2^-44) < 10 * (b + 1)], on the squares. *)
Definition near_integer_part (dim p b : Z) : Prop :=
  (10 * b * 2 ^ 44) ^ 2 <= dim ^ 2 * p * (2 ^ 44 + 1) ^ 2
  /\ dim ^ 2 * p * (2 ^ 44 - 1) ^ 2 < (10 * (b + 1) * 2 ^ 44) ^ 2.

(** What [rectangle_extent] is for every positive [long long] dimension and
    a density from 1 to 20: at most [0.44723 * dim], at least 1 from a
    dimension of 11 on, and the integer part of [dim * sqrt p / 10] up to
    the rounding of the double operations. *)
Lemma rectangle_extent_wide dim p :
  1 <= dim < 2 ^ 63 -> 1 <= p <= 20 ->
  exists b,
    rectangle_extent dim p = Some b
    /\ 0 <= b
    /\ 100000 * b <= 44723 * dim
    /\ (11 <= dim -> 1 <= b)
    /\ near_integer_part dim p b.
Proof.
  intros Hdim Hp. unfold rectangle_extent.
  destruct (sqrt_density p Hp)
    as (ms & es & -> & Hd & Hes & Hlo & Hhi & Hbelow & Habove & _).
  destruct (scaled_extent_wide dim ms es)
    as (b & E & Hb0 & Hu & Hl); try assumption.
  exists b. split; [exact E|]. split; [exact Hb0|].
  pose proof (Z.pow_pos_nonneg 2 (es + 52) ltac:(lia) ltac:(lia)) as PPs.
  pose proof (Z.pow_le_mono_r 2 (es + 52) 2 ltac:(lia) ltac:(lia)) as BPs.
  set (Ps := 2 ^ (es + 52)) in *. clearbody Ps.
  assert (Hdp : 0 <= dim * Ps <= dim * 4)
    by (split; [apply Z.mul_nonneg_nonneg | apply Z.mul_le_mono_nonneg_l]; lia).
  set (Vs := Z.pos ms * Ps) in *.
  replace ((Z.pos ms - 1) * Ps) with (Vs - Ps) in Hbelow by (unfold Vs; ring).
  replace ((Z.pos ms + 1) * Ps) with (Vs + Ps) in Habove by (unfold Vs; ring).
  clearbody Vs.
  assert (Hdv : dim * 2 ^ 52 <= dim * Vs
                /\ dim * Vs * 10000 <= dim * (44722 * 2 ^ 52)).
  { split; [apply Z.mul_le_mono_nonneg_l; lia|].
    rewrite <- Z.mul_assoc. apply Z.mul_le_mono_nonneg_l; lia. }
  split.
  { assert (100000 * b * 2 ^ 52 <= (44723 * dim) * 2 ^ 52) by lia.
    apply Z.mul_le_mono_pos_r in H; lia. }
  split; [intros H11; lia|].
  assert (HW : 132 * 2 ^ 44 <= Vs - Ps <= 2 ^ 55) by lia.
  assert (HW' : 132 * 2 ^ 44 <= Vs + Ps <= 2 ^ 55) by lia.
  assert (Hlw : 10 * b * 2 ^ 52 <= dim * (Vs - Ps) + 132 * dim) by lia.
  assert (Huw : dim * (Vs + Ps) < 10 * (b + 1) * 2 ^ 52 + 132 * dim) by lia.
  set (W := Vs - Ps) in *. set (W' := Vs + Ps) in *.
  assert (HUW : dim * (132 * 2 ^ 44) <= dim * W)
    by (apply Z.mul_le_mono_nonneg_l; lia).
  assert (HUW' : dim * (132 * 2 ^ 44) <= dim * W')
    by (apply Z.mul_le_mono_nonneg_l; lia).
  assert (HsqW : (dim * W) ^ 2 <= dim ^ 2 * (p * 2 ^ 104)).
  { rewrite Z.pow_mul_l. apply Z.mul_le_mono_nonneg_l; [|exact Hbelow].
    apply Z.pow_nonneg. lia. }
  assert (HsqW' : dim ^ 2 * (p * 2 ^ 104) <= (dim * W') ^ 2).
  { rewrite Z.pow_mul_l. apply Z.mul_le_mono_nonneg_l; [|exact Habove].
    apply Z.pow_nonneg. lia. }
  clearbody W W'. clear Hbelow Habove Hu Hl Hdv E.
  set (U := dim * W) in *. set (U' := dim * W') in *. clearbody U U'.
  split.
  - assert (Hlin : 10 * b * 2 ^ 44 * 2 ^ 52 <= U * (2 ^ 44 + 1))
      by (clear - Hlw HUW Hdim; lia).
    apply square_le in Hlin; [|clear - Hb0; lia].
    rewrite !Z.pow_mul_l in Hlin. rewrite !Z.pow_mul_l.
    apply (Z.mul_le_mono_pos_r _ _ ((2 ^ 52) ^ 2)); [lia|].
    clear - Hlin HsqW.
    set (B2 := b ^ 2) in *. set (U2 := U ^ 2) in *. set (D2 := dim ^ 2) in *.
    clearbody B2 U2 D2. lia.
  - assert (Hlin : U' * (2 ^ 44 - 1) < 10 * (b + 1) * 2 ^ 44 * 2 ^ 52)
      by (clear - Huw HUW' Hdim; lia).
    apply square_lt in Hlin; [|clear - HUW' Hdim; lia].
    rewrite !Z.pow_mul_l in Hlin. rewrite !Z.pow_mul_l.
    apply (Z.mul_lt_mono_pos_r ((2 ^ 52) ^ 2)); [lia|].
    clear - Hlin HsqW'.
    set (B2 := (b + 1) ^ 2) in *. set (U2 := U' ^ 2) in *.
    set (D2 := dim ^ 2) in *.
    clearbody B2 U2 D2. lia.
Qed.



(** Chunks on which the second topology is not what the claim says.  On
    a chunk of one row, which [create_hyperslab] is handed as any other,
    and on the chunk of no row that [-c 0x1] gives, the origin is
    [rand() % (rows / 2)] with a divisor of 0: no block comes out, and the
    run of the program is undefined.  With [-c 1368943x1 -m 13] a
    dimension is 1401797632, and at 13% the double quotient is
    505425324.0 where [dim * sqrt 13 / 10] is 505425323.99...: the extent
    is one more than the integer part.  With [-c 4294967296x4294967296]
    both dimensions are [2^42]: at 1% each extent is 439804651110, their
    product is beyond [2^64], and the count returned is not the number of
    the selected points. *)
Lemma rectangle_claim_fails :
  create_hyperslab
    {| chunk_dim1 := 1; chunk_dim2 := 100; space_select := 2;
       max_percent := 20; d := 1; v := 0 |} 20 sample_generator
    (H5Screate_simple [1; 100]) = None
  /\ parse_command_line [opt_c 0 1; opt_s 2]
     = Return {| chunk_dim1 := 0; chunk_dim2 := 1024; space_select := 2;
                 max_percent := 10; d := 1; v := 0 |}
  /\ (forall size_of g, main size_of [opt_c 0 1; opt_s 2] g = None)
  /\ parse_command_line [opt_c 1368943 1; opt_s 2; opt_m 13]
     = Return {| chunk_dim1 := 1401797632; chunk_dim2 := 1024;
                 space_select := 2; max_percent := 13; d := 1; v := 0 |}
  /\ rectangle_extent 1401797632 13 = Some 505425324
  /\ ~ integer_part 1401797632 13 505425324
  /\ parse_command_line [opt_c 4294967296 4294967296; opt_s 2]
     = Return {| chunk_dim1 := 2 ^ 42; chunk_dim2 := 2 ^ 42;
                 space_select := 2; max_percent := 10; d := 1; v := 0 |}
  /\ rectangle_extent (2 ^ 42) 1 = Some 439804651110
  /\ u64 (439804651110 * 439804651110) <> 439804651110 * 439804651110.
Proof.
  split; [reflexivity|]. split; [reflexivity|].
  split; [intros size_of g; reflexivity|].
  split; [reflexivity|]. split; [vm_compute; reflexivity|].
  split.
  { unfold integer_part. intros [H _]. vm_compute in H. apply H. reflexivity. }
  split; [reflexivity|]. split; [vm_compute; reflexivity|].
  vm_compute. discriminate.
Qed.

(** The selection of the second topology: the two draws, the origin, the
    block and the count, for a chunk from 2 by 2 on.  The extent is below
    half the dimension, the origin below the other half. *)
Lemma rectangle_selection hand p g ds :
  space_select hand = 2 ->
  2 <= chunk_dim1 hand < 2 ^ 63 ->
  2 <= chunk_dim2 hand < 2 ^ 63 ->
  1 <= p <= 20 ->
  in_range g ->
  exists o0 o1 b0 b1 g' ds',
    create_hyperslab hand p g ds = Some (u64 (b0 * b1), g', ds')
    /\ ds' = H5Sselect_hyperslab H5S_SELECT_SET [o0; o1] [b0; b1] ds
    /\ stream g' = stream g /\ calls g' = (calls g + 2)%nat
    /\ 0 <= o0 < Z.quot (chunk_dim1 hand) 2
    /\ 0 <= o1 < Z.quot (chunk_dim2 hand) 2
    /\ rectangle_extent (chunk_dim1 hand) p = Some b0
    /\ rectangle_extent (chunk_dim2 hand) p = Some b1
    /\ o0 + b0 <= chunk_dim1 hand
    /\ o1 + b1 <= chunk_dim2 hand
    /\ H5Sget_select_npoints ds' = b0 * b1
    /\ (chunk_dim1 hand * chunk_dim2 hand <= 2 ^ 66 ->
        u64 (b0 * b1) = b0 * b1)
    /\ forall co, co ∈ points (sel ds') ->
         exists r c, co = [r; c]
                     /\ 0 <= r < chunk_dim1 hand /\ 0 <= c < chunk_dim2 hand.
Proof.
  intros Hsel Hrows Hcols Hp Hg.
  set (rows := chunk_dim1 hand) in *. set (cols := chunk_dim2 hand) in *.
  destruct (rectangle_extent_wide rows p)
    as (b0 & E0 & Hp0 & Hu0 & _); [lia | lia |].
  destruct (rectangle_extent_wide cols p)
    as (b1 & E1 & Hp1 & Hu1 & _); [lia | lia |].
  pose proof (Hg (calls g)) as Hr0. pose proof (Hg (S (calls g))) as Hr1.
  unfold RAND_MAX in Hr0, Hr1.
  set (r0 := stream g (calls g)) in *. set (r1 := stream g (S (calls g))) in *.
  assert (Hq0 : 1 <= Z.quot rows 2)
    by (rewrite Z.quot_div_nonneg by lia;
        apply Z.div_le_lower_bound; lia).
  assert (Hq1 : 1 <= Z.quot cols 2)
    by (rewrite Z.quot_div_nonneg by lia;
        apply Z.div_le_lower_bound; lia).
  assert (Hh0 : 2 * Z.quot rows 2 <= rows)
    by (rewrite Z.quot_div_nonneg by lia; apply Z.mul_div_le; lia).
  assert (Hh1 : 2 * Z.quot cols 2 <= cols)
    by (rewrite Z.quot_div_nonneg by lia; apply Z.mul_div_le; lia).
  assert (Ho0 : 0 <= Z.rem r0 (Z.quot rows 2) < Z.quot rows 2)
    by (apply Z.rem_bound_pos; lia).
  assert (Ho1 : 0 <= Z.rem r1 (Z.quot cols 2) < Z.quot cols 2)
    by (apply Z.rem_bound_pos; lia).
  exists (Z.rem r0 (Z.quot rows 2)), (Z.rem r1 (Z.quot cols 2)), b0, b1,
    {| stream := stream g; calls := S (S (calls g)) |},
    (H5Sselect_hyperslab H5S_SELECT_SET
       [Z.rem r0 (Z.quot rows 2); Z.rem r1 (Z.quot cols 2)] [b0; b1] ds).
  split.
  { unfold create_hyperslab.
    replace (p =? 0) with false by lia.
    rewrite Hsel. change (2 =? 1) with false. change (2 =? 2) with true.
    cbv iota. unfold rand. cbn [stream calls].
    fold rows cols r0 r1.
    replace (Z.quot rows 2 =? 0) with false by lia.
    replace (Z.quot cols 2 =? 0) with false by lia.
    cbn [orb]. rewrite E0, E1.
    unfold u64.
    rewrite (Z.mod_small (Z.rem r0 _)) by lia.
    rewrite (Z.mod_small (Z.rem r1 _)) by lia.
    reflexivity. }
  split; [reflexivity|]. split; [reflexivity|].
  split; [cbn [calls]; lia|].
  split; [exact Ho0|]. split; [exact Ho1|].
  split; [exact E0|]. split; [exact E1|].
  split; [lia|]. split; [lia|].
  split.
  { unfold H5Sget_select_npoints, H5Sselect_hyperslab. cbn [sel].
    rewrite select_set_points. apply box_points_length2; lia. }
  split.
  { intros Hsmall. unfold u64. apply Z.mod_small.
    split; [apply Z.mul_nonneg_nonneg; lia|].
    assert (H : (100000 * b0) * (100000 * b1)
                <= (44723 * rows) * (44723 * cols))
      by (apply Z.mul_le_mono_nonneg; lia).
    set (B := b0 * b1) in *. set (R := rows * cols) in *.
    replace (100000 * b0 * (100000 * b1)) with (10000000000 * B) in H
      by (unfold B; ring).
    replace (44723 * rows * (44723 * cols)) with (2000146729 * R) in H
      by (unfold R; ring).
    clearbody B R. lia. }
  intros co Hco. unfold H5Sselect_hyperslab in Hco. cbn [sel] in Hco.
  rewrite select_set_points in Hco.
  apply box_points_elem2 in Hco. destruct Hco as (r & c & -> & Hr & Hc).
  exists r, c. split; [reflexivity | lia].
Qed.

(** C7 (amended): for a chunk of at least two rows and two columns (the
    dimensions are [long long] values, below [2^63]), a density from 1 to
    20 and every outcome of [rand], the second topology selects one block
    that stays inside the chunk: its origin is in the upper-left quadrant,
    origin plus extent does not exceed the bounds in either dimension, and
    every selected coordinate is inside the chunk.  Each extent is the
    value of the C expression [hand.chunk_dim * sqrt(select_percent) / 10]
    in double precision converted to [hsize_t]: the integer part of
    [chunk_dim * sqrt select_percent / 10] for a dimension below [2^20],
    and for every dimension the integer part of a number that the
    rounding keeps within a factor [1 - 2^-44] to [1 + 2^-44] of that
    quotient.  The number of the selected points is the product of the
    extents; the count returned is this product modulo [2^64], which is
    the product itself when [rows * cols] is at most [2^66]. *)
Theorem rectangle_containment hand p g ds :
  space_select hand = 2 ->
  2 <= chunk_dim1 hand < 2 ^ 63 ->
  2 <= chunk_dim2 hand < 2 ^ 63 ->
  1 <= p <= 20 ->
  in_range g ->
  exists o0 o1 b0 b1 g' ds',
    create_hyperslab hand p g ds = Some (u64 (b0 * b1), g', ds')
    /\ (chunk_dim1 hand * chunk_dim2 hand <= 2 ^ 66 ->
        u64 (b0 * b1) = b0 * b1)
    /\ ds' = H5Sselect_hyperslab H5S_SELECT_SET [o0; o1] [b0; b1] ds
    /\ stream g' = stream g /\ calls g' = (calls g + 2)%nat
    /\ 0 <= o0 < Z.quot (chunk_dim1 hand) 2
    /\ 0 <= o1 < Z.quot (chunk_dim2 hand) 2
    /\ rectangle_extent (chunk_dim1 hand) p = Some b0
    /\ rectangle_extent (chunk_dim2 hand) p = Some b1
    /\ near_integer_part (chunk_dim1 hand) p b0
    /\ near_integer_part (chunk_dim2 hand) p b1
    /\ (chunk_dim1 hand < 2 ^ 20 -> integer_part (chunk_dim1 hand) p b0)
    /\ (chunk_dim2 hand < 2 ^ 20 -> integer_part (chunk_dim2 hand) p b1)
    /\ o0 + b0 <= chunk_dim1 hand
    /\ o1 + b1 <= chunk_dim2 hand
    /\ H5Sget_select_npoints ds' = b0 * b1
    /\ forall co, co ∈ points (sel ds') ->
         exists r c, co = [r; c]
                     /\ 0 <= r < chunk_dim1 hand /\ 0 <= c < chunk_dim2 hand.
Proof.
  intros Hsel Hrows Hcols Hp Hg.
  destruct (rectangle_selection hand p g ds Hsel Hrows Hcols Hp Hg)
    as (o0 & o1 & b0 & b1 & g' & ds' & E & Hds & Hs & Hc & Ho0 & Ho1 & E0 & E1
        & Hin0 & Hin1 & Hn & Hcount & Hpoints).
  destruct (rectangle_extent_wide (chunk_dim1 hand) p)
    as (b0' & E0' & _ & _ & _ & Hnear0); [clear - Hrows; lia | exact Hp |].
  destruct (rectangle_extent_wide (chunk_dim2 hand) p)
    as (b1' & E1' & _ & _ & _ & Hnear1); [clear - Hcols; lia | exact Hp |].
  rewrite E0 in E0'. injection E0' as <-.
  rewrite E1 in E1'. injection E1' as <-.
  assert (Hf0 : chunk_dim1 hand < 2 ^ 20 -> integer_part (chunk_dim1 hand) p b0).
  { intros Hsmall.
    destruct (rectangle_extent_bounds (chunk_dim1 hand) p)
      as (b & Eb & _ & _ & _ & _ & _ & Hf);
      [unfold INT_MAX; clear - Hrows Hsmall; lia | exact Hp |].
    rewrite E0 in Eb. injection Eb as <-. exact (Hf Hsmall). }
  assert (Hf1 : chunk_dim2 hand < 2 ^ 20 -> integer_part (chunk_dim2 hand) p b1).
  { intros Hsmall.
    destruct (rectangle_extent_bounds (chunk_dim2 hand) p)
      as (b & Eb & _ & _ & _ & _ & _ & Hf);
      [unfold INT_MAX; clear - Hcols Hsmall; lia | exact Hp |].
    rewrite E1 in Eb. injection Eb as <-. exact (Hf Hsmall). }
  exists o0, o1, b0, b1, g', ds'.
  repeat (split; [assumption|]). exact Hpoints.
Qed.

Lemma rectangle_containment_witness :
  exists g' ds',
    create_hyperslab
      {| chunk_dim1 := 10; chunk_dim2 := 100; space_select := 2;
         max_percent := 20; d := 1; v := 0 |} 20 sample_generator
      (H5Screate_simple [10; 100]) = Some (176, g', ds')
    /\ H5Sget_select_npoints ds' = 176.
Proof.
  destruct (rectangle_containment
              {| chunk_dim1 := 10; chunk_dim2 := 100; space_select := 2;
                 max_percent := 20; d := 1; v := 0 |} 20 sample_generator
              (H5Screate_simple [10; 100]))
    as (o0 & o1 & b0 & b1 & g' & ds' & E & _ & _ & _ & _ & _ & _ & E0 & E1 & _
        & _ & _ & _ & _ & _ & Hn & _);
    [reflexivity | simpl; lia | simpl; lia
    | lia | exact sample_generator_in_range |].
  cbn [chunk_dim1 chunk_dim2] in E0, E1.
  vm_compute in E0. vm_compute in E1.
  injection E0 as <-. injection E1 as <-.
  exists g', ds'. split; [exact E | exact Hn].
Defined.

End Rectangle.

(** ** Extents of zero *)

Section Clamp.
Import C Rng.

Lemma to_u64_nonneg x n : Double.to_u64 x = Some n -> 0 <= n.
Proof.
  unfold Double.to_u64. destruct (Double.trunc x) as [z|]; [|discriminate].
  destruct (0 <=? z) eqn:E; [|discriminate].
  destruct (z <? 2 ^ 64); [|discriminate].
  cbn [andb]. intros [= <-]. apply Z.leb_le. exact E.
Qed.

Lemma clamp_max raw : 0 <= raw -> (if raw =? 0 then 1 else raw) = Z.max 1 raw.
Proof.
  intros H. destruct (raw =? 0) eqn:E.
  - apply Z.eqb_eq in E. subst raw. reflexivity.
  - apply Z.eqb_neq in E. lia.
Qed.



Lemma slab_extent_positive this_dim mfrac n :
  FrameWriter.slab_extent this_dim mfrac = Some n -> 1 <= n.
Proof.
  unfold FrameWriter.slab_extent.
  destruct (Double.to_u64 _) as [k|] eqn:E; [|discriminate].
  rewrite (clamp_max k (to_u64_nonneg _ _ E)). intros [= <-]. lia.
Qed.










End Clamp.

(* ===================================================================== *)
(** * Part III: the rest of the programs                                  *)
(* ===================================================================== *)

(** ** Options of [sparse.c] *)

Section SparseOptions.
Import C Sparse.








End SparseOptions.

(** ** The third topology of [sparse.c]: one run in each row *)

Section Contiguous.
Import C Rng Sparse H5S.

Lemma filter_all {A} (f : A -> bool) (l : list A) :
  (forall x, In x l -> f x = true) -> List.filter f l = l.
Proof.
  induction l as [|x l IH]; intros H; [reflexivity|].
  cbn [List.filter]. rewrite (H x (or_introl eq_refl)).
  f_equal. apply IH. intros y Hy. apply H. right. exact Hy.
Qed.

(** Adding a block none of whose coordinates is selected appends it. *)
Lemma select_or_disjoint bs start count :
  box_points start count <> [] ->
  (forall co, co ∈ box_points start count -> co ∉ points bs) ->
  select_hyperslab H5S_SELECT_OR start count bs
  = bs ++ [{| offset := start; extent := count |}].
Proof.
  intros Hne Hfresh. unfold select_hyperslab, block_points.
  cbn [offset extent].
  rewrite filter_all.
  - rewrite Nat.eqb_refl. destruct (box_points start count); [contradiction|].
    reflexivity.
  - intros co Hco. apply negb_true_iff, selected_false, Hfresh.
    apply list_elem_of_In. exact Hco.
Qed.

(** The coordinates of a run of [run] columns from [o] in row [i]. *)
Definition run_of (i o run : Z) : list Coordinate :=
  map (fun k => [i; o + Z.of_nat k]) (seq 0 (Z.to_nat run)).

Lemma box_points_run i o run : box_points [i; o] [1; run] = run_of i o run.
Proof.
  cbn [box_points]. change (Z.to_nat 1) with 1%nat. cbn [seq flat_map].
  rewrite app_nil_r, Z.add_0_r. unfold run_of.
  induction (seq 0 (Z.to_nat run)) as [|k l IH]; [reflexivity|].
  cbn [flat_map map app]. f_equal. exact IH.
Qed.

Lemma run_of_elem i o run co :
  co ∈ run_of i o run <-> exists k, o <= k < o + run /\ co = [i; k].
Proof.
  unfold run_of. rewrite list_elem_of_fmap. split.
  - intros (k & -> & Hk). apply list_elem_of_In, in_seq in Hk.
    exists (o + Z.of_nat k). split; [lia | reflexivity].
  - intros (k & Hk & ->). exists (Z.to_nat (k - o)). split.
    + do 2 f_equal. lia.
    + apply list_elem_of_In, in_seq. lia.
Qed.

Lemma run_of_NoDup i o run : NoDup (run_of i o run).
Proof.
  unfold run_of. apply NoDup_fmap_2_strong.
  - intros x y _ _ H. injection H as H. lia.
  - apply NoDup_ListNoDup, seq_NoDup.
Qed.

Lemma run_of_length i o run :
  0 <= run -> Z.of_nat (length (run_of i o run)) = run.
Proof. intros H. unfold run_of. rewrite length_map, length_seq. lia. Qed.

(** The coordinates of [n] rows from row [i], the run of each at the
    column that the next outcome of the generator gives. *)
Definition runs (room run i : Z) (n : nat) (s : nat -> Z) (c0 : nat)
    : list Coordinate :=
  flat_map (fun r => run_of (i + Z.of_nat r) (s (c0 + r)%nat mod room) run)
           (seq 0 n).

Lemma runs_S room run i n s c0 :
  runs room run i (S n) s c0
  = run_of i (s c0 mod room) run ++ runs room run (i + 1) n s (S c0).
Proof.
  unfold runs. cbn [seq flat_map]. rewrite Z.add_0_r, Nat.add_0_r. f_equal.
  rewrite <- seq_shift, flat_map_concat_map, map_map,
    <- flat_map_concat_map.
  apply flat_map_ext. intros r.
  replace (i + Z.of_nat (S r)) with (i + 1 + Z.of_nat r) by lia.
  replace (c0 + S r)%nat with (S c0 + r)%nat by lia. reflexivity.
Qed.

Lemma runs_elem room run i n s c0 co :
  co ∈ runs room run i n s c0
  <-> exists (r : nat) k,
        (r < n)%nat
        /\ s (c0 + r)%nat mod room <= k < s (c0 + r)%nat mod room + run
        /\ co = [i + Z.of_nat r; k].
Proof.
  unfold runs. rewrite list_elem_of_In, in_flat_map. split.
  - intros (r & Hr & Hco). apply in_seq in Hr.
    apply list_elem_of_In, run_of_elem in Hco. destruct Hco as (k & Hk & ->).
    exists r, k. split; [lia|]. split; [exact Hk | reflexivity].
  - intros (r & k & Hr & Hk & ->). exists r. split; [apply in_seq; lia|].
    apply list_elem_of_In, run_of_elem. exists k. split; [exact Hk | reflexivity].
Qed.

Lemma runs_length room run i n s c0 :
  0 <= run -> Z.of_nat (length (runs room run i n s c0)) = Z.of_nat n * run.
Proof.
  intros Hrun. revert i c0. induction n as [|n IH]; intros i c0; [reflexivity|].
  rewrite runs_S, length_app, Nat2Z.inj_add, run_of_length, IH by exact Hrun.
  lia.
Qed.

Lemma runs_NoDup room run i n s c0 : NoDup (runs room run i n s c0).
Proof.
  revert i c0. induction n as [|n IH]; intros i c0; [constructor|].
  rewrite runs_S. apply NoDup_app. split; [apply run_of_NoDup|].
  split; [|apply IH].
  intros co H1 H2. apply run_of_elem in H1. apply runs_elem in H2.
  destruct H1 as (k & _ & ->). destruct H2 as (r & k' & _ & _ & H).
  injection H as H _. lia.
Qed.

(** The rows after the first: each run is new and is appended. *)
Lemma contiguous_rows_or cols run :
  1 <= run -> run < cols -> cols <= INT_MAX ->
  forall n i g ds,
    0 < i -> i + Z.of_nat n <= INT_MAX ->
    in_range g ->
    (forall co, co ∈ points (sel ds) -> exists r c, co = [r; c] /\ r < i) ->
    exists g' ds',
      contiguous_rows cols run n i (g, ds) = Some (g', ds')
      /\ stream g' = stream g /\ calls g' = (calls g + n)%nat
      /\ dims ds' = dims ds
      /\ points (sel ds')
         = points (sel ds) ++ runs (cols - run) run i n (stream g) (calls g).
Proof.
  intros Hrun Hroom Hcols. unfold INT_MAX in *.
  induction n as [|n IH]; intros i g ds Hi Hin Hg Hrows.
  - exists g, ds. cbn [contiguous_rows]. split; [reflexivity|].
    split; [reflexivity|]. split; [lia|]. split; [reflexivity|].
    unfold runs. cbn [seq flat_map]. symmetry. apply app_nil_r.
  - cbn [contiguous_rows]. unfold rand.
    pose proof (Hg (calls g)) as Hr. unfold RAND_MAX in Hr.
    set (r0 := stream g (calls g)) in *.
    assert (Eroom : u64 (u64 cols - run) = cols - run)
      by (unfold u64; rewrite (Z.mod_small cols) by lia;
          apply Z.mod_small; lia).
    rewrite Eroom.
    replace (cols - run =? 0) with false by lia.
    replace (i =? 0) with false by lia.
    assert (Ei : u64 i = i) by (unfold u64; apply Z.mod_small; lia).
    assert (Er : u64 r0 = r0) by (unfold u64; apply Z.mod_small; lia).
    rewrite Ei, Er.
    assert (Hmod : 0 <= r0 mod (cols - run) < cols - run)
      by (apply Z.mod_pos_bound; lia).
    set (o := r0 mod (cols - run)) in *.
    set (ds1 := H5Sselect_hyperslab H5S_SELECT_OR [i; o] [1; run] ds).
    set (g1 := {| stream := stream g; calls := S (calls g) |}).
    assert (Hp1 : points (sel ds1) = points (sel ds) ++ run_of i o run).
    { unfold ds1, H5Sselect_hyperslab. cbn [sel].
      rewrite select_or_disjoint.
      - rewrite points_app. f_equal. unfold points. cbn [flat_map].
        unfold block_points. cbn [offset extent].
        rewrite box_points_run. apply app_nil_r.
      - rewrite box_points_run. unfold run_of.
        destruct (Z.to_nat run) eqn:E; [lia|]. discriminate.
      - intros co Hco Hsel. rewrite box_points_run in Hco.
        apply run_of_elem in Hco. destruct Hco as (k & _ & ->).
        apply Hrows in Hsel. destruct Hsel as (r & c & H & Hlt).
        injection H as -> _. lia. }
    destruct (IH (i + 1) g1 ds1) as (g' & ds' & E & Hs & Hc & Hd & Hp);
      [lia | lia | exact Hg | |].
    { intros co Hco. rewrite Hp1 in Hco. apply elem_of_app in Hco.
      destruct Hco as [Hco | Hco].
      - apply Hrows in Hco. destruct Hco as (r & c & -> & Hlt).
        exists r, c. split; [reflexivity | lia].
      - apply run_of_elem in Hco. destruct Hco as (k & _ & ->).
        exists i, k. split; [reflexivity | lia]. }
    exists g', ds'. split; [exact E|]. split; [exact Hs|].
    split; [rewrite Hc; cbn [calls g1]; lia|]. split; [exact Hd|].
    rewrite Hp, Hp1, runs_S, <- app_assoc. reflexivity.
Qed.

(** X2: in the third topology, for a chunk of [rows] by [cols] (each from
    1 to [INT_MAX]) and a density [p] from 1 to 20 for which the run
    [cols * p / 100] is not empty, [create_hyperslab] draws one number per
    row and selects in row [r] the [run] columns from
    [rand() % (cols - run)] on: every run lies inside its row of the chunk,
    the selection is exactly these [rows * run] coordinates, none twice,
    and the count returned is their number. *)
Theorem contiguous_rows_selection
    (hand : handler_t) (p : Z) (g : rng) (ds : dataspace) :
  space_select hand = 3 ->
  1 <= chunk_dim1 hand <= INT_MAX ->
  1 <= chunk_dim2 hand <= INT_MAX ->
  1 <= p <= 20 ->
  100 <= chunk_dim2 hand * p ->
  in_range g ->
  let rows := chunk_dim1 hand in
  let cols := chunk_dim2 hand in
  let run := cols * p / 100 in
  let start := fun r : nat => stream g (calls g + r)%nat mod (cols - run) in
  exists g' ds',
    create_hyperslab hand p g ds = Some (rows * run, g', ds')
    /\ stream g' = stream g
    /\ calls g' = (calls g + Z.to_nat rows)%nat
    /\ H5Sget_select_npoints ds' = rows * run
    /\ NoDup (points (sel ds'))
    /\ (forall co,
          co ∈ points (sel ds')
          <-> exists (r : nat) k,
                Z.of_nat r < rows /\ start r <= k < start r + run
                /\ co = [Z.of_nat r; k])
    /\ (forall r : nat, 0 <= start r /\ start r + run <= cols)
    /\ 1 <= run < cols.
Proof.
  intros Hsel Hrows Hcols Hp Hfull Hg rows cols run start.
  unfold INT_MAX in *.
  assert (Hrun : 1 <= run < cols).
  { unfold run. split; [apply Z.div_le_lower_bound; lia|].
    apply Z.div_lt_upper_bound; [lia|]. fold cols. nia. }
  assert (Hstart : forall r : nat, 0 <= start r /\ start r + run <= cols).
  { intros r. unfold start.
    pose proof (Z.mod_pos_bound (stream g (calls g + r)%nat) (cols - run)
                  ltac:(lia)). lia. }
  assert (Eext : contiguous_extent cols p = run).
  { unfold contiguous_extent, s64, u64. fold cols in Hfull.
    assert (H1 : cols * p < 2 ^ 40) by nia.
    replace ((cols * p + 2 ^ 63) mod 2 ^ 64 - 2 ^ 63) with (cols * p)
      by (rewrite Z.mod_small; lia).
    rewrite Z.quot_div_nonneg by lia. fold run. apply Z.mod_small. lia. }
  unfold create_hyperslab.
  replace (p =? 0) with false by lia.
  rewrite Hsel. change (3 =? 1) with false. change (3 =? 2) with false.
  change (3 =? 3) with true. cbv iota.
  change (chunk_dim1 hand) with rows. change (chunk_dim2 hand) with cols.
  rewrite Eext.
  replace (INT_MAX <? rows) with false by (unfold INT_MAX; lia).
  destruct (Z.to_nat rows) as [|n] eqn:En; [lia|].
  cbn [contiguous_rows]. unfold rand.
  pose proof (Hg (calls g)) as Hr. unfold RAND_MAX in Hr.
  set (r0 := stream g (calls g)) in *.
  assert (Eroom : u64 (u64 cols - run) = cols - run)
    by (unfold u64; rewrite (Z.mod_small cols) by lia;
        apply Z.mod_small; lia).
  rewrite Eroom.
  replace (cols - run =? 0) with false by lia.
  change (0 =? 0) with true. cbv iota. change (u64 0) with 0.
  assert (Er : u64 r0 = r0) by (unfold u64; apply Z.mod_small; lia).
  rewrite Er.
  set (o := r0 mod (cols - run)).
  set (ds1 := H5Sselect_hyperslab H5S_SELECT_SET [0; o] [1; run] ds).
  set (g1 := {| stream := stream g; calls := S (calls g) |}).
  assert (Hp1 : points (sel ds1) = run_of 0 o run).
  { unfold ds1, H5Sselect_hyperslab. cbn [sel].
    rewrite select_set_points. apply box_points_run. }
  destruct (contiguous_rows_or cols run ltac:(lia) ltac:(lia)
              ltac:(unfold INT_MAX; lia) n 1 g1 ds1)
    as (g' & ds' & E & Hs & Hc & _ & Hpts);
    [lia | unfold INT_MAX; lia | exact Hg | |].
  { intros co Hco. rewrite Hp1 in Hco. apply run_of_elem in Hco.
    destruct Hco as (k & _ & ->). exists 0, k. split; [reflexivity | lia]. }
  change (0 + 1) with 1. rewrite E.
  assert (Hall : points (sel ds')
                 = runs (cols - run) run 0 (S n) (stream g) (calls g)).
  { rewrite Hpts, Hp1, runs_S. reflexivity. }
  exists g', ds'. split.
  { do 3 f_equal. unfold u64. rewrite (Z.mod_small rows) by lia.
    apply Z.mod_small. nia. }
  split; [exact Hs|]. split; [rewrite Hc; cbn [calls g1]; lia|].
  split.
  { unfold H5Sget_select_npoints. rewrite Hall, runs_length by lia. lia. }
  split; [rewrite Hall; apply runs_NoDup|].
  split; [|split; [exact Hstart | exact Hrun]].
  intros co. rewrite Hall, runs_elem. split.
  - intros (r & k & Hr' & Hk & ->). exists r, k.
    split; [lia|]. split; [exact Hk|]. rewrite Z.add_0_l. reflexivity.
  - intros (r & k & Hr' & Hk & ->). exists r, k.
    split; [lia|]. split; [exact Hk|]. rewrite Z.add_0_l. reflexivity.
Qed.

Lemma contiguous_rows_selection_witness :
  exists g' ds',
    create_hyperslab
      {| chunk_dim1 := 3; chunk_dim2 := 100; space_select := 3;
         max_percent := 10; d := 1; v := 0 |} 10 sample_generator
      (H5Screate_simple [3; 100]) = Some (30, g', ds')
    /\ H5Sget_select_npoints ds' = 30.
Proof.
  destruct (contiguous_rows_selection
              {| chunk_dim1 := 3; chunk_dim2 := 100; space_select := 3;
                 max_percent := 10; d := 1; v := 0 |} 10 sample_generator
              (H5Screate_simple [3; 100]))
    as (g' & ds' & E & _ & _ & Hn & _);
    [reflexivity | unfold INT_MAX; simpl; lia | unfold INT_MAX; simpl; lia
    | lia | simpl; lia | exact sample_generator_in_range |].
  exists g', ds'. split; [exact E | exact Hn].
Defined.

End Contiguous.

(** ** The data and the density levels of [sparse.c] *)

Section SparseLevels.
Import C Rng H5 Sparse.

Lemma generate_data_spec hand n :
  forall i g,
    in_range g -> 0 <= i ->
    exists data g',
      generate_data hand n i g = (data, g')
      /\ length data = n
      /\ stream g' = stream g
      /\ (d hand = 0 ->
          g' = g
          /\ forall k, (k < n)%nat ->
               data !! k = Some ((i + Z.of_nat k + 1) mod 255))
      /\ (d hand <> 0 ->
          calls g' = (calls g + n)%nat
          /\ forall k, (k < n)%nat ->
               data !! k = Some (stream g (calls g + k)%nat mod 255 + 1)).
Proof.
  induction n as [|n IH]; intros i g Hg Hi.
  - exists [], g. cbn [generate_data]. split; [reflexivity|].
    split; [reflexivity|]. split; [reflexivity|].
    split; intros _; (split; [try reflexivity; lia|]); intros k Hk; lia.
  - cbn [generate_data]. destruct (d hand =? 0) eqn:Ed.
    + apply Z.eqb_eq in Ed.
      destruct (IH (i + 1) g Hg ltac:(lia))
        as (data & g' & E & Hl & Hs & H0 & _).
      rewrite E. eexists _, _. split; [reflexivity|].
      split; [cbn [length]; lia|]. split; [exact Hs|].
      split; [|intros Hne; contradiction].
      intros _. destruct (H0 Ed) as [-> Hk]. split; [reflexivity|].
      intros [|k] Hlt.
      * cbn [lookup list_lookup]. f_equal. unfold u8, UCHAR_MAX.
        rewrite Z.add_0_r.
        pose proof (Z.mod_pos_bound (i + 1) 255 ltac:(lia)).
        apply Z.mod_small. lia.
      * cbn [lookup list_lookup]. rewrite Hk by lia. do 2 f_equal. lia.
    + apply Z.eqb_neq in Ed. unfold rand.
      set (g1 := {| stream := stream g; calls := S (calls g) |}).
      destruct (IH (i + 1) g1 Hg ltac:(lia))
        as (data & g' & E & Hl & Hs & _ & H1).
      rewrite E. eexists _, _. split; [reflexivity|].
      split; [cbn [length]; lia|]. split; [exact Hs|].
      split; [intros H0; contradiction|].
      intros _. destruct (H1 Ed) as [Hc Hk].
      split; [rewrite Hc; cbn [calls g1]; lia|].
      intros [|k] Hlt.
      * cbn [lookup list_lookup]. f_equal. unfold u8, UCHAR_MAX.
        rewrite Nat.add_0_r.
        pose proof (Z.mod_pos_bound (stream g (calls g)) 255 ltac:(lia)).
        apply Z.mod_small. lia.
      * cbn [lookup list_lookup]. rewrite Hk by lia.
        cbn [stream calls g1]. do 4 f_equal. lia.
Qed.

(** X3: the values [main] of [sparse.c] generates for the [nelemts] defined
    elements.  With [d = 0] the generator is not used and the element of
    index [k] is [(k + 1) mod 255]: 1, 2, ..., 254, then 0, then 1 again,
    so that the element of index 254 is 0 and 255 never occurs.  With
    [d <> 0] each element takes one outcome of [rand] and is
    [rand() % 255 + 1], from 1 to 255, never 0. *)
Theorem generated_values (hand : handler_t) (n : nat) (g : rng) :
  in_range g ->
  exists data g',
    generate_data hand n 0 g = (data, g')
    /\ length data = n
    /\ (d hand = 0 ->
        g' = g
        /\ (forall k, (k < n)%nat -> data !! k = Some (Z.of_nat (S k) mod 255))
        /\ Forall (fun x => 0 <= x <= 254) data
        /\ ((254 < n)%nat -> data !! 254%nat = Some 0))
    /\ (d hand <> 0 ->
        stream g' = stream g
        /\ calls g' = (calls g + n)%nat
        /\ (forall k, (k < n)%nat ->
              data !! k = Some (stream g (calls g + k)%nat mod 255 + 1))
        /\ Forall (fun x => 1 <= x <= 255) data).
Proof.
  intros Hg.
  destruct (generate_data_spec hand n 0 g Hg ltac:(lia))
    as (data & g' & E & Hl & Hs & H0 & H1).
  exists data, g'. split; [exact E|]. split; [exact Hl|]. split.
  - intros Hd. destruct (H0 Hd) as [-> Hk]. split; [reflexivity|].
    assert (Hk' : forall k, (k < n)%nat ->
                    data !! k = Some (Z.of_nat (S k) mod 255)).
    { intros k Hlt. rewrite Hk by exact Hlt. do 2 f_equal. lia. }
    split; [exact Hk'|]. split.
    + apply Forall_lookup. intros k x Hx.
      assert (Hlt : (k < n)%nat)
        by (rewrite <- Hl; eapply lookup_lt_Some; exact Hx).
      rewrite Hk' in Hx by exact Hlt. injection Hx as <-.
      pose proof (Z.mod_pos_bound (Z.of_nat (S k)) 255 ltac:(lia)). lia.
    + intros Hlt. rewrite Hk' by exact Hlt. reflexivity.
  - intros Hd. destruct (H1 Hd) as [Hc Hk].
    split; [exact Hs|]. split; [exact Hc|]. split; [exact Hk|].
    apply Forall_lookup. intros k x Hx.
    assert (Hlt : (k < n)%nat)
      by (rewrite <- Hl; eapply lookup_lt_Some; exact Hx).
    rewrite Hk in Hx by exact Hlt. injection Hx as <-.
    pose proof (Z.mod_pos_bound (stream g (calls g + k)%nat) 255 ltac:(lia)).
    lia.
Qed.

Lemma generated_values_witness :
  exists data g',
    generate_data
      {| chunk_dim1 := 10; chunk_dim2 := 100; space_select := 1;
         max_percent := 10; d := 0; v := 0 |} 256 0 sample_generator
      = (data, g')
    /\ data !! 253%nat = Some 254 /\ data !! 254%nat = Some 0
    /\ data !! 255%nat = Some 1.
Proof.
  destruct (generated_values
              {| chunk_dim1 := 10; chunk_dim2 := 100; space_select := 1;
                 max_percent := 10; d := 0; v := 0 |} 256 sample_generator
              sample_generator_in_range)
    as (data & g' & E & _ & H0 & _).
  destruct (H0 eq_refl) as (_ & Hk & _ & _).
  exists data, g'. split; [exact E|].
  split; [exact (Hk 253%nat ltac:(lia))|].
  split; [exact (Hk 254%nat ltac:(lia)) | exact (Hk 255%nat ltac:(lia))].
Defined.

End SparseLevels.

(** ** The run of [sparse.c] *)

Section SparseRun.
Import C Rng H5 Sparse.






Definition writes (tr : list event) : list event :=
  List.filter (fun e => match e with H5Dwrite _ _ _ _ => true | _ => false end)
              tr.











End SparseRun.

(** ** Options and elements of [vl.c] *)

Section VlProgram.
Import C Rng Vl.









(** What an element holds: from 1 to [max_len] bytes; with [d = 0] the
    byte of index [j] is [j], kept on eight bits; with [d <> 0] every byte
    is [rand() % CHAR_MAX], from 0 to 126. *)
Definition element_content (hand : handler_t) (e : hvl_t) : Prop :=
  1 <= len e <= max_len hand
  /\ Z.of_nat (length (p e)) = len e
  /\ (d hand = 0 ->
      forall j, (j < length (p e))%nat -> p e !! j = Some (Z.of_nat j mod 256))
  /\ (d hand <> 0 -> Forall (fun x => 0 <= x <= 126) (p e)).

Lemma fill_content hand n :
  forall j g,
    0 <= j ->
    (d hand = 0 ->
     forall k, (k < n)%nat ->
       (fill hand n j g).1 !! k = Some ((j + Z.of_nat k) mod 256))
    /\ (d hand <> 0 -> Forall (fun x => 0 <= x <= 126) (fill hand n j g).1).
Proof.
  induction n as [|n IH]; intros j g Hj.
  - split; [intros _ k Hk; lia | intros _; constructor].
  - cbn [fill]. destruct (d hand =? 0) eqn:Ed.
    + apply Z.eqb_eq in Ed. destruct (IH (j + 1) g ltac:(lia)) as [H0 _].
      destruct (fill hand n (j + 1) g) as [l g'] eqn:E. cbn [fst] in *.
      split; [|intros Hne; contradiction].
      intros _ [|k] Hk; cbn [lookup list_lookup].
      * rewrite Z.add_0_r. reflexivity.
      * etransitivity; [exact (H0 Ed k ltac:(lia))|]. do 2 f_equal. lia.
    + apply Z.eqb_neq in Ed. unfold rand.
      match goal with
      | |- context [fill hand n (j + 1) ?g1] =>
          destruct (IH (j + 1) g1 ltac:(lia)) as [_ H1];
          destruct (fill hand n (j + 1) g1) as [l g'] eqn:E
      end.
      cbn [fst] in *. split; [intros H0; contradiction|].
      intros _. constructor; [|exact (H1 Ed)].
      unfold u8, CHAR_MAX.
      pose proof (Z.mod_pos_bound (stream g (calls g)) 127 ltac:(lia)).
      rewrite (Z.mod_small (_ mod 127)) by lia. lia.
Qed.

Lemma add_element_content hand g s g1 s1 :
  valid hand -> in_range g ->
  add_element hand g s = Some (g1, s1) ->
  stream g1 = stream g
  /\ exists e, vl_data s1 = vl_data s ++ [e] /\ element_content hand e.
Proof.
  intros (Hn & Hm & Hd) Hg. unfold add_element, rand.
  replace (max_len hand =? 0) with false by lia.
  pose proof (Hg (calls g)) as Hr.
  set (r := stream g (calls g)) in *.
  assert (Hrem : 0 <= Z.rem r (max_len hand) < max_len hand).
  { rewrite Z.rem_mod_nonneg by lia. apply Z.mod_pos_bound; lia. }
  assert (Hu : u64 (Z.rem r (max_len hand) + 1) = Z.rem r (max_len hand) + 1).
  { unfold u64. apply Z.mod_small. unfold INT_MAX in *. lia. }
  rewrite Hu. set (n := Z.rem r (max_len hand) + 1) in *.
  set (g0 := {| stream := stream g; calls := S (calls g) |}).
  pose proof (fill_length hand (Z.to_nat n) 0 g0) as Hfill.
  pose proof (fill_stream hand (Z.to_nat n) 0 g0) as Hstream.
  pose proof (fill_content hand (Z.to_nat n) 0 g0 ltac:(lia)) as [H0 H1].
  destruct (fill hand (Z.to_nat n) 0 g0) as [bytes g2].
  cbn [fst snd] in *. intros [= <- <-]. split; [exact Hstream|].
  eexists. split; [reflexivity|]. unfold element_content. cbn [len p].
  split; [lia|]. split; [lia|]. split.
  - intros Hz j Hlt. rewrite (H0 Hz j) by lia. rewrite Z.add_0_l. reflexivity.
  - exact H1.
Qed.

Lemma elements_content hand n :
  valid hand ->
  forall g s g1 s1,
    in_range g ->
    Forall (element_content hand) (vl_data s) ->
    elements hand n g s = Some (g1, s1) ->
    Forall (element_content hand) (vl_data s1).
Proof.
  intros Hv. induction n as [|n IH]; intros g s g1 s1 Hg Hs.
  - cbn [elements]. intros [= <- <-]. exact Hs.
  - cbn [elements].
    destruct (add_element hand g s) as [[g0 s0]|] eqn:E; [|discriminate].
    destruct (add_element_content hand g s g0 s0 Hv Hg E)
      as (Hst & e & Hvl & He).
    apply IH.
    + intros k. rewrite Hst. apply Hg.
    + rewrite Hvl. apply Forall_app. split; [exact Hs|].
      constructor; [exact He | constructor].
Qed.

Lemma lengths_between hand l :
  Forall (element_content hand) l ->
  Z.of_nat (length l) <= lengths l <= Z.of_nat (length l) * max_len hand.
Proof.
  induction 1 as [|e l (He & _) _ IH]; unfold lengths in *;
    cbn [map fold_right length]; [lia|].
  rewrite Nat2Z.inj_succ. lia.
Qed.

(** X6: for every valid configuration and every outcome of the generator,
    each variable-length element that [create_dsets] of [vl.c] writes has
    from 1 to [max_len] bytes; its bytes are 0, 1, 2, ... (on eight bits)
    when [d] is 0 and numbers from 0 to 126 otherwise; and the blob has
    between [nelemts] and [nelemts * max_len] bytes. *)
Theorem element_contents (hand : handler_t) (g : rng) :
  valid hand -> in_range g ->
  exists out,
    create_dsets hand g = Some out
    /\ Forall (element_content hand) (vl_dset out)
    /\ nelemts hand <= data_dims out <= nelemts hand * max_len hand
    /\ Z.of_nat (length (data out)) = data_dims out.
Proof.
  intros Hv Hg. pose proof Hv as (Hn & Hm & Hd).
  destruct (elements_indexed hand (Z.to_nat (nelemts hand)) g
              {| vl_data := []; the_pairs := []; offset := 0; total_len := 0 |}
              Hv Hg) as (g1 & s & E & (Hok & _ & _ & Ht) & Hl).
  { repeat split; constructor. }
  { simpl; lia. }
  pose proof (elements_content hand _ Hv g
                {| vl_data := []; the_pairs := []; offset := 0;
                   total_len := 0 |} g1 s Hg (List.Forall_nil _) E) as Hc.
  unfold create_dsets. replace (INT_MAX <? nelemts hand) with false by lia.
  rewrite E. eexists. split; [reflexivity|].
  cbn [vl_dset data_dims data]. split; [exact Hc|].
  pose proof (lengths_between hand _ Hc) as Hb.
  cbn [vl_data length] in Hl. rewrite Hl in Hb.
  split; [rewrite Ht; lia|].
  rewrite copy_all_concat. cbn [app]. rewrite Ht.
  apply concat_length_lengths. exact Hok.
Qed.

Lemma element_contents_witness :
  exists out,
    create_dsets {| nelemts := 3; max_len := 4; d := 0 |} sample_generator
      = Some out
    /\ map p (vl_dset out) = [[0; 1]; [0]; [0; 1; 2; 3]].
Proof.
  destruct (element_contents {| nelemts := 3; max_len := 4; d := 0 |}
              sample_generator) as (out & E & _).
  - unfold valid, INT_MAX; simpl; lia.
  - exact sample_generator_in_range.
  - exists out. split; [exact E|].
    vm_compute in E. inversion E. reflexivity.
Defined.

End VlProgram.

(** ** The reader and the files of [mm2h5.c] *)

Section Mm2h5Reader.
Import C Rng H5 Mm2h5.

Definition is_triplet (l : line) : bool :=
  match l with triplet _ _ _ => true | _ => false end.

Lemma triplets_none fp : Forall (fun l => is_triplet l = false) fp -> triplets fp = [].
Proof.
  induction 1 as [|l fp Hl _ IH]; [reflexivity|].
  destruct l; try discriminate; exact IH.
Qed.

Lemma read_dimensions_header pre x y z rest :
  Forall (fun l => is_triplet l = false) pre ->
  forall X Y, read_dimensions (pre ++ triplet x y z :: rest) X Y = (x, y, rest).
Proof.
  induction 1 as [|l pre Hl _ IH]; intros X Y; [reflexivity|].
  destruct l as [|[|x0 [|y0 conv]]|]; try discriminate;
    cbn [app read_dimensions]; apply IH.
Qed.

Lemma read_dimensions_no_triplet fp :
  Forall (fun l => is_triplet l = false) fp ->
  forall X Y, exists X' Y', read_dimensions fp X Y = (X', Y', []).
Proof.
  induction 1 as [|l fp Hl _ IH]; intros X Y; [eexists _, _; reflexivity|].
  destruct l as [|[|x0 [|y0 conv]]|]; try discriminate;
    cbn [read_dimensions]; apply IH.
Qed.

Lemma read_dimensions_quiet fp :
  Forall (fun l => l = blank \/ l = malformed []) fp ->
  forall X Y, read_dimensions fp X Y = (X, Y, []).
Proof.
  induction 1 as [|l fp [-> | ->] _ IH]; intros X Y;
    [reflexivity | apply IH | apply IH].
Qed.

(** X7: the header of the text file of [mm2h5.c].  The dimensions are the
    first two numbers of the first line that holds a triplet, whatever
    comes before it: comments, blank lines and lines on which fewer than
    three numbers convert; the lines after it are the data.  A file with
    no triplet leaves no data, and one with nothing but comments, blank
    lines and lines that start with no number leaves the dimensions 0,
    with which [main] fails before it creates the file. *)
Theorem header_dimensions :
  (forall pre x y z rest X Y,
      Forall (fun l => is_triplet l = false) pre ->
      read_dimensions (pre ++ triplet x y z :: rest) X Y = (x, y, rest))
  /\ (forall fp X Y,
        Forall (fun l => is_triplet l = false) fp ->
        exists X' Y', read_dimensions fp X Y = (X', Y', []))
  /\ (forall fp args h5_file file_id get g,
        Forall (fun l => l = blank \/ l = malformed []) fp ->
        main args h5_file file_id (Some fp) get g = Some failure).
Proof.
  split; [|split].
  - intros pre x y z rest X Y Hpre. apply read_dimensions_header. exact Hpre.
  - intros fp X Y Hfp. apply read_dimensions_no_triplet. exact Hfp.
  - intros fp args h5_file file_id get g Hfp. unfold main.
    destruct (argc args <? 5); [reflexivity|].
    destruct (_ || _); [reflexivity|].
    rewrite (read_dimensions_quiet fp Hfp). reflexivity.
Qed.

Lemma header_dimensions_witness :
  read_dimensions
    ([blank; malformed [3; 4]] ++ triplet 5 6 7 :: [triplet 1 1 9]) 0 0
  = (5, 6, [triplet 1 1 9]).
Proof.
  destruct header_dimensions as (H & _ & _).
  apply H. repeat constructor.
Defined.

Lemma has_dot_app s1 s2 : has_dot (s1 +:+ s2) = has_dot s1 || has_dot s2.
Proof.
  induction s1 as [|c s1 IH]; [reflexivity|].
  simpl. rewrite IH. apply orb_assoc.
Qed.

Lemma cut_last_dot_none s : has_dot s = false -> cut_last_dot s = s.
Proof.
  induction s as [|c s IH]; [reflexivity|].
  cbn [has_dot cut_last_dot]. intros H. apply orb_false_iff in H.
  destruct H as [Hc Hs]. rewrite Hc. cbn [andb]. f_equal. exact (IH Hs).
Qed.

Lemma cut_last_dot_ext base ext :
  has_dot ext = false -> cut_last_dot (base +:+ "." +:+ ext) = base.
Proof.
  intros Hext. induction base as [|c base IH].
  - change ("" +:+ "." +:+ ext) with (String dot ext).
    cbn [cut_last_dot]. rewrite Hext. reflexivity.
  - change (String c base +:+ "." +:+ ext)
      with (String c (base +:+ "." +:+ ext)).
    cbn [cut_last_dot]. rewrite IH, has_dot_app.
    change (has_dot ("." +:+ ext)) with (has_dot (String dot ext)).
    cbn [has_dot]. change (Ascii.eqb dot dot) with true.
    cbn [orb]. rewrite orb_true_r, andb_false_r. reflexivity.
Qed.

(** X8: the name [mm2h5.c] gives its HDF5 file, for a text file whose name
    has fewer than 128 characters and a level from 0 to 9: the name cut at
    its last dot (kept whole when it has no dot), then [_gzip], the level
    and [.h5].  Only what follows the last dot goes: [a.b.txt] gives
    [a.b_gzip6.h5]; and a dot in the directory counts when the file has
    no extension: [./matrix] gives [_gzip6.h5]. *)
Theorem derived_file_name (txt_file : string) (gzip_level : Z) :
  (String.length txt_file < 128)%nat ->
  0 <= gzip_level <= 9 ->
  exists digit,
    Ascii.nat_of_ascii digit = (48 + Z.to_nat gzip_level)%nat
    /\ (has_dot txt_file = false ->
        h5_file_name txt_file gzip_level
        = Some (txt_file +:+ "_gzip" +:+ String digit ".h5"))
    /\ (forall base ext,
          txt_file = base +:+ "." +:+ ext -> has_dot ext = false ->
          h5_file_name txt_file gzip_level
          = Some (base +:+ "_gzip" +:+ String digit ".h5")).
Proof.
  intros Hlen Hlevel.
  exists (Ascii.ascii_of_nat (48 + Z.to_nat gzip_level)).
  split; [apply Ascii.nat_ascii_embedding; lia|].
  unfold h5_file_name.
  replace (128 <=? String.length txt_file)%nat with false
    by (symmetry; apply Nat.leb_gt; exact Hlen).
  split.
  - intros Hdot. rewrite (cut_last_dot_none _ Hdot). reflexivity.
  - intros base ext -> Hext. rewrite (cut_last_dot_ext _ _ Hext). reflexivity.
Qed.

Lemma derived_file_name_witness :
  h5_file_name "a.b.txt" 6 = Some "a.b_gzip6.h5"
  /\ h5_file_name "./matrix" 6 = Some "_gzip6.h5".
Proof.
  destruct (derived_file_name "a.b.txt" 6) as (digit & Hd & _ & H);
    [simpl; lia | lia |].
  destruct (derived_file_name "./matrix" 6) as (digit' & Hd' & _ & H');
    [simpl; lia | lia |].
  assert (E : digit = Ascii.ascii_of_nat 54).
  { rewrite <- (Ascii.ascii_nat_embedding digit), Hd. reflexivity. }
  assert (E' : digit' = Ascii.ascii_of_nat 54).
  { rewrite <- (Ascii.ascii_nat_embedding digit'), Hd'. reflexivity. }
  subst digit digit'. split.
  - apply (H "a.b" "txt"); reflexivity.
  - apply (H' "" "/matrix"); reflexivity.
Defined.

End Mm2h5Reader.

(** ** Groups, the buffer of the points and the end of [mm2h5.c] *)

Section Mm2h5Groups.
(** The event one group leaves in the trace, as defined for the write
    loop above; the name is taken again by a field of [Mm2h5.execution]. *)
Local Abbreviation group_written := written (only parsing).
Import C Rng H5 Mm2h5.

(** The triplets cut into runs of one key: a new run starts where the
    second number changes. *)
Fixpoint runs_by_key (ts : list point_t) : list (list point_t) :=
  match ts with
  | [] => []
  | t :: ts' =>
      match runs_by_key ts' with
      | (t' :: r) :: rs =>
          if b t =? b t' then (t :: t' :: r) :: rs
          else [t] :: (t' :: r) :: rs
      | _ => [[t]]
      end
  end.

(** The next triplet, when there is one, has another key than [y]. *)
Definition next_differs (y : Z) (ts : list point_t) : Prop :=
  match ts with
  | [] => True
  | t :: _ => b t <> y
  end.

Lemma runs_by_key_head t ts :
  exists r rs, runs_by_key (t :: ts) = (t :: r) :: rs.
Proof.
  cbn [runs_by_key]. destruct (runs_by_key ts) as [|[|t' r] rs];
    try (eexists _, _; reflexivity).
  destruct (b t =? b t'); eexists _, _; reflexivity.
Qed.

Lemma runs_by_key_app y g rest :
  g <> [] -> Forall (fun t => b t = y) g -> next_differs y rest ->
  runs_by_key (g ++ rest) = g :: runs_by_key rest.
Proof.
  intros Hne Hy Hnext. induction g as [|t g IH]; [contradiction|].
  destruct g as [|t2 g].
  - cbn [app]. destruct rest as [|t' rest]; [reflexivity|].
    destruct (runs_by_key_head t' rest) as (r & rs & E).
    cbn [runs_by_key] in *. rewrite E.
    apply Forall_inv in Hy. cbn [next_differs] in Hnext.
    replace (b t =? b t') with false by lia. reflexivity.
  - assert (H2 : runs_by_key ((t2 :: g) ++ rest)
                 = (t2 :: g) :: runs_by_key rest).
    { apply IH; [discriminate|]. apply Forall_inv_tail in Hy. exact Hy. }
    change ((t :: t2 :: g) ++ rest) with (t :: ((t2 :: g) ++ rest)).
    cbn [runs_by_key] in *. rewrite H2.
    pose proof (Forall_inv Hy) as H1.
    pose proof (Forall_inv (Forall_inv_tail Hy)) as H3. cbn beta in H1, H3.
    replace (b t =? b t2) with true by lia. reflexivity.
Qed.

Lemma same_y_run y fp :
  forall acc g fp2,
    same_y y fp acc = (g, fp2) ->
    Forall (fun t => b t = y) acc ->
    Forall (fun t => b t = y) g
    /\ next_differs y (triplets fp2)
    /\ (length acc <= length g)%nat.
Proof.
  induction fp as [|l fp IH]; intros acc g fp2; cbn [same_y].
  - intros [= <- <-] Hacc. split; [exact Hacc|]. split; [exact I | lia].
  - destruct l as [|conv|x2 y2 z2]; try (apply IH).
    destruct (y2 =? y) eqn:Ey.
    + intros H Hacc. apply Z.eqb_eq in Ey. apply IH in H.
      * destruct H as (H1 & H2 & H3). rewrite length_app in H3.
        cbn [length] in H3. split; [exact H1|]. split; [exact H2 | lia].
      * apply Forall_app. split; [exact Hacc|].
        constructor; [exact Ey | constructor].
    + intros [= <- <-] Hacc. apply Z.eqb_neq in Ey.
      split; [exact Hacc|]. split; [exact Ey | lia].
Qed.

Lemma first_triplet_none fp : first_triplet fp = None <-> triplets fp = [].
Proof.
  induction fp as [|l fp IH]; [split; reflexivity|].
  destruct l; cbn [first_triplet triplets]; try exact IH.
  split; discriminate.
Qed.

Lemma read_next_group_run fp g y fp' :
  read_next_group fp = Some (g, y, fp') ->
  g <> [] /\ Forall (fun t => b t = y) g
  /\ triplets fp = g ++ triplets fp'
  /\ next_differs y (triplets fp').
Proof.
  intros H. pose proof (read_next_group_triplets _ _ _ _ H) as Ht.
  unfold read_next_group in H.
  destruct (first_triplet fp) as [[[[x y0] z] fp1]|]; [|discriminate].
  destruct (same_y y0 fp1 [(x, y0, z)]) as [g0 fp2] eqn:E2.
  injection H as <- <- <-.
  apply same_y_run in E2; [|constructor; [reflexivity | constructor]].
  destruct E2 as (H1 & H2 & H3). cbn [length] in H3.
  split; [destruct g0; [cbn [length] in H3; lia | discriminate]|].
  split; [exact H1|]. split; [exact Ht | exact H2].
Qed.

Lemma read_next_group_none fp :
  read_next_group fp = None <-> triplets fp = [].
Proof.
  unfold read_next_group. rewrite <- first_triplet_none.
  destruct (first_triplet fp) as [[[[x y0] z] fp1]|].
  - destruct (same_y y0 fp1 [(x, y0, z)]). split; discriminate.
  - split; reflexivity.
Qed.

(** X9: what [read_next_group] of [mm2h5.c] returns.  It returns 0 exactly
    when no triplet is left in the file.  Otherwise its group is not
    empty, all its triplets have the key [y_value], it is made of the
    next triplets of the file in their order, and the triplet that follows
    in the file, if any, has another key: the group is the whole run of
    this key, and the file is left at the start of the next run. *)
Theorem next_group_is_run (fp : list line) :
  (read_next_group fp = None <-> triplets fp = [])
  /\ forall g y fp',
       read_next_group fp = Some (g, y, fp') ->
       g <> []
       /\ Forall (fun t => b t = y) g
       /\ triplets fp = g ++ triplets fp'
       /\ next_differs y (triplets fp')
       /\ runs_by_key (triplets fp) = g :: runs_by_key (triplets fp')
       /\ (length fp' < length fp)%nat.
Proof.
  split.
  - apply read_next_group_none.
  - intros g y fp' H.
    destruct (read_next_group_run _ _ _ _ H) as (Hne & Hy & Ht & Hn).
    split; [exact Hne|]. split; [exact Hy|]. split; [exact Ht|].
    split; [exact Hn|]. split.
    + rewrite Ht. apply (runs_by_key_app y); assumption.
    + eapply read_next_group_shorter. exact H.
Qed.

Lemma next_group_is_run_witness :
  runs_by_key
    (triplets [triplet 1 5 9; blank; triplet 2 5 8; triplet 1 6 7])
  = [(1, 5, 9); (2, 5, 8)] :: runs_by_key (triplets [triplet 1 6 7]).
Proof.
  destruct (next_group_is_run
              [triplet 1 5 9; blank; triplet 2 5 8; triplet 1 6 7])
    as [_ H].
  destruct (H [(1, 5, 9); (2, 5, 8)] 5 [triplet 1 6 7] eq_refl)
    as (_ & _ & _ & _ & Hr & _).
  exact Hr.
Defined.

(** What the write loop keeps true of the buffer of the points once the
    first group is stored: the capacity is at least [bound] and lies
    between the number of points and twice this number. *)
Definition buffer_ok (bound : Z) (s : ingest) : Prop :=
  bound <= cap_points s
  /\ Z.of_nat (length (points s)) <= cap_points s
     <= 2 * Z.of_nat (length (points s)).

Lemma write_group_fits dims group s bound :
  buffer_ok bound s ->
  1 <= Z.of_nat (length group) <= bound ->
  Z.of_nat (length (points s)) + Z.of_nat (length group) < 2 ^ 62 ->
  exists s',
    write_group dims group s = Some s'
    /\ buffer_ok bound s'
    /\ points s' = points s ++ map decrement group.
Proof.
  intros (Hb & Hlo & Hhi) Hn Hsmall. unfold write_group.
  set (n := Z.of_nat (length group)) in *.
  set (total := Z.of_nat (length (points s))) in *.
  assert (Hu : u64 (total + n) = total + n)
    by (unfold u64; apply Z.mod_small; lia).
  assert (Hc : u64 (cap_points s * 2) = cap_points s * 2)
    by (unfold u64; apply Z.mod_small; lia).
  rewrite Hu, Hc.
  replace (cap_points s =? 0) with false by lia.
  destruct (total + n >? cap_points s) eqn:Egt.
  - replace (total + n >? cap_points s * 2) with false by lia.
    eexists. split; [reflexivity|]. split; [|reflexivity].
    unfold buffer_ok. cbn [cap_points points].
    rewrite length_app, length_map, Nat2Z.inj_add. fold n total. lia.
  - rewrite Egt. eexists. split; [reflexivity|]. split; [|reflexivity].
    unfold buffer_ok. cbn [cap_points points].
    rewrite length_app, length_map, Nat2Z.inj_add. fold n total. lia.
Qed.

Lemma write_groups_fit dims bound k :
  forall fp s,
    (length fp <= k)%nat ->
    buffer_ok bound s ->
    Forall (fun r => Z.of_nat (length r) <= bound)
           (runs_by_key (triplets fp)) ->
    Z.of_nat (length (points s)) + Z.of_nat (length (triplets fp)) < 2 ^ 62 ->
    exists s',
      write_groups dims fp s = Some s'
      /\ points s' = points s ++ map decrement (triplets fp).
Proof.
  induction k as [|k IH]; intros fp s Hk Hs Hruns Hsmall;
    rewrite write_groups_step.
  - destruct fp; [|cbn [length] in Hk; lia].
    exists s. split; [reflexivity|]. symmetry. apply app_nil_r.
  - destruct (read_next_group fp) as [[[g y] fp']|] eqn:E.
    + destruct (read_next_group_run _ _ _ _ E) as (Hne & Hy & Ht & Hnx).
      pose proof (read_next_group_shorter _ _ _ _ E) as Hlt.
      rewrite Ht, (runs_by_key_app y) in Hruns by assumption.
      rewrite Ht, length_app, Nat2Z.inj_add in Hsmall.
      destruct (write_group_fits dims g s bound Hs) as (s1 & E1 & Hs1 & Hp1).
      { split; [destruct g; [contradiction | cbn [length]; lia]|].
        exact (Forall_inv Hruns). }
      { lia. }
      rewrite E1.
      destruct (IH fp' s1 ltac:(lia) Hs1 (Forall_inv_tail Hruns))
        as (s' & E' & Hp').
      { rewrite Hp1, length_app, length_map, Nat2Z.inj_add. lia. }
      exists s'. split; [exact E'|].
      rewrite Hp', Hp1, Ht, map_app, app_assoc. reflexivity.
    + exists s. split; [reflexivity|].
      apply read_next_group_none in E. rewrite E. symmetry. apply app_nil_r.
Qed.

Lemma write_groups_runs dims k :
  forall fp s0 s,
    (length fp <= k)%nat ->
    write_groups dims fp s0 = Some s ->
    exists writes,
      trace s = trace s0 ++ writes
      /\ Forall2 group_written (runs_by_key (triplets fp)) writes
      /\ group_count s
         = group_count s0 + Z.of_nat (length (runs_by_key (triplets fp))).
Proof.
  induction k as [|k IH]; intros fp s0 s Hk; rewrite write_groups_step.
  - destruct fp; [|cbn [length] in Hk; lia].
    intros [= <-]. exists []. rewrite app_nil_r.
    split; [reflexivity|]. split; [constructor | cbn; lia].
  - destruct (read_next_group fp) as [[[g y] fp']|] eqn:E.
    + destruct (read_next_group_run _ _ _ _ E) as (Hne & Hy & Ht & Hnx).
      pose proof (read_next_group_shorter _ _ _ _ E) as Hlt.
      destruct (write_group dims g s0) as [s1|] eqn:E1; [|discriminate].
      intros Hw. apply IH in Hw; [|lia].
      destruct Hw as (ws & Htr & Hws & Hgc).
      assert (Hc1 : group_count s1 = group_count s0 + 1).
      { unfold write_group in E1.
        destruct (_ >? _) in E1; [discriminate|].
        injection E1 as <-. reflexivity. }
      destruct (write_group_spec _ _ _ _ E1) as (_ & ev & Hev & Hwr).
      exists (ev :: ws). rewrite Ht, (runs_by_key_app y) by assumption.
      split; [rewrite Htr, Hev, <- app_assoc; reflexivity|].
      split; [constructor; assumption|].
      cbn [length]. lia.
    + intros [= <-]. apply read_next_group_none in E. rewrite E.
      exists []. rewrite app_nil_r.
      split; [reflexivity|]. split; [constructor | cbn; lia].
Qed.

(** X10: the write loop of [mm2h5.c] and its buffer of the points.  When
    the file has fewer than 2^62 triplets and no run of one key is longer
    than twice the first run, the loop never stores a point outside the
    buffer it has allocated: it ends, having stored every triplet of the
    file in the order of the file with its two coordinates decremented,
    and having written one selection per run of one key, in the order of
    the runs; [group_count] is the number of the runs. *)
Theorem points_buffer_safe (dims : list Z) (fp : list line) (s0 : ingest) :
  points s0 = [] ->
  cap_points s0 = 0 ->
  Z.of_nat (length (triplets fp)) < 2 ^ 62 ->
  (forall first rest,
     runs_by_key (triplets fp) = first :: rest ->
     Forall (fun r => Z.of_nat (length r) <= 2 * Z.of_nat (length first))
            rest) ->
  exists s writes,
    write_groups dims fp s0 = Some s
    /\ points s = map decrement (triplets fp)
    /\ trace s = trace s0 ++ writes
    /\ Forall2 group_written (runs_by_key (triplets fp)) writes
    /\ group_count s
       = group_count s0 + Z.of_nat (length (runs_by_key (triplets fp))).
Proof.
  intros Hp0 Hc0 Hsmall Hruns.
  assert (Hs : exists s, write_groups dims fp s0 = Some s
                         /\ points s = map decrement (triplets fp)).
  { rewrite write_groups_step.
    destruct (read_next_group fp) as [[[g y] fp']|] eqn:E.
    - destruct (read_next_group_run _ _ _ _ E) as (Hne & Hy & Ht & Hnx).
      specialize (Hruns g (runs_by_key (triplets fp'))).
      rewrite Ht, (runs_by_key_app y) in Hruns by assumption.
      specialize (Hruns eq_refl).
      rewrite Ht, length_app, Nat2Z.inj_add in Hsmall.
      assert (Hn : 1 <= Z.of_nat (length g))
        by (destruct g; [contradiction | cbn [length]; lia]).
      assert (E1 : exists s1,
                 write_group dims g s0 = Some s1
                 /\ buffer_ok (2 * Z.of_nat (length g)) s1
                 /\ points s1 = map decrement g).
      { unfold write_group. rewrite Hp0, Hc0. cbn [length app].
        change (Z.of_nat 0) with 0. rewrite !Z.add_0_l.
        assert (Hu : u64 (Z.of_nat (length g)) = Z.of_nat (length g))
          by (unfold u64; apply Z.mod_small; lia).
        assert (Hd : u64 (Z.of_nat (length g) * 2) = Z.of_nat (length g) * 2)
          by (unfold u64; apply Z.mod_small; lia).
        rewrite Hu, Hd. change (0 =? 0) with true.
        replace (Z.of_nat (length g) >? 0) with true by lia.
        replace (Z.of_nat (length g) >? Z.of_nat (length g) * 2)
          with false by lia.
        eexists. split; [reflexivity|]. split; [|reflexivity].
        unfold buffer_ok. cbn [cap_points points].
        rewrite length_map. lia. }
      destruct E1 as (s1 & E1 & Hs1 & Hp1). rewrite E1.
      destruct (write_groups_fit dims (2 * Z.of_nat (length g))
                  (length fp') fp' s1 (le_n _) Hs1 Hruns)
        as (s & Es & Hps).
      { rewrite Hp1, length_map. lia. }
      exists s. split; [exact Es|].
      rewrite Hps, Hp1, Ht, map_app. reflexivity.
    - exists s0. split; [reflexivity|].
      apply read_next_group_none in E. rewrite E, Hp0. reflexivity. }
  destruct Hs as (s & Es & Hps).
  destruct (write_groups_runs dims (length fp) fp s0 s (le_n _) Es)
    as (ws & Htr & Hws & Hgc).
  exists s, ws. repeat split; assumption.
Qed.

Lemma points_buffer_safe_witness :
  exists (s : ingest) (writes : list event),
    write_groups [3; 3]
      [triplet 1 1 5; triplet 2 1 6; triplet 1 2 7; triplet 2 2 8;
       triplet 3 2 9; triplet 3 3 4]
      (created {| argc := 5; XC := 1; YC := 1; gzip_level := 0 |}
               "m_gzip0.h5" 3 3)
    = Some s
    /\ points s = [(0, 0, 5); (1, 0, 6); (0, 1, 7); (1, 1, 8); (2, 1, 9);
                   (2, 2, 4)]
    /\ length writes = 3%nat.
Proof.
  destruct (points_buffer_safe [3; 3]
              [triplet 1 1 5; triplet 2 1 6; triplet 1 2 7; triplet 2 2 8;
               triplet 3 2 9; triplet 3 3 4]
              (created {| argc := 5; XC := 1; YC := 1; gzip_level := 0 |}
                       "m_gzip0.h5" 3 3))
    as (s & ws & Es & Hp & _ & Hws & _).
  - reflexivity.
  - reflexivity.
  - vm_compute. reflexivity.
  - intros first rest [= <- <-].
    repeat constructor; cbn [length]; lia.
  - exists s, ws. split; [exact Es|]. split; [exact Hp|].
    apply Forall2_length in Hws. symmetry. exact Hws.
Defined.

(** X11: the buffer of the points of [mm2h5.c] is enlarged once per group,
    to twice its capacity.  When the second run of the file is more than
    three times as long as the first, doubling is not enough and the
    points of the second group are stored beyond the end of the buffer:
    the write loop, and [main] with it, have no defined behaviour. *)
Theorem points_buffer_overflow
    (args : arguments) (h5_file : string) (file_id : Z) (fp fp1 : list line)
    (get : reader) (g : rng) (X Y : Z) (first second : list point_t)
    (rest : list (list point_t)) :
  5 <= argc args ->
  0 <= gzip_level args <= 9 ->
  read_dimensions fp 0 0 = (X, Y, fp1) ->
  X <> 0 -> Y <> 0 ->
  0 <= file_id ->
  runs_by_key (triplets fp1) = first :: second :: rest ->
  Z.of_nat (length second) < 2 ^ 62 ->
  3 * Z.of_nat (length first) < Z.of_nat (length second) ->
  write_groups [X; Y] fp1 (created args h5_file X Y) = None
  /\ main args h5_file file_id (Some fp) get g = None.
Proof.
  intros Hargc Hgz Hdim HX HY Hid Hruns Hsmall Hbig.
  assert (Hw : write_groups [X; Y] fp1 (created args h5_file X Y) = None).
  { rewrite write_groups_step.
    destruct (read_next_group fp1) as [[[g1 y1] fp2]|] eqn:E1.
    2:{ apply read_next_group_none in E1. rewrite E1 in Hruns.
        discriminate. }
    destruct (read_next_group_run _ _ _ _ E1) as (Hne1 & Hy1 & Ht1 & Hn1).
    rewrite Ht1, (runs_by_key_app y1) in Hruns by assumption.
    injection Hruns as -> Hruns2.
    assert (Hf : 1 <= Z.of_nat (length first))
      by (destruct first; [contradiction | cbn [length]; lia]).
    unfold write_group at 1. cbn [points cap_points created length].
    change (Z.of_nat 0) with 0. rewrite !Z.add_0_l.
    assert (Hu : u64 (Z.of_nat (length first)) = Z.of_nat (length first))
      by (unfold u64; apply Z.mod_small; lia).
    assert (Hd : u64 (Z.of_nat (length first) * 2)
                 = Z.of_nat (length first) * 2)
      by (unfold u64; apply Z.mod_small; lia).
    rewrite Hu, Hd. change (0 =? 0) with true.
    replace (Z.of_nat (length first) >? 0) with true by lia.
    replace (Z.of_nat (length first) >? Z.of_nat (length first) * 2)
      with false by lia.
    cbv iota. rewrite write_groups_step.
    destruct (read_next_group fp2) as [[[g2 y2] fp3]|] eqn:E2.
    2:{ apply read_next_group_none in E2. rewrite E2 in Hruns2.
        discriminate. }
    destruct (read_next_group_run _ _ _ _ E2) as (Hne2 & Hy2 & Ht2 & Hn2).
    rewrite Ht2, (runs_by_key_app y2) in Hruns2 by assumption.
    injection Hruns2 as -> _.
    unfold write_group. cbn [points cap_points app].
    rewrite length_map.
    assert (Hu2 : u64 (Z.of_nat (length first) + Z.of_nat (length second))
                  = Z.of_nat (length first) + Z.of_nat (length second))
      by (unfold u64; apply Z.mod_small; lia).
    assert (Hd2 : u64 (Z.of_nat (length first) * 2 * 2)
                  = Z.of_nat (length first) * 2 * 2)
      by (unfold u64; apply Z.mod_small; lia).
    rewrite Hu2, Hd2.
    replace (Z.of_nat (length first) + Z.of_nat (length second)
             >? Z.of_nat (length first) * 2) with true by lia.
    replace (Z.of_nat (length first) * 2 =? 0) with false by lia.
    replace (Z.of_nat (length first) + Z.of_nat (length second)
             >? Z.of_nat (length first) * 2 * 2) with true by lia.
    reflexivity. }
  split; [exact Hw|].
  unfold main. rewrite Hdim, Hw.
  replace (argc args <? 5) with false by lia.
  replace (gzip_level args <? 0) with false by lia.
  replace (gzip_level args >? 9) with false by lia.
  replace (X =? 0) with false by lia.
  replace (Y =? 0) with false by lia.
  replace (file_id <? 0) with false by lia.
  reflexivity.
Qed.

Lemma points_buffer_overflow_witness :
  main {| argc := 5; XC := 1; YC := 1; gzip_level := 0 |} "m_gzip0.h5" 1
    (Some [triplet 9 9 5; triplet 1 1 7; triplet 2 1 7; triplet 1 2 1;
           triplet 2 2 2; triplet 3 2 3; triplet 4 2 4; triplet 5 2 5;
           triplet 6 2 6; triplet 7 2 7])
    (fun _ _ => 0) {| stream := fun _ => 0; calls := 0 |}
  = None.
Proof.
  apply (points_buffer_overflow
           {| argc := 5; XC := 1; YC := 1; gzip_level := 0 |} "m_gzip0.h5" 1
           [triplet 9 9 5; triplet 1 1 7; triplet 2 1 7; triplet 1 2 1;
            triplet 2 2 2; triplet 3 2 3; triplet 4 2 4; triplet 5 2 5;
            triplet 6 2 6; triplet 7 2 7]
           [triplet 1 1 7; triplet 2 1 7; triplet 1 2 1;
            triplet 2 2 2; triplet 3 2 3; triplet 4 2 4; triplet 5 2 5;
            triplet 6 2 6; triplet 7 2 7]
           (fun _ _ => 0) {| stream := fun _ => 0; calls := 0 |} 9 9
           [(1, 1, 7); (2, 1, 7)]
           [(1, 2, 1); (2, 2, 2); (3, 2, 3); (4, 2, 4); (5, 2, 5);
            (6, 2, 6); (7, 2, 7)] []);
    cbn; try lia; reflexivity.
Defined.

End Mm2h5Groups.

(** ** The outcomes of [mm2h5.c] *)

Section Mm2h5Outcome.
Local Abbreviation group_written := written (only parsing).
Import C Rng H5 Mm2h5.

(** The cases in which [main] gives up before it creates anything: fewer
    than four arguments, a level outside 0..9, a text file that cannot be
    opened, a dimension left at 0 by the header. *)
Definition refused (args : arguments) (file : option (list line)) : Prop :=
  argc args < 5
  \/ gzip_level args < 0
  \/ 9 < gzip_level args
  \/ match file with
     | None => True
     | Some fp => let '(X, Y, _) := read_dimensions fp 0 0 in X = 0 \/ Y = 0
     end.

Lemma verify_status get pts g v sm st :
  verify get pts g = Some (v, sm, st) -> st = EXIT_SUCCESS.
Proof.
  unfold verify.
  destruct (if Z.of_nat (length pts) <=? VERIFY_ALL_LIMIT then _ else _);
    [|discriminate].
  intros [= _ _ <-]. reflexivity.
Qed.

(** X12: the outcomes of [main] of [mm2h5.c].  It returns [EXIT_FAILURE],
    having made no HDF5 call, exactly when it has fewer than four
    arguments, a level outside 0..9, a text file it cannot open, or a
    header that leaves a dimension at 0.  Past these tests it returns
    [EXIT_FAILURE] when [H5Fcreate] fails, with this one call made.
    In every other case in which it returns, it returns [EXIT_SUCCESS]
    with a report of the verification, and what it did to the HDF5 file
    is: create it, create the dataset [data] with the dimensions of the
    header (with the deflate filter only for a level above 0), write one
    selection per run of one key in the order of the file, close the
    file; the points kept for the verification are all the triplets after
    the header, coordinates decremented. *)
Theorem mm2h5_outcomes
    (args : arguments) (h5_file : string) (file_id : Z)
    (file : option (list line)) (get : reader) (g : rng) :
  (main args h5_file file_id file get g = Some failure <-> refused args file)
  /\ (~ refused args file -> file_id < 0 ->
      main args h5_file file_id file get g = Some (not_created h5_file))
  /\ forall e,
       main args h5_file file_id file get g = Some e ->
       ~ refused args file ->
       0 <= file_id ->
       status e = EXIT_SUCCESS
       /\ report e <> None
       /\ exists fp X Y fp1 writes,
            file = Some fp
            /\ read_dimensions fp 0 0 = (X, Y, fp1)
            /\ written e
               = H5Fcreate h5_file
                 :: H5Dcreate2 "data" [X; Y]
                      (if gzip_level args >? 0
                       then Some (gzip_level args) else None)
                 :: writes ++ [H5Fclose]
            /\ Forall2 group_written (runs_by_key (triplets fp1)) writes
            /\ stored e = map decrement (triplets fp1).
Proof.
  assert (Hpast : ~ refused args file ->
            exists fp X Y fp1,
              file = Some fp /\ read_dimensions fp 0 0 = (X, Y, fp1)
              /\ main args h5_file file_id file get g
                 = if file_id <? 0 then Some (not_created h5_file)
                   else
                     match write_groups [X; Y] fp1
                             (created args h5_file X Y) with
                     | None => None
                     | Some s =>
                         match verify get (points s) g with
                         | None => None
                         | Some (v, sm, st) =>
                             Some {| status := st;
                                     written := trace s ++ [H5Fclose];
                                     stored := points s;
                                     report := Some (v, sm) |}
                         end
                     end).
  { intros Hn. unfold refused in Hn. unfold main.
    destruct (argc args <? 5) eqn:Ea; [exfalso; apply Hn; lia|].
    destruct (gzip_level args <? 0) eqn:Eg0; [exfalso; apply Hn; lia|].
    destruct (gzip_level args >? 9) eqn:Eg9; [exfalso; apply Hn; lia|].
    cbn [orb].
    destruct file as [fp|]; [|exfalso; apply Hn; tauto].
    destruct (read_dimensions fp 0 0) as [[X Y] fp1] eqn:Ed.
    destruct (X =? 0) eqn:EX; [exfalso; apply Hn; right; right; right; lia|].
    destruct (Y =? 0) eqn:EY; [exfalso; apply Hn; right; right; right; lia|].
    cbn [orb]. exists fp, X, Y, fp1.
    split; [reflexivity|]. split; [exact Ed | reflexivity]. }
  split; [|split].
  - split.
    + intros He. unfold refused.
      destruct (Z.ltb_spec (argc args) 5); [left; lia|].
      destruct (Z.ltb_spec (gzip_level args) 0); [right; left; lia|].
      destruct (Z.ltb_spec 9 (gzip_level args)); [tauto|].
      do 3 right. destruct file as [fp|]; [|exact I].
      destruct (read_dimensions fp 0 0) as [[X Y] fp1] eqn:Ed.
      destruct (Z.eq_dec X 0); [tauto|]. destruct (Z.eq_dec Y 0); [tauto|].
      exfalso.
      destruct Hpast as (fp' & X' & Y' & fp1' & _ & _ & Em).
      { unfold refused. rewrite Ed. lia. }
      rewrite Em in He. destruct (file_id <? 0); [discriminate|].
      destruct (write_groups _ _ _) as [s|]; [|discriminate].
      destruct (verify get (points s) g) as [[[v sm] st]|] eqn:Ev;
        [|discriminate].
      apply verify_status in Ev. subst st. discriminate.
    + intros Hr. unfold refused in Hr. unfold main.
      destruct (argc args <? 5) eqn:Ea; [reflexivity|].
      destruct (gzip_level args <? 0) eqn:Eg0; [reflexivity|].
      destruct (gzip_level args >? 9) eqn:Eg9; [reflexivity|].
      cbn [orb]. destruct file as [fp|]; [|reflexivity].
      destruct (read_dimensions fp 0 0) as [[X Y] fp1] eqn:Ed.
      destruct Hr as [Hr|[Hr|[Hr|[Hr|Hr]]]]; try lia.
      * subst X. reflexivity.
      * subst Y. rewrite orb_true_r. reflexivity.
  - intros Hn Hid.
    destruct (Hpast Hn) as (fp & X & Y & fp1 & _ & _ & Em).
    rewrite Em. replace (file_id <? 0) with true by lia. reflexivity.
  - intros e He Hn Hid.
    destruct (Hpast Hn) as (fp & X & Y & fp1 & Ef & Ed & Em).
    rewrite Em in He. replace (file_id <? 0) with false in He by lia.
    destruct (write_groups [X; Y] fp1 (created args h5_file X Y))
      as [s|] eqn:Ew; [|discriminate].
    destruct (verify get (points s) g) as [[[v sm] st]|] eqn:Ev;
      [|discriminate].
    injection He as <-. cbn [status report written stored].
    split; [exact (verify_status _ _ _ _ _ _ Ev)|].
    split; [discriminate|].
    destruct (write_groups_runs _ _ _ _ _ (le_n _) Ew)
      as (ws & Htr & Hws & _).
    destruct (write_groups_spec _ _ _ _ _ (le_n _) Ew) as (Hp & _).
    exists fp, X, Y, fp1, ws.
    split; [exact Ef|]. split; [exact Ed|].
    split; [rewrite Htr; reflexivity|].
    split; [exact Hws|]. exact Hp.
Qed.

End Mm2h5Outcome.

(** ** The contiguous slab of [frame-writer-str.c] *)

Section FrameSlab.
Import C Rng FrameWriter.

(** X13: the contiguous pattern of [frame-writer-str.c], for a chunk at
    [offset] whose end is within the range of [hsize_t].  When the two
    extents of the slab do not exceed the dimensions of the chunk, the
    slab is drawn inside the chunk: its start is
    [rand() % (dim - extent + 1)] in each dimension, start plus extent
    stays within the dimension, and the number of elements written is the
    product of the extents modulo [2^64], the product itself when the
    chunk has fewer than [2^64] elements.  When an extent is one more than
    its dimension, as for 3 rows with [m=200], the divisor is 0 and the
    behaviour is undefined. *)
Theorem slab_inside_chunk
    (this_rows this_cols o0 o1 slab_rows slab_cols : Z)
    (mfrac : spec_float) (g : rng) :
  slab_extent this_rows mfrac = Some slab_rows ->
  slab_extent this_cols mfrac = Some slab_cols ->
  0 <= this_rows -> 0 <= this_cols ->
  0 <= o0 -> o0 + this_rows < 2 ^ 64 ->
  0 <= o1 -> o1 + this_cols < 2 ^ 64 ->
  in_range g ->
  (slab_rows <= this_rows -> slab_cols <= this_cols ->
   exists s0 s1,
     contiguous_slab this_rows this_cols mfrac [o0; o1] g
     = Some ([o0 + s0; o1 + s1], [slab_rows; slab_cols],
             u64 (slab_rows * slab_cols),
             {| stream := stream g; calls := S (S (calls g)) |})
     /\ s0 = stream g (calls g) mod (this_rows - slab_rows + 1)
     /\ s1 = stream g (S (calls g)) mod (this_cols - slab_cols + 1)
     /\ 0 <= s0 /\ s0 + slab_rows <= this_rows
     /\ 0 <= s1 /\ s1 + slab_cols <= this_cols
     /\ 1 <= slab_rows /\ 1 <= slab_cols
     /\ (this_rows * this_cols < 2 ^ 64 ->
         u64 (slab_rows * slab_cols) = slab_rows * slab_cols))
  /\ (slab_rows = this_rows + 1 \/ slab_cols = this_cols + 1 ->
      contiguous_slab this_rows this_cols mfrac [o0; o1] g = None).
Proof.
  intros Er Ec Hrows Hcols Ho0 Ho0' Ho1 Ho1' Hg.
  pose proof (slab_extent_positive _ _ _ Er) as Hr1.
  pose proof (slab_extent_positive _ _ _ Ec) as Hc1.
  pose proof (Hg (calls g)) as Hg0. pose proof (Hg (S (calls g))) as Hg1.
  unfold RAND_MAX in Hg0, Hg1.
  split.
  - intros Hfr Hfc.
    set (r0 := stream g (calls g)) in *.
    set (r1 := stream g (S (calls g))) in *.
    assert (Hm0 : 0 <= r0 mod (this_rows - slab_rows + 1)
                  < this_rows - slab_rows + 1)
      by (apply Z.mod_pos_bound; lia).
    assert (Hm1 : 0 <= r1 mod (this_cols - slab_cols + 1)
                  < this_cols - slab_cols + 1)
      by (apply Z.mod_pos_bound; lia).
    exists (r0 mod (this_rows - slab_rows + 1)),
           (r1 mod (this_cols - slab_cols + 1)).
    split.
    { unfold contiguous_slab. rewrite Er, Ec. unfold rand.
      cbn [stream calls]. fold r0 r1.
      assert (Hu0 : u64 (this_rows - slab_rows + 1)
                    = this_rows - slab_rows + 1)
        by (unfold u64; apply Z.mod_small; lia).
      assert (Hu1 : u64 (this_cols - slab_cols + 1)
                    = this_cols - slab_cols + 1)
        by (unfold u64; apply Z.mod_small; lia).
      rewrite Hu0, Hu1.
      replace (this_rows - slab_rows + 1 =? 0) with false by lia.
      replace (this_cols - slab_cols + 1 =? 0) with false by lia.
      cbn [orb zip_with map].
      assert (Hr0 : u64 r0 = r0) by (unfold u64; apply Z.mod_small; lia).
      assert (Hr1' : u64 r1 = r1) by (unfold u64; apply Z.mod_small; lia).
      rewrite Hr0, Hr1'.
      assert (Hs0 : u64 (o0 + r0 mod (this_rows - slab_rows + 1))
                    = o0 + r0 mod (this_rows - slab_rows + 1))
        by (unfold u64; apply Z.mod_small; lia).
      assert (Hs1 : u64 (o1 + r1 mod (this_cols - slab_cols + 1))
                    = o1 + r1 mod (this_cols - slab_cols + 1))
        by (unfold u64; apply Z.mod_small; lia).
      rewrite Hs0, Hs1. reflexivity. }
    split; [reflexivity|]. split; [reflexivity|].
    split; [lia|]. split; [lia|]. split; [lia|]. split; [lia|].
    split; [exact Hr1|]. split; [exact Hc1|].
    intros Hsmall. unfold u64. apply Z.mod_small.
    split; [apply Z.mul_nonneg_nonneg; lia|].
    assert (slab_rows * slab_cols <= this_rows * this_cols)
      by (apply Z.mul_le_mono_nonneg; lia).
    lia.
  - intros Hover. unfold contiguous_slab. rewrite Er, Ec. unfold rand.
    cbn [stream calls].
    destruct Hover as [-> | ->].
    + replace (this_rows - (this_rows + 1) + 1) with 0 by lia.
      reflexivity.
    + replace (this_cols - (this_cols + 1) + 1) with 0 by lia.
      change (u64 0 =? 0) with true. rewrite orb_true_r. reflexivity.
Qed.

Lemma slab_inside_chunk_witness :
  (exists s0 s1,
      contiguous_slab 20 20 (mfrac_of (Double.of_Z 25)) [40; 60]
        sample_generator
      = Some ([40 + s0; 60 + s1], [10; 10], u64 (10 * 10),
              {| stream := stream sample_generator; calls := 2 |})
      /\ s0 + 10 <= 20 /\ s1 + 10 <= 20)
  /\ contiguous_slab 3 3 (mfrac_of (Double.of_Z 200)) [0; 0] sample_generator
     = None.
Proof.
  split.
  2:{ destruct (slab_inside_chunk 3 3 0 0 4 4 (mfrac_of (Double.of_Z 200))
                  sample_generator)
        as [_ Hout];
        [vm_compute; reflexivity | vm_compute; reflexivity
        | lia | lia | lia | lia | lia | lia
        | exact sample_generator_in_range |].
      apply Hout. left. reflexivity. }
  destruct (slab_inside_chunk 20 20 40 60 10 10 (mfrac_of (Double.of_Z 25))
              sample_generator)
    as [Hin _];
    [vm_compute; reflexivity | vm_compute; reflexivity
    | lia | lia | lia | lia | lia | lia
    | exact sample_generator_in_range |].
  destruct (Hin ltac:(lia) ltac:(lia))
    as (s0 & s1 & E & _ & _ & _ & H0 & _ & H1 & _).
  exists s0, s1. split; [exact E|]. split; assumption.
Defined.

End FrameSlab.
